(** * SD_Sync: firmware_downloader.py and sync_repos.py

    A shallow embedding of the resolution, file-name, URL, download and
    batch logic of the two command-line tools, and the properties of the
    specification stated over it.

    Conventions of the embedding.
    - Python [str] is [string] (a sequence of bytes); [str.lower] and the
      regular-expression class [\w] are modelled on ASCII, bytes above 127
      are left alone by [lower] and are not word characters.
    - A JSON object or TOML table read with [d.get(k, default)] is a record;
      a key whose default matters is an [option] field, a key read with
      default [''] is a [string] field whose absent value is [""].
    - Code that raises returns an [outcome]; code with effects threads a
      world explicitly.
    - Progress lines guarded by [self.verbose] / [verbose] and the lines
      of the final reports are not modelled; the unconditional [print]
      calls of the firmware tool's download functions are.
    - File-system probes ([exists], [unlink]) and [print] are calls that
      do not raise; [mkdir] may. *)

From Stdlib Require Import String Ascii List Bool Arith ZArith Lia Permutation.
From Stdlib Require Import DecimalString Sorted.
Import ListNotations.

Open Scope string_scope.
Open Scope list_scope.

(* ================================================================= *)
(** ** Python string primitives *)

Module Py.

(** [x in s] for strings: [x] occurs as a contiguous substring of [s]. *)
Fixpoint str_in (x s : string) : bool :=
  String.prefix x s ||
  match s with
  | EmptyString => false
  | String _ s' => str_in x s'
  end.

Definition lower_char (c : ascii) : ascii :=
  let n := nat_of_ascii c in
  if ((65 <=? n) && (n <=? 90))%nat then ascii_of_nat (n + 32) else c.

(** [s.lower()] *)
Fixpoint lower (s : string) : string :=
  match s with
  | EmptyString => EmptyString
  | String c s' => String (lower_char c) (lower s')
  end.

(** [s.replace(old, new)] for a one-character [old]. *)
Fixpoint replace (old : ascii) (new : string) (s : string) : string :=
  match s with
  | EmptyString => EmptyString
  | String c s' =>
      ((if Ascii.eqb c old then new else String c EmptyString)
         ++ replace old new s')%string
  end.

(** [re.sub('[^...]', '', s)]: delete every character outside the class
    [keep]. *)
Fixpoint re_sub_outside (keep : ascii -> bool) (s : string) : string :=
  match s with
  | EmptyString => EmptyString
  | String c s' =>
      if keep c then String c (re_sub_outside keep s')
      else re_sub_outside keep s'
  end.

(** The class [\w] on ASCII: letters, digits and the underscore. *)
Definition is_word (c : ascii) : bool :=
  let n := nat_of_ascii c in
  (((48 <=? n) && (n <=? 57)) || ((65 <=? n) && (n <=? 90))
   || ((97 <=? n) && (n <=? 122)) || (n =? 95))%nat.

Fixpoint all_chars (p : ascii -> bool) (s : string) : bool :=
  match s with
  | EmptyString => true
  | String c s' => p c && all_chars p s'
  end.

(** [s.rstrip(ch)] for a one-character argument. *)
Fixpoint rstrip (ch : ascii) (s : string) : string :=
  match s with
  | EmptyString => EmptyString
  | String c s' =>
      match rstrip ch s' with
      | EmptyString => if Ascii.eqb c ch then EmptyString else String c EmptyString
      | r => String c r
      end
  end.

(** [s.split(sep)] for a one-character separator: never the empty list. *)
Fixpoint split (sep : ascii) (s : string) : list string :=
  match s with
  | EmptyString => [EmptyString]
  | String c s' =>
      if Ascii.eqb c sep then EmptyString :: split sep s'
      else match split sep s' with
           | [] => [String c EmptyString]
           | p :: ps => String c p :: ps
           end
  end.

(** [sep.join(parts)] *)
Fixpoint join (sep : string) (parts : list string) : string :=
  match parts with
  | [] => EmptyString
  | [p] => p
  | p :: ps => (p ++ sep ++ join sep ps)%string
  end.

(** [l[-k]] for [k >= 1]; [None] stands for IndexError. *)
Definition index_from_end {A : Type} (l : list A) (k : nat) : option A :=
  if ((1 <=? k) && (k <=? List.length l))%nat then nth_error l (List.length l - k)
  else None.

(** [str(n)] for a non-negative integer, as an f-string renders it. *)
Definition str_of_nat (n : nat) : string :=
  NilEmpty.string_of_uint (Nat.to_uint n).

End Py.

(* ================================================================= *)
(** ** firmware_downloader.py: catalog resolver and file names *)

Module FirmwareDownloader.
Import Py.

(** One element of a catalog entry's [versions] list.  [v_version] is
    read both as [.get('version', '')] and as [.get('version', 'unknown')],
    [v_file] as [.get('file', '')]. *)
Record Version := mkVersion {
  v_version : option string;
  v_file : string
}.

(** One firmware object of the remote catalog. *)
Record Firmware := mkFirmware {
  fw_category : string;          (* .get('category', '') *)
  fw_name : option string;       (* .get('name', '') and ['name'] *)
  fw_author : string;
  fw_versions : list Version     (* .get('versions', []) *)
}.

Definition get_version (v : Version) (default : string) : string :=
  match v_version v with
  | Some s => s
  | None => default
  end.

Definition get_name (f : Firmware) (default : string) : string :=
  match fw_name f with
  | Some s => s
  | None => default
  end.

(** What [resolve_version] returns: [None], one version object, or the
    whole list. *)
Inductive resolved :=
| NotFound
| Single (v : Version)
| Many (vs : list Version).

Definition prerelease_markers : list string := ["beta"; "alpha"; "rc"; "dev"].

(** The test of the [stable] loop, line 111. *)
Definition stable_test (v : Version) : bool :=
  let version_str := lower (get_version v "") in
  str_in "stable" version_str
  || negb (existsb (fun x => str_in x version_str) prerelease_markers).

Definition resolve_version (firmware : Firmware) (requested_version : string)
  : resolved :=
  let versions := fw_versions firmware in
  match versions with
  | [] => NotFound
  | first :: _ =>
      if String.eqb requested_version "latest" then Single first
      else if String.eqb requested_version "stable" then
        match find stable_test versions with
        | Some version => Single version
        | None => Single first
        end
      else if String.eqb requested_version "all" then Many versions
      else
        match find (fun version => str_in requested_version (get_version version ""))
                   versions with
        | Some version => Single version
        | None => NotFound
        end
  end.

(** [get_firmware_for_device], on the fetched catalog. *)
Definition get_firmware_for_device (data : list Firmware) (device : string)
  : list Firmware :=
  filter (fun firmware => String.eqb (lower (fw_category firmware)) (lower device))
         data.

(** [find_firmware_by_name], on the fetched catalog. *)
Definition find_firmware_by_name (data : list Firmware) (device name : string)
  : option Firmware :=
  find (fun firmware =>
          let fw_name := lower (get_name firmware "") in
          str_in (lower name) fw_name || str_in fw_name (lower name))
       (get_firmware_for_device data device).

(** The character classes of the two regular expressions of
    [clean_filename]. *)
Definition name_class (c : ascii) : bool :=
  is_word c || Ascii.eqb c "-" || Ascii.eqb c "_".

Definition version_class (c : ascii) : bool :=
  is_word c || Ascii.eqb c "-" || Ascii.eqb c "_" || Ascii.eqb c ".".

Definition clean_name (name : string) : string :=
  re_sub_outside name_class (replace " " "_" name).

Definition clean_version (version : string) : string :=
  re_sub_outside version_class (replace "V" "" (replace "v" "" version)).

Definition clean_device (device : string) : string :=
  re_sub_outside name_class (replace " " "_" device).

Definition clean_filename (name version device : string) : string :=
  (clean_device device ++ "_" ++ clean_name name ++ "_"
     ++ clean_version version ++ ".bin")%string.

(** What the specification asks of the version part: drop one leading
    [v] or [V], then delete the characters outside the class. *)
Definition strip_leading_v (version : string) : string :=
  match version with
  | String c rest =>
      if Ascii.eqb c "v" || Ascii.eqb c "V" then rest else version
  | EmptyString => EmptyString
  end.

Definition spec_filename (name version device : string) : string :=
  (clean_device device ++ "_" ++ clean_name name ++ "_"
     ++ re_sub_outside version_class (strip_leading_v version) ++ ".bin")%string.

(** [parse_github_releases_url] *)
Definition parse_github_releases_url (releases_url : string) : option string :=
  if negb (str_in "github.com" releases_url) then None
  else
    let parts := split "/" (rstrip "/" releases_url) in
    if (List.length parts <? 5)%nat then None
    else
      match index_from_end parts 3, index_from_end parts 2 with
      | Some owner, Some repo =>
          Some ("https://api.github.com/repos/" ++ owner ++ "/" ++ repo
                  ++ "/releases/latest")%string
      | _, _ => None
      end.

(** The vocabulary of the specification for the [stable] selector: the
    label of a version contains [x], compared in lower case as line 110
    does. *)
Definition label_contains (x : string) (v : Version) : bool :=
  str_in x (lower (get_version v "")).

Definition prerelease_free (v : Version) : Prop :=
  forall x, In x prerelease_markers -> label_contains x v = false.

Definition qualifies_as_stable (v : Version) : Prop :=
  label_contains "stable" v = true \/ prerelease_free v.

(** A catalog entry whose newest version is a release candidate of the
    stable line. *)
Definition stable_rc_entry : Firmware :=
  mkFirmware "cardputer" (Some "Bruce") "pr3y"
    [mkVersion (Some "2.0-stable-rc1") "a.bin"; mkVersion (Some "1.9") "b.bin"].

(* ----------------------------------------------------------------- *)
(** *** Effects: exceptions, the network, the file system, stdout *)

(** What a call can raise.  [SystemExit] is not a subclass of
    [Exception]: an [except Exception] clause lets it through. *)
Inductive exn :=
| Exception (text : string)
| SystemExit (code : nat).

Inductive outcome (A : Type) :=
| Returned (a : A)
| Raised (e : exn).
Arguments Returned {A} a.
Arguments Raised {A} e.

(** [requests.get(url)] followed by [raise_for_status()] and [.json()]. *)
Inductive http_json (A : Type) :=
| JsonBody (a : A)
| RequestException (e : string)
| JSONDecodeError (e : string).
Arguments JsonBody {A} a.
Arguments RequestException {A} e.
Arguments JSONDecodeError {A} e.

(** A streamed download into [open(target, 'wb')]: it completes, or it
    fails with a [requests.RequestException] or with another exception;
    [opened] tells whether the target file had been opened (created or
    truncated) when the failure came. *)
Inductive stream_result :=
| Streamed
| StreamRequestException (e : string) (opened : bool)
| StreamException (e : string) (opened : bool).

Record Asset := mkAsset {
  a_name : string;                  (* .get('name', '') *)
  browser_download_url : string     (* .get('browser_download_url', '') *)
}.

Record Release := mkRelease {
  r_assets : list Asset             (* .get('assets', []) *)
}.

(** The behaviour of the collaborators.  Network answers may depend on
    how many requests were made before ([nat]), so that the same URL can
    answer differently at different moments of a run. *)
Record Env := mkEnv {
  catalog_response : nat -> http_json (list Firmware);
  release_response : nat -> string -> http_json Release;
  stream_response : nat -> string -> stream_result;
  mkdir_error : string -> option string;    (* mkdir(parents, exist_ok) raising *)
  fnmatch : string -> string -> bool        (* fnmatch.fnmatch(name, pattern) *)
}.

Record World := mkWorld {
  files : list string;                      (* regular files present *)
  requests : list string;                   (* URLs requested, in order *)
  stdout : list string;                     (* lines printed, in order *)
  firmware_data : option (list Firmware)    (* self.firmware_data *)
}.

Definition M (A : Type) : Type := World -> outcome A * World.

Definition ret {A : Type} (a : A) : M A := fun w => (Returned a, w).

Definition raise {A : Type} (e : exn) : M A := fun w => (Raised e, w).

Definition bind {A B : Type} (m : M A) (k : A -> M B) : M B :=
  fun w =>
    match m w with
    | (Returned a, w') => k a w'
    | (Raised e, w') => (Raised e, w')
    end.

(** [try: m  except Exception as e: handler(e)] *)
Definition try_except {A : Type} (m : M A) (handler : string -> M A) : M A :=
  fun w =>
    match m w with
    | (Raised (Exception text), w') => handler text w'
    | r => r
    end.

Declare Scope py_scope.
Delimit Scope py_scope with py.
Notation "x <- c1 ;; c2" := (bind c1 (fun x => c2))
  (at level 61, c1 at next level, right associativity) : py_scope.
Notation "c1 ;; c2" := (bind c1 (fun _ => c2))
  (at level 61, right associativity) : py_scope.
Open Scope py_scope.

Definition print (line : string) : M unit := fun w =>
  (Returned tt,
   mkWorld (files w) (requests w) (stdout w ++ [line]) (firmware_data w)).

Definition path_exists (p : string) : M bool := fun w =>
  (Returned (existsb (String.eqb p) (files w)), w).

(** [target_file.unlink()] *)
Definition unlink (p : string) : M unit := fun w =>
  (Returned tt,
   mkWorld (filter (fun q => negb (String.eqb p q)) (files w))
           (requests w) (stdout w) (firmware_data w)).

Definition write_file (p : string) : M unit := fun w =>
  (Returned tt,
   mkWorld (p :: files w) (requests w) (stdout w) (firmware_data w)).

Definition log_request (url : string) : M unit := fun w =>
  (Returned tt,
   mkWorld (files w) (requests w ++ [url]) (stdout w) (firmware_data w)).

(** The world right after [url] has been requested. *)
Definition requested (url : string) (w : World) : World :=
  mkWorld (files w) (requests w ++ [url]) (stdout w) (firmware_data w).

Definition clock : M nat := fun w => (Returned (List.length (requests w)), w).

Definition set_firmware_data (data : list Firmware) : M unit := fun w =>
  (Returned tt, mkWorld (files w) (requests w) (stdout w) (Some data)).

Definition get_firmware_data : M (option (list Firmware)) := fun w =>
  (Returned (firmware_data w), w).

(** [Path(a) / b], rendered; pathlib's normalisation is not modelled. *)
Definition path_join (a b : string) : string := (a ++ "/" ++ b)%string.

Record Settings := mkSettings {
  output_base_dir : string;         (* .get('output_base_dir', 'firmware') *)
  overwrite_existing : bool         (* .get('overwrite_existing', False) *)
}.

Record FirmwareConfig := mkFirmwareConfig {
  fc_device : string;
  fc_name : string;
  fc_version : string;              (* .get('version', 'latest') *)
  fc_device_key : string
}.

Record GithubConfig := mkGithubConfig {
  g_name : string;
  g_releases_url : string;
  g_file_pattern : option string    (* .get('file_pattern', '*.bin') *)
}.

(** The name under which [main] lists a catalog entry. *)
Definition fc_label (firmware_config : FirmwareConfig) : string :=
  (fc_name firmware_config ++ " (" ++ fc_device firmware_config ++ ")")%string.

(** Entries paired with what their call returned: those that succeeded
    and those that failed. *)
Definition succeeded {A : Type} (outcomes : list (A * bool)) : list A :=
  map fst (filter snd outcomes).

Definition failures {A : Type} (outcomes : list (A * bool)) : list A :=
  map fst (filter (fun o => negb (snd o)) outcomes).

(** The entry's call was made in some world of the run and returned the
    boolean it is paired with. *)
Definition returned_by {A : Type} (call : A -> M bool) (o : A * bool) : Prop :=
  exists wi wi', call (fst o) wi = (Returned (snd o), wi').

(** The calls of a loop that has no [try] around its call, as the run
    makes them: the first in the world the loop starts in, each next one
    in the world the call before it left, every call with what it returned
    or raised; no call is made after one that raised. *)
Fixpoint calls_in_turn {A : Type} (call : A -> M bool) (entries : list A) (w : World)
  : list (A * outcome bool) * World :=
  match entries with
  | [] => ([], w)
  | entry :: rest =>
      match call entry w with
      | (Returned ok, w') =>
          let '(later, w'') := calls_in_turn call rest w' in
          ((entry, Returned ok) :: later, w'')
      | (Raised e, w') => ([(entry, Raised e)], w')
      end
  end.

Definition returned_true {A : Type} (o : A * outcome bool) : bool :=
  match snd o with
  | Returned true => true
  | _ => false
  end.

Definition returned_false {A : Type} (o : A * outcome bool) : bool :=
  match snd o with
  | Returned false => true
  | _ => false
  end.

(** The exception of the first call that raised, if one did. *)
Fixpoint first_raised {A : Type} (outcomes : list (A * outcome bool)) : option exn :=
  match outcomes with
  | [] => None
  | (_, Raised e) :: _ => Some e
  | (_, Returned _) :: rest => first_raised rest
  end.

Definition firmware_base_url : string :=
  "https://m5burner-cdn.m5stack.com/firmware/".

Definition api_url : string :=
  "https://raw.githubusercontent.com/bmorcelli/M5Stack-json-fw/main/script/all_device_firmware.json".

Section WithEnv.
Variable env : Env.

Definition mkdir (p : string) : M unit :=
  match mkdir_error env p with
  | Some text => raise (Exception text)
  | None => ret tt
  end.

(** The body of the two download [try] blocks together with their
    handlers: request, stream to the target, and on any exception remove
    the target if it exists.  [true] when the [try] body completed. *)
Definition stream_to (download_url target_file : string) : M bool :=
  t <- clock ;;
  log_request download_url ;;
  match stream_response env t download_url with
  | Streamed => write_file target_file ;; ret true
  | StreamRequestException _ opened | StreamException _ opened =>
      (if opened then write_file target_file else ret tt) ;;
      present <- path_exists target_file ;;
      (if present then unlink target_file else ret tt) ;;
      ret false
  end.

Definition fetch_firmware_data : M (list Firmware) :=
  cached <- get_firmware_data ;;
  match cached with
  | Some data => ret data
  | None =>
      t <- clock ;;
      log_request api_url ;;
      match catalog_response env t with
      | JsonBody data => set_firmware_data data ;; ret data
      | RequestException e =>
          print ("Error fetching firmware data: " ++ e) ;; raise (SystemExit 1)
      | JSONDecodeError e =>
          print ("Error parsing firmware data: " ++ e) ;; raise (SystemExit 1)
      end
  end.

Definition download_single_version (firmware : Firmware) (version_data : Version)
    (device device_key : string) (settings : Settings) : M bool :=
  match fw_name firmware with
  | None => raise (Exception "KeyError: 'name'")
  | Some name =>
      let download_file := v_file version_data in
      let actual_version := get_version version_data "unknown" in
      if String.eqb download_file "" then ret false
      else
        let target_dir := path_join (output_base_dir settings) device_key in
        mkdir target_dir ;;
        let filename := clean_filename name actual_version device in
        let target_file := path_join target_dir filename in
        present <- path_exists target_file ;;
        if present && negb (overwrite_existing settings) then ret true
        else stream_to (firmware_base_url ++ download_file) target_file
  end.

(** The loop of the ["all"] branch, lines 228-231. *)
Fixpoint download_versions (firmware : Firmware) (version_data : list Version)
    (device device_key : string) (settings : Settings) (success_count : nat)
  : M nat :=
  match version_data with
  | [] => ret success_count
  | version_item :: rest =>
      ok <- download_single_version firmware version_item device device_key settings ;;
      download_versions firmware rest device device_key settings
        (if ok then S success_count else success_count)
  end.

Definition download_firmware (settings : Settings) (firmware_config : FirmwareConfig)
  : M bool :=
  let device := fc_device firmware_config in
  let name := fc_name firmware_config in
  let version := fc_version firmware_config in
  let device_key := fc_device_key firmware_config in
  data <- fetch_firmware_data ;;
  match find_firmware_by_name data device name with
  | None =>
      print ("✗ Firmware '" ++ name ++ "' not found for device '" ++ device ++ "'") ;;
      ret false
  | Some firmware =>
      match resolve_version firmware version with
      | NotFound =>
          print ("✗ Version '" ++ version ++ "' not found for firmware '" ++ name ++ "'") ;;
          ret false
      | Many version_data =>
          if String.eqb version "all" then
            success_count <-
              download_versions firmware version_data device device_key settings 0 ;;
            ret (0 <? success_count)%nat
          else raise (Exception "AttributeError: 'list' object has no attribute 'get'")
      | Single version_data =>
          download_single_version firmware version_data device device_key settings
      end
  end.

(** One iteration of the asset loop, lines 382-429. *)
Definition download_asset (settings : Settings) (target_dir : string)
    (asset : Asset) (success_count : nat) : M nat :=
  let asset_name := a_name asset in
  let download_url := browser_download_url asset in
  if String.eqb download_url "" then ret success_count
  else
    let target_file := path_join target_dir asset_name in
    present <- path_exists target_file ;;
    if present && negb (overwrite_existing settings) then ret (S success_count)
    else
      ok <- stream_to download_url target_file ;;
      ret (if ok then S success_count else success_count).

Fixpoint download_assets (settings : Settings) (target_dir : string)
    (matching_assets : list Asset) (success_count : nat) : M nat :=
  match matching_assets with
  | [] => ret success_count
  | asset :: rest =>
      n <- download_asset settings target_dir asset success_count ;;
      download_assets settings target_dir rest n
  end.

Definition file_pattern_of (github_config : GithubConfig) : string :=
  match g_file_pattern github_config with
  | Some p => p
  | None => "*.bin"
  end.

Definition matching_assets_of (file_pattern : string) (assets : list Asset)
  : list Asset :=
  filter (fun asset => fnmatch env (a_name asset) file_pattern) assets.

Definition msg_no_assets (name : string) : string :=
  ("✗ No assets found in latest release of " ++ name)%string.

Definition msg_no_match (file_pattern name : string) : string :=
  ("✗ No assets matching pattern '" ++ file_pattern ++ "' found in " ++ name)%string.

Definition download_github_release_assets (settings : Settings)
    (github_config : GithubConfig) : M bool :=
  let name := g_name github_config in
  let releases_url := g_releases_url github_config in
  let file_pattern := file_pattern_of github_config in
  match parse_github_releases_url releases_url with
  | None =>
      print ("✗ Invalid GitHub releases URL: " ++ releases_url) ;; ret false
  | Some api_url =>
      try_except
        (t <- clock ;;
         log_request api_url ;;
         match release_response env t api_url with
         | RequestException e =>
             print ("✗ Failed to fetch GitHub release info: " ++ e) ;; ret false
         | JSONDecodeError e =>
             print ("✗ Failed to parse GitHub API response: " ++ e) ;; ret false
         | JsonBody release_data =>
             let assets := r_assets release_data in
             match assets with
             | [] => print (msg_no_assets name) ;; ret false
             | _ :: _ =>
                 let matching_assets := matching_assets_of file_pattern assets in
                 match matching_assets with
                 | [] => print (msg_no_match file_pattern name) ;; ret false
                 | _ :: _ =>
                     let target_dir := path_join (output_base_dir settings) name in
                     mkdir target_dir ;;
                     success_count <-
                       download_assets settings target_dir matching_assets 0 ;;
                     ret (0 <? success_count)%nat
                 end
             end
         end)
        (fun e =>
           print ("✗ Unexpected error processing GitHub release: " ++ e) ;;
           ret false)
  end.

(** The vocabulary of the specification for one unit of a fan-out: in
    world [w] the stream from [url] completes. *)
Definition streams (url : string) (w : World) : bool :=
  match stream_response env (List.length (requests w)) url with
  | Streamed => true
  | _ => false
  end.

(** The target is present and is not to be overwritten: the unit is
    skipped, which counts as success. *)
Definition skipped (settings : Settings) (target_file : string) (w : World) : bool :=
  existsb (String.eqb target_file) (files w) && negb (overwrite_existing settings).

(** In world [w] the asset is downloaded or skipped successfully. *)
Definition asset_obtained (settings : Settings) (target_dir : string)
    (asset : Asset) (w : World) : bool :=
  negb (String.eqb (browser_download_url asset) "")
  && (skipped settings (path_join target_dir (a_name asset)) w
      || streams (browser_download_url asset) w).

(** The world in which the asset that follows [pre] is handled. *)
Definition world_after_assets (settings : Settings) (target_dir : string)
    (pre : list Asset) (w : World) : World :=
  snd (download_assets settings target_dir pre 0 w).

(** In world [w] the version is downloaded or skipped successfully. *)
Definition version_obtained (settings : Settings) (name device device_key : string)
    (version_data : Version) (w : World) : bool :=
  negb (String.eqb (v_file version_data) "")
  && (skipped settings
        (path_join (path_join (output_base_dir settings) device_key)
           (clean_filename name (get_version version_data "unknown") device)) w
      || streams (firmware_base_url ++ v_file version_data) w).

(** The world in which the version that follows [pre] is handled. *)
Definition world_after_versions (firmware : Firmware) (settings : Settings)
    (device device_key : string) (pre : list Version) (w : World) : World :=
  snd (download_versions firmware pre device device_key settings 0 w).

(** The two batch loops of [main], lines 603-609 and 625-630: no
    [try] around the call. *)
Fixpoint m5_loop (settings : Settings) (firmware_configs : list FirmwareConfig)
    (m5_successful m5_failed : list string) : M (list string * list string) :=
  match firmware_configs with
  | [] => ret (m5_successful, m5_failed)
  | firmware_config :: rest =>
      let label := fc_label firmware_config in
      ok <- download_firmware settings firmware_config ;;
      if ok then m5_loop settings rest (m5_successful ++ [label]) m5_failed
      else m5_loop settings rest m5_successful (m5_failed ++ [label])
  end.

Fixpoint github_loop (settings : Settings) (github_configs : list GithubConfig)
    (github_successful github_failed : list string)
  : M (list string * list string) :=
  match github_configs with
  | [] => ret (github_successful, github_failed)
  | github_config :: rest =>
      let name := g_name github_config in
      ok <- download_github_release_assets settings github_config ;;
      if ok then github_loop settings rest (github_successful ++ [name]) github_failed
      else github_loop settings rest github_successful (github_failed ++ [name])
  end.

Record Args := mkArgs {
  dry_run : bool;
  github_only : bool;
  skip_github : bool
}.

Record Report := mkReport {
  m5_successful : list string;
  m5_failed : list string;
  github_successful : list string;
  github_failed : list string
}.

Definition total_successful_count (r : Report) : nat :=
  List.length (m5_successful r) + List.length (github_successful r).

Definition total_failed_count (r : Report) : nat :=
  List.length (m5_failed r) + List.length (github_failed r).

(** [main] from line 590 on: the two sub-batches and the report. *)
Definition main (args : Args) (settings : Settings)
    (firmware_configs : list FirmwareConfig) (github_configs : list GithubConfig)
  : M Report :=
  m5 <-
    (if negb (github_only args) then
       if dry_run args then
         ret (map fc_label firmware_configs, [])
       else m5_loop settings firmware_configs [] []
     else ret ([], [])) ;;
  gh <-
    (if negb (skip_github args) then
       if dry_run args then ret (map g_name github_configs, [])
       else github_loop settings github_configs [] []
     else ret ([], [])) ;;
  ret (mkReport (fst m5) (snd m5) (fst gh) (snd gh)).

(** The entries of the two sub-batches of [main] with their outcomes, and
    the world each sub-batch leaves: no entry when the sub-batch is
    switched off, every entry listed as successful without a call in a dry
    run, and otherwise the calls of the loop as the run makes them. *)
Definition catalog_outcomes (args : Args) (settings : Settings)
    (firmware_configs : list FirmwareConfig) (w : World)
  : list (FirmwareConfig * outcome bool) * World :=
  if github_only args then ([], w)
  else if dry_run args then (map (fun entry => (entry, Returned true)) firmware_configs, w)
  else calls_in_turn (download_firmware settings) firmware_configs w.

Definition github_outcomes (args : Args) (settings : Settings)
    (github_configs : list GithubConfig) (w : World)
  : list (GithubConfig * outcome bool) * World :=
  if skip_github args then ([], w)
  else if dry_run args then (map (fun entry => (entry, Returned true)) github_configs, w)
  else calls_in_turn (download_github_release_assets settings) github_configs w.

End WithEnv.

(** The status the process ends with: [sys.exit(1)] after the report when
    something failed, the code of a [SystemExit] raised on the way, and 1
    for an uncaught exception (the interpreter's traceback exit). *)
Definition exit_code (r : outcome Report) : nat :=
  match r with
  | Returned report => if (0 <? total_failed_count report)%nat then 1 else 0
  | Raised (SystemExit code) => code
  | Raised (Exception _) => 1
  end.

(* ----------------------------------------------------------------- *)
(** *** The device list and the configured entries *)

(** [devices.add(x)] on a set kept as a list without repetitions. *)
Definition set_add (x : string) (devices : list string) : list string :=
  if existsb (String.eqb x) devices then devices else devices ++ [x].

(** [sorted(devices)] for a set of strings: the elements in increasing
    order of their code points. *)
Fixpoint insert_sorted (x : string) (l : list string) : list string :=
  match l with
  | [] => [x]
  | y :: rest => if String.leb x y then x :: l else y :: insert_sorted x rest
  end.

Definition sorted (devices : list string) : list string :=
  fold_right insert_sorted [] devices.

(** [get_available_devices], on the fetched catalog. *)
Definition get_available_devices (data : list Firmware) : list string :=
  sorted
    (fold_left
       (fun devices firmware =>
          let category := fw_category firmware in
          if String.eqb category "" then devices
          else set_add (lower category) devices)
       data []).

(** One element of a device's [firmware] list and one value of the
    [devices] table of the configuration. *)
Record FirmwareEntry := mkFirmwareEntry {
  fe_name : string;
  fe_version : option string          (* .get('version', 'latest') *)
}.

Record DeviceConfig := mkDeviceConfig {
  dc_device_name : option string;     (* .get('device_name', device_key) *)
  dc_firmware : list FirmwareEntry    (* .get('firmware', []) *)
}.

(** [get_firmware_configs], on the [devices] table in the order of its
    keys. *)
Definition get_firmware_configs (devices : list (string * DeviceConfig))
  : list FirmwareConfig :=
  flat_map
    (fun entry =>
       let device_key := fst entry in
       let device_config := snd entry in
       let device_name :=
         match dc_device_name device_config with
         | Some n => n
         | None => device_key
         end in
       map (fun firmware =>
              mkFirmwareConfig device_name (fe_name firmware)
                (match fe_version firmware with
                 | Some v => v
                 | None => "latest"
                 end)
                device_key)
           (dc_firmware device_config))
    devices.

(** The [--device] filter of [main], line 576. *)
Definition filter_device (device : string) (firmware_configs : list FirmwareConfig)
  : list FirmwareConfig :=
  filter (fun fw => String.eqb (fc_device fw) device) firmware_configs.

(** A small run used to exercise the definitions: a catalog of one
    entry with two versions, of which only the newer one can be streamed;
    a network without the GitHub API; and a file system that refuses to
    create [refused_dir]. *)
Definition example_catalog : list Firmware :=
  [mkFirmware "cardputer" (Some "Bruce") "pr3y"
     [mkVersion (Some "v1.1") "new.bin"; mkVersion (Some "v1.0") "old.bin"]].

Definition example_env (refused_dir : string) : Env :=
  mkEnv (fun _ => JsonBody example_catalog)
        (fun _ _ => RequestException "offline")
        (fun _ url =>
           if String.eqb url (firmware_base_url ++ "new.bin") then Streamed
           else StreamRequestException "404" false)
        (fun p => if String.eqb p refused_dir then Some "PermissionError" else None)
        (fun _ _ => true).

Definition empty_world : World := mkWorld [] [] [] None.

(** A network whose GitHub API answers with a release without assets. *)
Definition bare_release_env : Env :=
  mkEnv (fun _ => JsonBody example_catalog)
        (fun _ _ => JsonBody (mkRelease []))
        (fun _ _ => Streamed)
        (fun _ => None)
        (fun _ _ => true).

Definition marauder : GithubConfig :=
  mkGithubConfig "marauder" "https://github.com/justcallmekoko/ESP32Marauder/releases"
    None.

Definition example_settings : Settings := mkSettings "firmware" false.

Definition bruce_all : FirmwareConfig :=
  mkFirmwareConfig "cardputer" "Bruce" "all" "cardputer".

Definition bruce_latest : FirmwareConfig :=
  mkFirmwareConfig "cardputer" "Bruce" "latest" "cardputer".

Definition other_latest : FirmwareConfig :=
  mkFirmwareConfig "stickc" "Nemo" "latest" "stickc".

End FirmwareDownloader.

(* ================================================================= *)
(** ** sync_repos.py: repository sync, file mirror, batch controller *)

Module SyncRepos.
Import Py.

(** A call returns, or raises an exception of class [Exception] with the
    text [e] (nothing in these functions calls [sys.exit]). *)
Inductive outcome (A : Type) :=
| Returned (a : A)
| Raised (e : string).
Arguments Returned {A} a.
Arguments Raised {A} e.

(** [git.Repo(path)] *)
Inductive repo_open_result :=
| RepoOpened
| InvalidGitRepositoryError
| NoSuchPathError.

(** A GitPython call: it returns, raises [GitCommandError], or raises
    another exception. *)
Inductive git_result (A : Type) :=
| GitOk (a : A)
| GitCommandError (e : string)
| GitException (e : string).
Arguments GitOk {A} a.
Arguments GitCommandError {A} e.
Arguments GitException {A} e.

(** [subprocess.run(cmd, check=True)] *)
Inductive run_result :=
| Completed
| CalledProcessError (stderr : string)     (* [e.stderr.strip()] *)
| RunException (e : string).

Record RepoConfig := mkRepoConfig {
  name : string;
  url : string;
  branch : string;
  dest_dir : string;
  enabled : bool;                          (* .get('enabled', True) *)
  copy_files : list string;                (* .get('copy_files', []) *)
  repo_rsync_args : option (list string);
  repo_rsync_excludes : option (list string)
}.

Record Settings := mkSettings {
  rsync_args : option (list string);
  rsync_excludes : option (list string);
  firmware_dir : option string
}.

Inductive operation := sync | copy | both.

(** The external collaborators: the file system, GitPython, rsync and the
    thread pool, over a world the model does not look into. *)
Class Host (World : Type) := {
  path_exists : string -> World -> bool;
  path_join : string -> string -> string;                  (* str(Path(a) / b) *)
  path_parent : string -> string;                          (* str(Path(a).parent) *)
  mkdir_parents : string -> World -> option string * World; (* [Some e]: it raised *)
  repo_open : string -> World -> repo_open_result;
  clone_from : string -> string -> string -> World -> git_result unit * World;
  fetch : string -> World -> git_result unit * World;
  active_branch : string -> World -> git_result string;
  checkout : string -> string -> World -> git_result unit * World;
  pull : string -> World -> git_result unit * World;
  which_rsync : World -> bool;
  subprocess_run : list string -> World -> run_result * World;
  (** [ThreadPoolExecutor] and [as_completed]: every submitted call, with
      what its future holds, in completion order. *)
  run_pool : list RepoConfig -> World
             -> list (RepoConfig * outcome (bool * string)) * World;
  run_pool_complete : forall repos w,
      Permutation (map fst (fst (run_pool repos w))) repos
}.

Section WithHost.
Context {World : Type} {host : Host World}.

Definition M (A : Type) : Type := World -> outcome A * World.

Definition ret {A : Type} (a : A) : M A := fun w => (Returned a, w).

Definition bind {A B : Type} (m : M A) (k : A -> M B) : M B :=
  fun w =>
    match m w with
    | (Returned a, w') => k a w'
    | (Raised e, w') => (Raised e, w')
    end.

Definition is_git_repo (path : string) : M bool := fun w =>
  match repo_open path w with
  | RepoOpened => (Returned true, w)
  | InvalidGitRepositoryError => (Returned false, w)
  | NoSuchPathError => (Raised "NoSuchPathError", w)
  end.

Definition clone_repo (url branch dest_dir : string) : World -> (bool * string) * World :=
  fun w =>
    match clone_from url dest_dir branch w with
    | (GitOk _, w') => ((true, "Successfully cloned " ++ url), w')
    | (GitCommandError e, w') => ((false, "Failed to clone " ++ url ++ ": " ++ e), w')
    | (GitException e, w') =>
        ((false, "Unexpected error cloning " ++ url ++ ": " ++ e), w')
    end%string.

Definition sync_failed {A : Type} (dest_dir : string) (r : git_result A) : bool * string :=
  match r with
  | GitCommandError e => (false, "Failed to sync " ++ dest_dir ++ ": " ++ e)
  | GitException e => (false, "Unexpected error syncing " ++ dest_dir ++ ": " ++ e)
  | GitOk _ => (true, "Successfully synced " ++ dest_dir)
  end%string.

Definition sync_repo (dest_dir branch : string) : World -> (bool * string) * World :=
  fun w =>
    match repo_open dest_dir w with
    | InvalidGitRepositoryError =>
        (sync_failed dest_dir (@GitException unit "InvalidGitRepositoryError"), w)
    | NoSuchPathError =>
        (sync_failed dest_dir (@GitException unit "NoSuchPathError"), w)
    | RepoOpened =>
        match fetch dest_dir w with
        | (GitOk _, w1) =>
            match active_branch dest_dir w1 with
            | GitOk current =>
                let switched :=
                  if negb (String.eqb current branch) then checkout dest_dir branch w1
                  else (GitOk tt, w1) in
                match switched with
                | (GitOk _, w2) =>
                    match pull dest_dir w2 with
                    | (r, w3) => (sync_failed dest_dir r, w3)
                    end
                | (r, w2) => (sync_failed dest_dir r, w2)
                end
            | r => (sync_failed dest_dir r, w1)
            end
        | (r, w1) => (sync_failed dest_dir r, w1)
        end
    end.

Definition check_rsync_available (w : World) : bool := which_rsync w.

(** A value used as a condition: [None] and [''] are false. *)
Definition truthy (s : option string) : bool :=
  match s with
  | Some text => negb (String.eqb text "")
  | None => false
  end.

Definition or_default {A : Type} (o : option A) (d : A) : A :=
  match o with
  | Some a => a
  | None => d
  end.

(** The loop of lines 133-142: the sources that exist and those that
    do not. *)
Fixpoint validate_sources (repo_path : string) (copy_everything : bool)
    (copy_files : list string) (w : World) : list string * list string :=
  match copy_files with
  | [] => ([], [])
  | file_path :: rest =>
      let source := path_join repo_path file_path in
      let '(valid_sources, missing_sources) :=
        validate_sources repo_path copy_everything rest w in
      if path_exists source w then
        ((if copy_everything then (source ++ "/")%string else source) :: valid_sources,
         missing_sources)
      else (valid_sources, source :: missing_sources)
  end.

Definition success_msg (valid_sources missing_sources : list string) : string :=
  ("Successfully copied " ++ str_of_nat (List.length valid_sources) ++ " items"
   ++ match missing_sources with
      | [] => ""
      | _ :: _ => " (" ++ str_of_nat (List.length missing_sources)
                    ++ " items were missing)"
      end)%string.

Definition rsync_files (repo_config : RepoConfig) (settings : Settings)
    (copy_base_dir : option string) : M (bool * string) :=
  fun w =>
    if negb (truthy copy_base_dir) then (Returned (true, "No files to copy"), w)
    else if negb (check_rsync_available w) then
      (Returned (false, "rsync is not available on this system"), w)
    else
      let repo_path := dest_dir repo_config in
      let copy_everything :=
        match copy_files repo_config with [] => true | _ :: _ => false end in
      let copy_files := if copy_everything then ["./"] else copy_files repo_config in
      let dest_path := path_join (or_default copy_base_dir "") (name repo_config) in
      let rsync_args :=
        or_default (repo_rsync_args repo_config)
                   (or_default (rsync_args settings) ["-av"]) in
      let rsync_excludes :=
        or_default (repo_rsync_excludes repo_config)
                   (or_default (rsync_excludes settings) []) in
      let exclude_args :=
        flat_map (fun exclude_pattern => ["--exclude"; exclude_pattern]) rsync_excludes in
      let '(valid_sources, missing_sources) :=
        validate_sources repo_path copy_everything copy_files w in
      match valid_sources with
      | [] => (Returned (false, "No valid source paths found"), w)
      | _ :: _ =>
          match mkdir_parents dest_path w with
          | (Some e, w1) => (Raised e, w1)
          | (None, w1) =>
              let cmd :=
                ["rsync"] ++ rsync_args ++ exclude_args ++ valid_sources ++ [dest_path] in
              match subprocess_run cmd w1 with
              | (Completed, w2) =>
                  (Returned (match missing_sources with [] => true | _ :: _ => false end,
                             success_msg valid_sources missing_sources), w2)
              | (CalledProcessError stderr, w2) =>
                  (Returned (false, "rsync failed: " ++ stderr)%string, w2)
              | (RunException e, w2) =>
                  (Returned (false, "Unexpected error during rsync: " ++ e)%string, w2)
              end
          end
      end.

Definition includes_sync (op : operation) : bool :=
  match op with sync | both => true | copy => false end.

Definition includes_copy (op : operation) : bool :=
  match op with copy | both => true | sync => false end.

Definition is_copy (op : operation) : bool :=
  match op with copy => true | sync | both => false end.

Definition msg_not_a_repo (dest_dir : string) : string :=
  ("Directory " ++ dest_dir ++ " exists but is not a git repository")%string.

(** The git half of [process_repo], lines 208-223: [inl] is an early
    [return], [inr] the pair [(git_success, git_message)] carried on. *)
Definition git_stage (repo_config : RepoConfig) (op : operation)
  : M ((bool * string) + (bool * string)) :=
  fun w =>
    if includes_sync op then
      let staged :=
        if path_exists (dest_dir repo_config) w then
          match is_git_repo (dest_dir repo_config) w with
          | (Raised e, w') => (Raised e, w')
          | (Returned true, w') =>
              let '(r, w'') := sync_repo (dest_dir repo_config) (branch repo_config) w' in
              (Returned (inr r), w'')
          | (Returned false, w') =>
              (Returned (inl (false, msg_not_a_repo (dest_dir repo_config))), w')
          end
        else
          match mkdir_parents (path_parent (dest_dir repo_config)) w with
          | (Some e, w') => (Raised e, w')
          | (None, w') =>
              let '(r, w'') :=
                clone_repo (url repo_config) (branch repo_config) (dest_dir repo_config) w' in
              (Returned (inr r), w'')
          end in
      match staged with
      | (Returned (inr (false, git_message)), w') =>
          (Returned (inl (false, git_message)), w')
      | other => other
      end
    else (Returned (inr (true, "")), w).

Definition process_repo (repo_config : RepoConfig) (settings : Settings)
    (copy_base_dir : option string) (op : operation) : M (bool * string) :=
  if negb (enabled repo_config) then
    ret (true, "Skipped " ++ name repo_config ++ " (disabled)")%string
  else
    bind (git_stage repo_config op) (fun staged =>
    match staged with
    | inl early => ret early
    | inr (git_success, git_message) =>
        bind
          (fun w =>
             if includes_copy op then
               if is_copy op && negb (path_exists (dest_dir repo_config) w) then
                 (Returned (inl (false,
                    "Repository directory " ++ dest_dir repo_config
                    ++ " does not exist (cannot copy without sync first)")%string), w)
               else
                 match rsync_files repo_config settings copy_base_dir w with
                 | (Returned r, w') => (Returned (inr r), w')
                 | (Raised e, w') => (Raised e, w')
                 end
             else (Returned (inr (true, "No files to copy")), w))
          (fun copied =>
             match copied with
             | inl early => ret early
             | inr (rsync_success, rsync_message) =>
                 if git_success && rsync_success then
                   match op with
                   | sync => ret (true, git_message)
                   | copy => ret (true, rsync_message)
                   | both =>
                       ret (true,
                            if negb (String.eqb rsync_message "No files to copy")
                            then (git_message ++ "; " ++ rsync_message)%string
                            else git_message)
                   end
                 else
                   match op with
                   | sync => ret (false, git_message)
                   | copy => ret (false, rsync_message)
                   | both => ret (false, (git_message ++ "; " ++ rsync_message)%string)
                   end
             end)
    end).

(** The vocabulary of the specification for the file mirror: the source
    paths an entry configures (the whole tree when it lists none), and
    whether one of them exists under the repository root. *)
Definition configured_sources (repo_config : RepoConfig) : list string :=
  match copy_files repo_config with
  | [] => ["./"]
  | _ :: _ => copy_files repo_config
  end.

Definition source_exists (repo_config : RepoConfig) (w : World) (file_path : string)
  : bool :=
  path_exists (path_join (dest_dir repo_config) file_path) w.

(** The two lists the validation loop of [rsync_files] ends with. *)
Definition existing_sources (repo_config : RepoConfig) (w : World) : list string :=
  fst (validate_sources (dest_dir repo_config)
         (match copy_files repo_config with [] => true | _ :: _ => false end)
         (configured_sources repo_config) w).

Definition missing_sources_of (repo_config : RepoConfig) (w : World) : list string :=
  snd (validate_sources (dest_dir repo_config)
         (match copy_files repo_config with [] => true | _ :: _ => false end)
         (configured_sources repo_config) w).

(** The command line [rsync_files] builds for the sources [valid_sources]. *)
Definition rsync_cmd (repo_config : RepoConfig) (settings : Settings)
    (copy_base_dir : option string) (valid_sources : list string) : list string :=
  ["rsync"]
    ++ or_default (repo_rsync_args repo_config) (or_default (rsync_args settings) ["-av"])
    ++ flat_map (fun exclude_pattern => ["--exclude"; exclude_pattern])
         (or_default (repo_rsync_excludes repo_config)
            (or_default (rsync_excludes settings) []))
    ++ valid_sources
    ++ [path_join (or_default copy_base_dir "") (name repo_config)].

(** The counters and the result list of [main]. *)
Record Tally := mkTally {
  successful : nat;
  failed : nat;
  results : list (string * bool * string)
}.

(** The body of the [try] / [except Exception] of both loops, lines
    446-456 and 463-475. *)
Definition record_result (repo : RepoConfig) (r : outcome (bool * string))
    (t : Tally) : Tally :=
  match r with
  | Returned (success, message) =>
      mkTally (if success then S (successful t) else successful t)
              (if success then failed t else S (failed t))
              (results t ++ [(name repo, success, message)])
  | Raised e =>
      mkTally (successful t) (S (failed t))
              (results t ++ [(name repo, false,
                              "Exception processing " ++ name repo ++ ": " ++ e)%string])
  end.

Fixpoint sequential_loop (repositories : list RepoConfig) (settings : Settings)
    (copy_base_dir : option string) (op : operation) (t : Tally) (w : World)
  : Tally * World :=
  match repositories with
  | [] => (t, w)
  | repo :: rest =>
      let '(r, w') := process_repo repo settings copy_base_dir op w in
      sequential_loop rest settings copy_base_dir op (record_result repo r t) w'
  end.

Fixpoint as_completed_loop (completed : list (RepoConfig * outcome (bool * string)))
    (t : Tally) : Tally :=
  match completed with
  | [] => t
  | (repo, r) :: rest => as_completed_loop rest (record_result repo r t)
  end.

(** The firmware-directory step of lines 481-507: [true] when it ran and
    failed, which [main] counts with [failed += 1]. *)
Definition firmware_dir_step (settings : Settings) (copy_base_dir : option string)
    (op : operation) (w : World) : bool * World :=
  if truthy (firmware_dir settings) && truthy copy_base_dir && includes_copy op then
    let firmware_path := or_default (firmware_dir settings) "" in
    if path_exists firmware_path w then
      let dest_firmware := path_join (or_default copy_base_dir "") "firmware" in
      match mkdir_parents dest_firmware w with
      | (Some _, w1) => (true, w1)
      | (None, w1) =>
          let cmd := ["rsync"] ++ or_default (rsync_args settings) ["-av"]
                       ++ [(firmware_path ++ "/")%string; dest_firmware] in
          match subprocess_run cmd w1 with
          | (Completed, w2) => (false, w2)
          | (_, w2) => (true, w2)
          end
      end
    else (false, w)
  else (false, w).

(** The calls of the sequential loop one after the other, each with what
    it returned or raised. *)
Fixpoint run_each (repositories : list RepoConfig) (settings : Settings)
    (copy_base_dir : option string) (op : operation) (w : World)
  : list (RepoConfig * outcome (bool * string)) * World :=
  match repositories with
  | [] => ([], w)
  | repo :: rest =>
      let '(r, w') := process_repo repo settings copy_base_dir op w in
      let '(rs, w'') := run_each rest settings copy_base_dir op w' in
      ((repo, r) :: rs, w'')
  end.

(** The outcome of an entry: its call returned [True], or it failed (it
    returned [False] or raised). *)
Definition entry_failed (c : RepoConfig * outcome (bool * string)) : bool :=
  match snd c with
  | Returned (true, _) => false
  | _ => true
  end.

Definition entry_result (c : RepoConfig * outcome (bool * string))
  : string * bool * string :=
  match snd c with
  | Returned (success, message) => (name (fst c), success, message)
  | Raised e =>
      (name (fst c), false,
       ("Exception processing " ++ name (fst c) ++ ": " ++ e)%string)
  end.

(** The calls of the batch with what each returned or raised, and the
    world the batch leaves: what the pool hands back when more than one
    job is asked for, and otherwise the calls of [process_repo] made one
    after the other. *)
Definition batch_calls (settings : Settings) (repositories : list RepoConfig)
    (parallel_jobs : Z) (copy_base_dir : option string) (op : operation) (w : World)
  : list (RepoConfig * outcome (bool * string)) * World :=
  if (1 <? parallel_jobs)%Z then run_pool repositories w
  else run_each repositories settings copy_base_dir op w.

(** [main] from line 421 on: the batch, the firmware-directory step and
    the counters the summary prints. *)
Definition main (settings : Settings) (repositories : list RepoConfig)
    (parallel_jobs : Z) (copy_base_dir : option string) (op : operation)
    (w : World) : Tally * World :=
  let '(t, w1) :=
    if (1 <? parallel_jobs)%Z then
      let '(completed, w') := run_pool repositories w in
      (as_completed_loop completed (mkTally 0 0 []), w')
    else sequential_loop repositories settings copy_base_dir op (mkTally 0 0 []) w in
  let '(fw_failed, w2) := firmware_dir_step settings copy_base_dir op w1 in
  (mkTally (successful t) (if fw_failed then S (failed t) else failed t) (results t), w2).

(** [sys.exit(1)] when [failed > 0]. *)
Definition exit_code (t : Tally) : nat :=
  if (0 <? failed t)%nat then 1 else 0.

(* ----------------------------------------------------------------- *)
(** *** Selecting the repositories and the start of [main] *)

(** A function that may end the process with [sys.exit(code)]. *)
Inductive exit_or (A : Type) :=
| Exit (code : nat)
| Continue (a : A).
Arguments Exit {A} code.
Arguments Continue {A} a.

(** A [dict] with string keys, in insertion order: [d[k] = v] and
    [d.get(k)]. *)
Fixpoint dict_set {V : Type} (d : list (string * V)) (k : string) (v : V)
  : list (string * V) :=
  match d with
  | [] => [(k, v)]
  | (k', v') :: rest =>
      if String.eqb k' k then (k', v) :: rest else (k', v') :: dict_set rest k v
  end.

Fixpoint dict_get {V : Type} (d : list (string * V)) (k : string) : option V :=
  match d with
  | [] => None
  | (k', v') :: rest => if String.eqb k' k then Some v' else dict_get rest k
  end.

(** [{repo['name']: repo for repo in repositories}] *)
Definition repo_map (repositories : list RepoConfig) : list (string * RepoConfig) :=
  fold_left (fun d repo => dict_set d (name repo) repo) repositories [].

(** The loop of lines 345-349: the repositories found and the names
    that are not configured. *)
Fixpoint select_requested (m : list (string * RepoConfig))
    (requested_names : list string) : list RepoConfig * list string :=
  match requested_names with
  | [] => ([], [])
  | n :: rest =>
      let '(filtered_repos, missing_repos) := select_requested m rest in
      match dict_get m n with
      | Some repo => (repo :: filtered_repos, missing_repos)
      | None => (filtered_repos, n :: missing_repos)
      end
  end.

Definition filter_repositories (repositories : list RepoConfig)
    (requested_names : list string) : exit_or (list RepoConfig) :=
  match requested_names with
  | [] => Continue repositories
  | _ :: _ =>
      let '(filtered_repos, missing_repos) :=
        select_requested (repo_map repositories) requested_names in
      match missing_repos with
      | [] => Continue filtered_repos
      | _ :: _ => Exit 1
      end
  end.

Record Args := mkArgs {
  arg_repositories : list string;
  arg_list : bool;
  arg_jobs : option Z;
  arg_copy_to : option string;
  arg_operation : operation
}.

Record Config := mkConfig {
  cfg_settings : Settings;
  cfg_parallel_jobs : option Z;          (* settings.get('parallel_jobs', 1) *)
  cfg_repositories : list RepoConfig     (* config.get('repositories', []) *)
}.

(** [main] from line 363 on, with the configuration loaded: the checks
    before the batch, then the batch ([main] above); the result is the
    status the process ends with. *)
Definition main_from_args (args : Args) (config : Config) (w : World) : nat * World :=
  let settings := cfg_settings config in
  match cfg_repositories config with
  | [] => (0, w)
  | _ :: _ =>
      if arg_list args then (0, w)
      else
        match filter_repositories (cfg_repositories config) (arg_repositories args) with
        | Exit code => (code, w)
        | Continue repositories =>
            let parallel_jobs :=
              match arg_jobs args with
              | Some jobs => jobs
              | None => or_default (cfg_parallel_jobs config) 1%Z
              end in
            let copy_base_dir := arg_copy_to args in
            let op := arg_operation args in
            if includes_copy op && negb (truthy copy_base_dir) then (1, w)
            else if includes_copy op && negb (check_rsync_available w) then (1, w)
            else
              match filter enabled repositories with
              | [] => (0, w)
              | repo :: rest =>
                  let '(t, w') :=
                    main settings (repo :: rest) parallel_jobs copy_base_dir op w in
                  (exit_code t, w')
              end
        end
  end.

End WithHost.

Arguments Exit {A} code.
Arguments Continue {A} a.

(** A small host used to exercise the definitions.  The world is the
    list of paths that exist; [valid] are the paths that hold a git
    repository; rsync is refused on the destinations [refused]; git calls
    succeed; the pool answers every call with success. *)
Definition toy_host (valid refused : list string) : Host (list string).
Proof.
  refine
    {| path_exists := fun p w => existsb (String.eqb p) w;
       path_join := fun a b => (a ++ "/" ++ b)%string;
       path_parent := fun a => (a ++ "/..")%string;
       mkdir_parents := fun p w => (None, p :: w);
       repo_open := fun p w =>
         if existsb (String.eqb p) valid then RepoOpened
         else if existsb (String.eqb p) w then InvalidGitRepositoryError
              else NoSuchPathError;
       clone_from := fun _ dest _ w => (GitOk tt, dest :: w);
       fetch := fun _ w => (GitOk tt, w);
       active_branch := fun _ _ => GitOk "main";
       checkout := fun _ _ w => (GitOk tt, w);
       pull := fun _ w => (GitOk tt, w);
       which_rsync := fun _ => true;
       subprocess_run := fun cmd w =>
         (if existsb (String.eqb (last cmd "")) refused
          then CalledProcessError "permission denied" else Completed, w);
       run_pool := fun repos w =>
         (map (fun repo => (repo, Returned (true, "done"))) repos, w);
       run_pool_complete := _ |}.
  intros repos w. simpl. rewrite map_map. simpl. rewrite map_id.
  apply Permutation_refl.
Defined.

Definition notes_repo : RepoConfig :=
  mkRepoConfig "notes" "https://example.org/notes.git" "main" "notes" true
    ["a"; "b"] None None.

Definition plain_settings : Settings := mkSettings None None None.

End SyncRepos.

(* ================================================================= *)
(** ** Facts about the string primitives *)

Section PyFacts.
Import Py.

Lemma all_chars_app (p : ascii -> bool) (s t : string) :
  all_chars p (s ++ t)%string = all_chars p s && all_chars p t.
Proof.
  induction s as [|c s IH]; simpl.
  - reflexivity.
  - rewrite IH. now rewrite andb_assoc.
Qed.

Lemma all_chars_weaken (p q : ascii -> bool) (s : string) :
  (forall c, p c = true -> q c = true) ->
  all_chars p s = true -> all_chars q s = true.
Proof.
  intros Hpq. induction s as [|c s IH]; simpl; [reflexivity|].
  rewrite !andb_true_iff. intros [Hc Hs]. split; auto.
Qed.

Lemma re_sub_outside_all (keep : ascii -> bool) (s : string) :
  all_chars keep (re_sub_outside keep s) = true.
Proof.
  induction s as [|c s IH]; simpl; [reflexivity|].
  destruct (keep c) eqn:Hc; simpl; [rewrite Hc|]; exact IH.
Qed.

Lemma re_sub_outside_preserves (keep q : ascii -> bool) (s : string) :
  all_chars q s = true -> all_chars q (re_sub_outside keep s) = true.
Proof.
  induction s as [|c s IH]; simpl; [reflexivity|].
  rewrite andb_true_iff. intros [Hc Hs].
  destruct (keep c); simpl; [rewrite Hc|]; auto.
Qed.

Lemma re_sub_outside_clean (keep : ascii -> bool) (s : string) :
  all_chars keep s = true -> re_sub_outside keep s = s.
Proof.
  induction s as [|c s IH]; simpl; [reflexivity|].
  rewrite andb_true_iff. intros [Hc Hs]. rewrite Hc, IH; auto.
Qed.

Lemma replace_absent (old : ascii) (new s : string) :
  all_chars (fun c => negb (Ascii.eqb c old)) s = true -> replace old new s = s.
Proof.
  induction s as [|c s IH]; simpl; [reflexivity|].
  rewrite andb_true_iff. intros [Hc Hs].
  apply negb_true_iff in Hc. rewrite Hc, IH; auto.
Qed.

Lemma replace_deletes (old : ascii) (s : string) :
  all_chars (fun c => negb (Ascii.eqb c old)) (replace old "" s) = true.
Proof.
  induction s as [|c s IH]; simpl; [reflexivity|].
  destruct (Ascii.eqb c old) eqn:Hc; simpl; [|rewrite Hc]; exact IH.
Qed.

Lemma replace_delete_preserves (old : ascii) (q : ascii -> bool) (s : string) :
  all_chars q s = true -> all_chars q (replace old "" s) = true.
Proof.
  induction s as [|c s IH]; simpl; [reflexivity|].
  rewrite andb_true_iff. intros [Hc Hs].
  destruct (Ascii.eqb c old); simpl; [|rewrite Hc]; auto.
Qed.

Lemma split_nonempty (sep : ascii) (s : string) : split sep s <> [].
Proof.
  destruct s as [|c s]; simpl; [discriminate|].
  destruct (Ascii.eqb c sep); [discriminate|].
  destruct (split sep s); discriminate.
Qed.

Lemma join_cons (sep p q : string) (qs : list string) :
  join sep (p :: q :: qs) = (p ++ sep ++ join sep (q :: qs))%string.
Proof. reflexivity. Qed.

(** The parts of [split] are the segments between separators: joining
    them gives the string back. *)
Lemma join_split (sep : ascii) (s : string) :
  join (String sep "") (split sep s) = s.
Proof.
  induction s as [|c s IH]; [reflexivity|].
  cbn [split]. destruct (split sep s) as [|p ps] eqn:Hs.
  - now apply split_nonempty in Hs.
  - destruct (Ascii.eqb c sep) eqn:Hc.
    + apply Ascii.eqb_eq in Hc. subst c.
      rewrite join_cons, IH. reflexivity.
    + destruct ps as [|q qs].
      * cbn [join] in *. now rewrite IH.
      * rewrite join_cons in *. rewrite <- IH. reflexivity.
Qed.

Lemma split_length_cons (sep c : ascii) (s : string) :
  List.length (split sep (String c s)) =
  (if Ascii.eqb c sep then 1 else 0) + List.length (split sep s).
Proof.
  simpl. destruct (Ascii.eqb c sep); [reflexivity|].
  destruct (split sep s) as [|p ps] eqn:Hs; [now apply split_nonempty in Hs|].
  reflexivity.
Qed.

Lemma split_length_pos (sep : ascii) (s : string) : 1 <= List.length (split sep s).
Proof.
  pose proof (split_nonempty sep s). destruct (split sep s); simpl; [congruence|lia].
Qed.

(** Stripping trailing separators never adds a segment. *)
Lemma split_rstrip_length (sep : ascii) (s : string) :
  List.length (split sep (rstrip sep s)) <= List.length (split sep s).
Proof.
  induction s as [|c s IH]; [simpl; lia|].
  cbn [rstrip]. destruct (rstrip sep s) as [|c' r] eqn:Hr.
  - pose proof (split_length_pos sep (String c s)) as Hpos.
    destruct (Ascii.eqb c sep) eqn:Hc.
    + change (List.length (split sep "")) with 1. lia.
    + rewrite (split_length_cons sep c s), (split_length_cons sep c "") in *.
      rewrite Hc in *. change (List.length (split sep "")) with 1. lia.
  - rewrite !split_length_cons. rewrite split_length_cons in IH. lia.
Qed.

Lemma index_from_end_spec {A : Type} (l : list A) (k : nat) :
  1 <= k <= List.length l ->
  index_from_end l k = nth_error l (List.length l - k).
Proof.
  intros [H1 H2]. unfold index_from_end.
  apply Nat.leb_le in H1, H2. now rewrite H1, H2.
Qed.

Lemma index_from_end_app {A : Type} (pre : list A) (a b c : A) :
  index_from_end (pre ++ [a; b; c]) 3 = Some a /\
  index_from_end (pre ++ [a; b; c]) 2 = Some b.
Proof.
  assert (Hlen : List.length (pre ++ [a; b; c]) = List.length pre + 3)
    by (rewrite length_app; reflexivity).
  rewrite !index_from_end_spec by lia. rewrite Hlen.
  rewrite !nth_error_app2 by lia.
  replace (List.length pre + 3 - 3 - List.length pre) with 0 by lia.
  replace (List.length pre + 3 - 2 - List.length pre) with 1 by lia.
  split; reflexivity.
Qed.

(** A list of at least three elements ends in three named elements. *)
Lemma last_three {A : Type} (l : list A) :
  3 <= List.length l ->
  exists pre a b c, l = pre ++ [a; b; c] /\ List.length l = List.length pre + 3.
Proof.
  induction l as [|x l IH]; simpl; [lia|].
  intros Hlen. destruct (Nat.eq_dec (List.length l) 2) as [E|E].
  - destruct l as [|b [|c [|d l]]]; simpl in E; try lia.
    exists [], x, b, c. split; reflexivity.
  - destruct IH as (pre & a & b & c & -> & Hl); [lia|].
    exists (x :: pre), a, b, c. split; [reflexivity|]. simpl.
    rewrite length_app. simpl. lia.
Qed.

End PyFacts.

(* ================================================================= *)
(** ** Catalog resolver and file names *)

Section CatalogResolver.
Import Py FirmwareDownloader.

Lemma existsb_false_iff {A : Type} (f : A -> bool) (l : list A) :
  existsb f l = false <-> forall x, In x l -> f x = false.
Proof.
  induction l as [|a l IH]; simpl.
  - split; [intros _ x []|reflexivity].
  - rewrite orb_false_iff, IH. split.
    + intros [Ha Hl] x [<-|Hx]; auto.
    + intros H. split; [apply H; now left|intros x Hx; apply H; now right].
Qed.

Lemma stable_test_iff (v : Version) :
  stable_test v = true <-> qualifies_as_stable v.
Proof.
  unfold stable_test, qualifies_as_stable, prerelease_free, label_contains.
  rewrite orb_true_iff, negb_true_iff, existsb_false_iff. reflexivity.
Qed.

Lemma stable_test_false_iff (v : Version) :
  stable_test v = false <-> ~ qualifies_as_stable v.
Proof.
  rewrite <- stable_test_iff. destruct (stable_test v); split; congruence.
Qed.

(** [find] as the [for ... if ...: return] loop reads: the element
    returned is the first one that passes the test. *)
Lemma find_first {A : Type} (f : A -> bool) (l : list A) (v : A) :
  find f l = Some v ->
  exists pre post, l = pre ++ v :: post /\ (forall u, In u pre -> f u = false)
                   /\ f v = true.
Proof.
  induction l as [|a l IH]; simpl; [discriminate|].
  destruct (f a) eqn:Ha.
  - intros [= ->]. exists [], l. repeat split; [intros u []|exact Ha].
  - intros Hfind. destruct (IH Hfind) as (pre & post & -> & Hpre & Hv).
    exists (a :: pre), post. repeat split; [|exact Hv].
    intros u [<-|Hu]; auto.
Qed.

(** C4 as the specification words it fails: the entry [stable_rc_entry]
    has a version free of pre-release markers (["1.9"]), and the
    [stable] selector returns ["2.0-stable-rc1"], whose label contains
    ["rc"]. *)
Lemma resolve_version_stable_returns_marked_label :
  (exists u, In u (fw_versions stable_rc_entry) /\ prerelease_free u) /\
  resolve_version stable_rc_entry "stable"
    = Single (mkVersion (Some "2.0-stable-rc1") "a.bin") /\
  str_in "rc" "2.0-stable-rc1" = true /\
  ~ prerelease_free (mkVersion (Some "2.0-stable-rc1") "a.bin").
Proof.
  split; [|split; [reflexivity|split; [reflexivity|]]].
  - exists (mkVersion (Some "1.9") "b.bin"). split; [simpl; auto|].
    intros x Hx. simpl in Hx.
    destruct Hx as [<-|[<-|[<-|[<-|[]]]]]; reflexivity.
  - intros H. specialize (H "rc"). simpl in H.
    assert (Hrc : label_contains "rc" (mkVersion (Some "2.0-stable-rc1") "a.bin") = false)
      by (apply H; auto).
    vm_compute in Hrc. discriminate.
Qed.

(** C4, amended: with the [stable] selector a non-empty version list
    yields the first version, in catalog order, whose lower-cased label
    contains ["stable"] or contains none of beta, alpha, rc, dev; when no
    version qualifies it yields the first version of the list.  Hence,
    when no label contains ["stable"], the version returned is free of
    the markers whenever such a version exists. *)
Theorem resolve_version_stable_first_qualifying
    (firmware : Firmware) (first : Version) (rest : list Version) :
  fw_versions firmware = first :: rest ->
  ((exists pre v post,
       fw_versions firmware = pre ++ v :: post
       /\ (forall u, In u pre -> ~ qualifies_as_stable u)
       /\ qualifies_as_stable v
       /\ resolve_version firmware "stable" = Single v)
   \/ ((forall u, In u (fw_versions firmware) -> ~ qualifies_as_stable u)
       /\ resolve_version firmware "stable" = Single first))
  /\ ((forall u, In u (fw_versions firmware) -> label_contains "stable" u = false) ->
      (exists u, In u (fw_versions firmware) /\ prerelease_free u) ->
      exists v, resolve_version firmware "stable" = Single v
                /\ In v (fw_versions firmware) /\ prerelease_free v).
Proof.
  intros Hvs.
  assert (Hres : resolve_version firmware "stable" =
                 match find stable_test (fw_versions firmware) with
                 | Some version => Single version
                 | None => Single first
                 end).
  { unfold resolve_version. rewrite Hvs. reflexivity. }
  split.
  - destruct (find stable_test (fw_versions firmware)) as [v|] eqn:Hfind.
    + left. destruct (find_first _ _ _ Hfind) as (pre & post & Hsplit & Hpre & Hv).
      exists pre, v, post. repeat split; auto.
      * intros u Hu. apply stable_test_false_iff. auto.
      * now apply stable_test_iff.
    + right. split; [|exact Hres].
      intros u Hu. apply stable_test_false_iff.
      exact (find_none _ _ Hfind u Hu).
  - intros Hno_stable (u & Hu & Hfree).
    destruct (find stable_test (fw_versions firmware)) as [v|] eqn:Hfind.
    + exists v. split; [exact Hres|].
      destruct (find_some _ _ Hfind) as [Hin Hv]. split; [exact Hin|].
      apply stable_test_iff in Hv. destruct Hv as [Hst|Hv]; [|exact Hv].
      rewrite (Hno_stable v Hin) in Hst. discriminate.
    + pose proof (find_none _ _ Hfind u Hu) as Hu'.
      apply stable_test_false_iff in Hu'. exfalso. apply Hu'. now right.
Qed.

Lemma resolve_version_stable_first_qualifying_witness :
  (exists pre v post,
      fw_versions stable_rc_entry = pre ++ v :: post
      /\ (forall u, In u pre -> ~ qualifies_as_stable u)
      /\ qualifies_as_stable v
      /\ resolve_version stable_rc_entry "stable" = Single v)
  \/ ((forall u, In u (fw_versions stable_rc_entry) -> ~ qualifies_as_stable u)
      /\ resolve_version stable_rc_entry "stable"
         = Single (mkVersion (Some "2.0-stable-rc1") "a.bin")).
Proof.
  apply (resolve_version_stable_first_qualifying stable_rc_entry
           (mkVersion (Some "2.0-stable-rc1") "a.bin")
           [mkVersion (Some "1.9") "b.bin"]).
  reflexivity.
Defined.

(** C6: on the label ["v1.0-dev"] the code deletes the [v] of ["dev"]
    as well as the leading one, where the specification keeps it. *)
Example clean_filename_deletes_every_v :
  clean_filename "Bruce" "v1.0-dev" "cardputer" = "cardputer_Bruce_1.0-de.bin"
  /\ spec_filename "Bruce" "v1.0-dev" "cardputer" = "cardputer_Bruce_1.0-dev.bin".
Proof. split; reflexivity. Qed.

Lemma name_class_no_space (c : ascii) :
  name_class c = true -> negb (Ascii.eqb c " ") = true.
Proof.
  destruct (Ascii.eqb c " ") eqn:Hc; [|reflexivity].
  apply Ascii.eqb_eq in Hc. subst c. vm_compute. discriminate.
Qed.

Lemma name_class_version_class (c : ascii) :
  name_class c = true -> version_class c = true.
Proof.
  unfold name_class, version_class. intros ->. reflexivity.
Qed.

Lemma clean_name_clean (s : string) :
  all_chars name_class s = true -> clean_name s = s.
Proof.
  intros Hs. unfold clean_name. rewrite replace_absent.
  - now apply re_sub_outside_clean.
  - exact (all_chars_weaken _ _ _ name_class_no_space Hs).
Qed.

Lemma clean_version_clean (s : string) :
  all_chars version_class s = true ->
  all_chars (fun c => negb (Ascii.eqb c "v")) s = true ->
  all_chars (fun c => negb (Ascii.eqb c "V")) s = true ->
  clean_version s = s.
Proof.
  intros Hs Hv HV. unfold clean_version.
  rewrite (replace_absent "v") by exact Hv.
  rewrite (replace_absent "V") by exact HV.
  now apply re_sub_outside_clean.
Qed.

(** C7: the three cleaned components pass through the construction
    unchanged, so rebuilding the file name from them gives the same file
    name; and the file name built from any input has only word
    characters, hyphens, underscores and dots. *)
Theorem clean_filename_idempotent (name version device : string) :
  clean_name (clean_name name) = clean_name name
  /\ clean_version (clean_version version) = clean_version version
  /\ clean_device (clean_device device) = clean_device device
  /\ clean_filename (clean_name name) (clean_version version) (clean_device device)
     = clean_filename name version device
  /\ all_chars version_class (clean_filename name version device) = true.
Proof.
  assert (Hn : forall s, clean_name (clean_name s) = clean_name s).
  { intros s. apply clean_name_clean. apply re_sub_outside_all. }
  assert (Hv : clean_version (clean_version version) = clean_version version).
  { apply clean_version_clean; unfold clean_version.
    - apply re_sub_outside_all.
    - apply re_sub_outside_preserves, replace_delete_preserves, replace_deletes.
    - apply re_sub_outside_preserves, replace_deletes. }
  assert (Hclass : forall s, all_chars version_class (clean_name s) = true).
  { intros s. apply (all_chars_weaken name_class); [exact name_class_version_class|].
    apply re_sub_outside_all. }
  repeat split.
  - apply Hn.
  - exact Hv.
  - apply Hn.
  - unfold clean_filename. change (clean_device (clean_device device))
      with (clean_name (clean_name device)).
    now rewrite Hv, !Hn.
  - unfold clean_filename. rewrite !all_chars_app.
    change (clean_device device) with (clean_name device).
    rewrite !Hclass. unfold clean_version at 1. rewrite re_sub_outside_all.
    reflexivity.
Qed.

End CatalogResolver.

(* ================================================================= *)
(** ** GitHub release matcher *)

Section ReleaseMatcher.
Import Py FirmwareDownloader.
Variable env : Env.

Lemma parse_github_releases_url_accepts (url api : string) :
  parse_github_releases_url url = Some api ->
  exists pre owner repo last,
    split "/" (rstrip "/" url) = pre ++ [owner; repo; last]
    /\ 2 <= List.length pre
    /\ api = ("https://api.github.com/repos/" ++ owner ++ "/" ++ repo
                ++ "/releases/latest")%string.
Proof.
  unfold parse_github_releases_url.
  destruct (str_in "github.com" url); simpl; [|discriminate].
  destruct (List.length (split "/" (rstrip "/" url)) <? 5)%nat eqn:Hlen; [discriminate|].
  apply Nat.ltb_ge in Hlen.
  destruct (last_three (split "/" (rstrip "/" url))) as (pre & a & b & c & Hsplit & Hl);
    [lia|].
  rewrite Hsplit. destruct (index_from_end_app pre a b c) as [-> ->].
  intros [= <-]. exists pre, a, b, c. repeat split. lia.
Qed.

Lemma parse_github_releases_url_short (url : string) :
  List.length (split "/" url) < 5 \/ List.length (split "/" (rstrip "/" url)) < 5 ->
  parse_github_releases_url url = None.
Proof.
  intros H.
  assert (Hlen : List.length (split "/" (rstrip "/" url)) < 5).
  { destruct H as [H|H]; [|exact H].
    pose proof (split_rstrip_length "/" url). lia. }
  unfold parse_github_releases_url.
  destruct (negb (str_in "github.com" url)); [reflexivity|].
  apply Nat.ltb_lt in Hlen. now rewrite Hlen.
Qed.

Lemma download_asset_spec (settings : Settings) (target_dir : string)
    (asset : Asset) (n : nat) (w : World) :
  download_asset env settings target_dir asset n w =
  (Returned (if asset_obtained env settings target_dir asset w then S n else n),
   snd (download_asset env settings target_dir asset 0 w)).
Proof.
  cbv beta iota zeta delta
    [download_asset asset_obtained skipped streams bind path_exists stream_to
     clock log_request ret write_file unlink].
  destruct (String.eqb (browser_download_url asset) ""); simpl; [reflexivity|].
  destruct (existsb (String.eqb (path_join target_dir (a_name asset))) (files w)
            && negb (overwrite_existing settings)); simpl; [reflexivity|].
  destruct (stream_response env (List.length (requests w)) (browser_download_url asset))
    as [|e opened|e opened]; simpl; [reflexivity| |];
    destruct opened; simpl;
    match goal with
    | |- context [if ?b then _ else _] => destruct b; reflexivity
    end.
Qed.

Lemma download_assets_world (settings : Settings) (target_dir : string)
    (assets : list Asset) (n m : nat) (w : World) :
  snd (download_assets env settings target_dir assets n w)
  = snd (download_assets env settings target_dir assets m w).
Proof.
  revert n m w. induction assets as [|a assets IH]; intros n m w; simpl.
  - reflexivity.
  - unfold bind. rewrite (download_asset_spec _ _ _ n), (download_asset_spec _ _ _ m).
    apply IH.
Qed.

(** The counter of the asset loop grows exactly when some asset of the
    list is obtained in the world the loop has reached by then. *)
Lemma download_assets_count (settings : Settings) (target_dir : string)
    (assets : list Asset) (n : nat) (w : World) :
  exists m w',
    download_assets env settings target_dir assets n w = (Returned m, w')
    /\ n <= m
    /\ (n < m <->
        exists pre asset post,
          assets = pre ++ asset :: post
          /\ asset_obtained env settings target_dir asset
               (world_after_assets env settings target_dir pre w) = true).
Proof.
  revert n w. induction assets as [|a assets IH]; intros n w.
  - exists n, w. repeat split; try lia.
    intros (pre & asset & post & H & _). now destruct pre.
  - cbn [download_assets]. unfold bind at 1. rewrite download_asset_spec.
    set (w1 := snd (download_asset env settings target_dir a 0 w)).
    destruct (IH (if asset_obtained env settings target_dir a w then S n else n) w1)
      as (m & w' & Hrun & Hle & Hiff).
    exists m, w'. split; [exact Hrun|].
    assert (Hworld : forall pre,
               world_after_assets env settings target_dir (a :: pre) w
               = world_after_assets env settings target_dir pre w1).
    { intros pre. unfold world_after_assets. cbn [download_assets].
      unfold bind at 1. rewrite download_asset_spec. fold w1.
      apply download_assets_world. }
    destruct (asset_obtained env settings target_dir a w) eqn:Ha.
    + split; [lia|]. split; [|lia]. intros _.
      exists [], a, assets. split; [reflexivity|exact Ha].
    + split; [lia|]. rewrite Hiff. split.
      * intros (pre & asset & post & -> & Hobt).
        exists (a :: pre), asset, post. split; [reflexivity|].
        now rewrite Hworld.
      * intros (pre & asset & post & Hsplit & Hobt).
        destruct pre as [|a' pre]; simpl in Hsplit; injection Hsplit as <- ->.
        -- unfold world_after_assets in Hobt. simpl in Hobt. congruence.
        -- exists pre, asset, post. split; [reflexivity|].
           now rewrite <- Hworld.
Qed.

Lemma msg_no_assets_no_match (file_pattern name : string) :
  msg_no_assets name <> msg_no_match file_pattern name.
Proof.
  unfold msg_no_assets, msg_no_match. simpl. intros H.
  repeat match type of H with String _ _ = String _ _ => injection H as _ H end.
  discriminate.
Qed.

(** Every path through [download_github_release_assets]: what it returns,
    when that is [True], and what the two empty cases print. *)
Lemma download_github_release_assets_cases
    (settings : Settings) (github_config : GithubConfig) (w : World) :
  exists b w',
    download_github_release_assets env settings github_config w = (Returned b, w')
    /\ (b = true <->
        exists api release pre asset post,
          parse_github_releases_url (g_releases_url github_config) = Some api
          /\ release_response env (List.length (requests w)) api = JsonBody release
          /\ mkdir_error env (path_join (output_base_dir settings) (g_name github_config))
             = None
          /\ matching_assets_of env (file_pattern_of github_config) (r_assets release)
             = pre ++ asset :: post
          /\ asset_obtained env settings
               (path_join (output_base_dir settings) (g_name github_config)) asset
               (world_after_assets env settings
                  (path_join (output_base_dir settings) (g_name github_config)) pre
                  (requested api w)) = true)
    /\ (forall api release,
          parse_github_releases_url (g_releases_url github_config) = Some api ->
          release_response env (List.length (requests w)) api = JsonBody release ->
          (r_assets release = [] ->
           b = false
           /\ stdout w' = stdout w ++ [msg_no_assets (g_name github_config)])
          /\ (r_assets release <> [] ->
              matching_assets_of env (file_pattern_of github_config) (r_assets release)
              = [] ->
              b = false
              /\ stdout w' = stdout w ++ [msg_no_match (file_pattern_of github_config)
                                            (g_name github_config)]))
    /\ msg_no_assets (g_name github_config)
       <> msg_no_match (file_pattern_of github_config) (g_name github_config).
Proof.
  set (target_dir := path_join (output_base_dir settings) (g_name github_config)).
  assert (Hmsg := msg_no_assets_no_match (file_pattern_of github_config)
                    (g_name github_config)).
  unfold download_github_release_assets.
  destruct (parse_github_releases_url (g_releases_url github_config)) as [api|] eqn:Hparse.
  2:{ eexists _, _. split; [reflexivity|]. split; [|split; [|exact Hmsg]].
      - split; [discriminate|]. intros (a & r & _ & _ & _ & H & _). discriminate.
      - intros a r H. discriminate. }
  cbv beta iota zeta delta [try_except bind clock log_request].
  fold (requested api w).
  destruct (release_response env (List.length (requests w)) api)
    as [release|e|e] eqn:Hresp.
  2,3: (eexists _, _; split; [reflexivity|]; split; [|split; [|exact Hmsg]];
        [ split; [discriminate|];
          intros (a & r & _ & _ & _ & [= <-] & H & _); congruence
        | intros a r [= <-] H; congruence ]).
  destruct (r_assets release) as [|a0 assets] eqn:Hassets.
  { eexists _, _. split; [reflexivity|]. split; [|split; [|exact Hmsg]].
    - split; [discriminate|].
      intros (a & r & pre & asset & post & [= <-] & Hr & _ & Hm & _).
      rewrite Hresp in Hr. injection Hr as <-.
      rewrite Hassets in Hm. now destruct pre.
    - intros a r [= <-] Hr. rewrite Hresp in Hr. injection Hr as <-.
      rewrite Hassets. split; [|congruence].
      intros _. split; reflexivity. }
  destruct (matching_assets_of env (file_pattern_of github_config) (a0 :: assets))
    as [|m0 matching] eqn:Hmatch.
  { eexists _, _. split; [reflexivity|]. split; [|split; [|exact Hmsg]].
    - split; [discriminate|].
      intros (a & r & pre & asset & post & [= <-] & Hr & _ & Hm & _).
      rewrite Hresp in Hr. injection Hr as <-.
      rewrite Hassets, Hmatch in Hm. now destruct pre.
    - intros a r [= <-] Hr. rewrite Hresp in Hr. injection Hr as <-.
      rewrite Hassets, Hmatch. split; [discriminate|].
      intros _ _. split; reflexivity. }
  fold target_dir. unfold mkdir.
  destruct (mkdir_error env target_dir) as [text|] eqn:Hmkdir.
  { eexists _, _. split; [reflexivity|]. split; [|split; [|exact Hmsg]].
    - split; [discriminate|].
      intros (a & r & _ & _ & _ & _ & _ & H & _). fold target_dir in H. congruence.
    - intros a r [= <-] Hr. rewrite Hresp in Hr. injection Hr as <-.
      rewrite Hassets, Hmatch. split; [discriminate|]. intros _ [=]. }
  destruct (download_assets_count settings target_dir (m0 :: matching) 0
              (requested api w)) as (m & w' & Hrun & _ & Hiff).
  cbv beta iota zeta delta [ret]. rewrite Hrun.
  exists (0 <? m)%nat, w'. split; [reflexivity|]. split; [|split; [|exact Hmsg]].
  - rewrite Nat.ltb_lt, Hiff. split.
    + intros (pre & asset & post & Hsplit & Hobt).
      exists api, release, pre, asset, post. rewrite Hassets, Hmatch. auto.
    + intros (a & r & pre & asset & post & [= <-] & Hr & _ & Hm & Hobt).
      rewrite Hresp in Hr. injection Hr as <-.
      rewrite Hassets, Hmatch in Hm. eauto.
  - intros a r [= <-] Hr. rewrite Hresp in Hr. injection Hr as <-.
    rewrite Hassets, Hmatch. split; [discriminate|]. intros _ [=].
Qed.

Lemma download_github_release_assets_returns
    (settings : Settings) (github_config : GithubConfig) (w : World) :
  exists b w',
    download_github_release_assets env settings github_config w = (Returned b, w').
Proof.
  destruct (download_github_release_assets_cases settings github_config w)
    as (b & w' & Hrun & _).
  now exists b, w'.
Qed.

(** C9: the call always returns, and it returns [True] exactly when,
    the URL being accepted, the release metadata fetched and the target
    directory created, one of the assets matching the pattern is
    downloaded or skipped successfully.  A release without assets and a
    release none of whose assets matches both return [False], each with a
    message of its own. *)
Theorem download_github_release_assets_success_iff
    (settings : Settings) (github_config : GithubConfig) (w : World) :
  exists b w',
    download_github_release_assets env settings github_config w = (Returned b, w')
    /\ (b = true <->
        exists api release pre asset post,
          parse_github_releases_url (g_releases_url github_config) = Some api
          /\ release_response env (List.length (requests w)) api = JsonBody release
          /\ mkdir_error env (path_join (output_base_dir settings) (g_name github_config))
             = None
          /\ matching_assets_of env (file_pattern_of github_config) (r_assets release)
             = pre ++ asset :: post
          /\ asset_obtained env settings
               (path_join (output_base_dir settings) (g_name github_config)) asset
               (world_after_assets env settings
                  (path_join (output_base_dir settings) (g_name github_config)) pre
                  (requested api w)) = true)
    /\ (forall api release,
          parse_github_releases_url (g_releases_url github_config) = Some api ->
          release_response env (List.length (requests w)) api = JsonBody release ->
          (r_assets release = [] ->
           b = false
           /\ stdout w' = stdout w ++ [msg_no_assets (g_name github_config)])
          /\ (r_assets release <> [] ->
              matching_assets_of env (file_pattern_of github_config) (r_assets release)
              = [] ->
              b = false
              /\ stdout w' = stdout w ++ [msg_no_match (file_pattern_of github_config)
                                            (g_name github_config)]))
    /\ msg_no_assets (g_name github_config)
       <> msg_no_match (file_pattern_of github_config) (g_name github_config).
Proof.
  destruct (download_github_release_assets_cases settings github_config w)
    as (b & w' & Hrun & Hiff & Hcases & Hmsg).
  exists b, w'. split; [exact Hrun|]. split; [exact Hiff|].
  split; [exact Hcases|exact Hmsg].
Qed.

(** C5: the releases page of [owner/repo] translates to the latest
    release endpoint of [owner/repo]; a URL of fewer than five segments
    (before or after its trailing slashes are dropped) or without the host
    marker translates to nothing, and every other URL is accepted; an
    accepted URL ends in the segments [owner], [repo] and one more, and
    the endpoint is built from these two; a rejected URL makes the
    download call return [False] without a request and without touching a
    file. *)
Theorem parse_github_releases_url_translation :
  parse_github_releases_url "https://github.com/owner/repo/releases"
  = Some "https://api.github.com/repos/owner/repo/releases/latest"
  /\ (forall url,
        List.length (split "/" url) < 5
        \/ List.length (split "/" (rstrip "/" url)) < 5
        \/ str_in "github.com" url = false ->
        parse_github_releases_url url = None)
  /\ (forall url,
        str_in "github.com" url = true ->
        5 <= List.length (split "/" (rstrip "/" url)) ->
        exists api, parse_github_releases_url url = Some api)
  /\ (forall url api,
        parse_github_releases_url url = Some api ->
        exists pre owner repo last,
          split "/" (rstrip "/" url) = pre ++ [owner; repo; last]
          /\ 2 <= List.length pre
          /\ api = ("https://api.github.com/repos/" ++ owner ++ "/" ++ repo
                      ++ "/releases/latest")%string)
  /\ (forall settings github_config w,
        parse_github_releases_url (g_releases_url github_config) = None ->
        exists w',
          download_github_release_assets env settings github_config w
          = (Returned false, w')
          /\ requests w' = requests w /\ files w' = files w).
Proof.
  split; [reflexivity|]. split; [|split; [|split]].
  - intros url [H|[H|H]].
    + apply parse_github_releases_url_short. now left.
    + apply parse_github_releases_url_short. now right.
    + unfold parse_github_releases_url. now rewrite H.
  - intros url Hmarker Hlen. unfold parse_github_releases_url. rewrite Hmarker.
    simpl negb. cbv iota.
    assert (Hlt : (List.length (split "/" (rstrip "/" url)) <? 5)%nat = false)
      by (apply Nat.ltb_ge; exact Hlen).
    rewrite Hlt.
    destruct (last_three (split "/" (rstrip "/" url))) as (pre & a & b & c & Hs & _);
      [lia|].
    rewrite Hs. destruct (index_from_end_app pre a b c) as [-> ->]. eauto.
  - exact parse_github_releases_url_accepts.
  - intros settings github_config w Hparse.
    unfold download_github_release_assets. rewrite Hparse.
    eexists. split; [reflexivity|]. split; reflexivity.
Qed.

End ReleaseMatcher.

Section ReleaseMatcherRuns.
Import Py FirmwareDownloader.

Lemma parse_github_releases_url_translation_witness :
  parse_github_releases_url "https://github.com/owner" = None.
Proof.
  apply (proj1 (proj2 (parse_github_releases_url_translation (example_env EmptyString)))).
  left. vm_compute. lia.
Defined.

Lemma download_github_release_assets_success_iff_witness :
  exists b w',
    download_github_release_assets bare_release_env example_settings marauder empty_world
    = (Returned b, w')
    /\ b = false
    /\ stdout w' = ["✗ No assets found in latest release of marauder"].
Proof.
  destruct (download_github_release_assets_success_iff bare_release_env
              example_settings marauder empty_world)
    as (b & w' & Hrun & _ & Hcases & _).
  exists b, w'. split; [exact Hrun|].
  exact (proj1 (Hcases
                  "https://api.github.com/repos/justcallmekoko/ESP32Marauder/releases/latest"
                  (mkRelease []) eq_refl eq_refl) eq_refl).
Defined.

End ReleaseMatcherRuns.

(* ================================================================= *)
(** ** Catalog downloads: the fan-out over all versions *)

Section AllVersions.
Import Py FirmwareDownloader.
Variable env : Env.
Variables (firmware : Firmware) (settings : Settings).
Variables (name device device_key : string).
Hypothesis firmware_named : fw_name firmware = Some name.
Hypothesis directory_created :
  mkdir_error env (path_join (output_base_dir settings) device_key) = None.

Lemma download_single_version_spec (version_data : Version) (w : World) :
  download_single_version env firmware version_data device device_key settings w =
  (Returned (version_obtained env settings name device device_key version_data w),
   snd (download_single_version env firmware version_data device device_key settings w)).
Proof.
  cbv beta iota zeta delta
    [download_single_version version_obtained skipped streams bind path_exists
     stream_to clock log_request ret write_file unlink mkdir].
  rewrite firmware_named, directory_created.
  destruct (String.eqb (v_file version_data) ""); simpl; [reflexivity|].
  match goal with
  | |- context [existsb ?f (files w) && ?o] => destruct (existsb f (files w) && o)
  end; simpl; [reflexivity|].
  match goal with
  | |- context [stream_response env ?t ?u] =>
      destruct (stream_response env t u) as [|e opened|e opened]
  end; simpl; [reflexivity| |];
    destruct opened; simpl;
    match goal with
    | |- context [if ?b then _ else _] => destruct b; reflexivity
    end.
Qed.

Lemma download_versions_world (versions : list Version) (n m : nat) (w : World) :
  snd (download_versions env firmware versions device device_key settings n w)
  = snd (download_versions env firmware versions device device_key settings m w).
Proof.
  revert n m w. induction versions as [|v versions IH]; intros n m w; simpl.
  - reflexivity.
  - unfold bind. rewrite download_single_version_spec. apply IH.
Qed.

(** The counter of the version loop grows exactly when some version of
    the list is obtained in the world the loop has reached by then. *)
Lemma download_versions_count (versions : list Version) (n : nat) (w : World) :
  exists m w',
    download_versions env firmware versions device device_key settings n w
    = (Returned m, w')
    /\ n <= m
    /\ (n < m <->
        exists pre v post,
          versions = pre ++ v :: post
          /\ version_obtained env settings name device device_key v
               (world_after_versions env firmware settings device device_key pre w)
             = true).
Proof.
  revert n w. induction versions as [|v0 versions IH]; intros n w.
  - exists n, w. repeat split; try lia.
    intros (pre & v & post & H & _). now destruct pre.
  - cbn [download_versions]. unfold bind at 1. rewrite download_single_version_spec.
    set (w1 := snd (download_single_version env firmware v0 device device_key settings w)).
    destruct (IH (if version_obtained env settings name device device_key v0 w
                  then S n else n) w1) as (m & w' & Hrun & Hle & Hiff).
    exists m, w'. split; [exact Hrun|].
    assert (Hworld : forall pre,
               world_after_versions env firmware settings device device_key (v0 :: pre) w
               = world_after_versions env firmware settings device device_key pre w1).
    { intros pre. unfold world_after_versions. cbn [download_versions].
      unfold bind at 1. rewrite download_single_version_spec. fold w1.
      apply download_versions_world. }
    destruct (version_obtained env settings name device device_key v0 w) eqn:Hv0.
    + split; [lia|]. split; [|lia]. intros _.
      exists [], v0, versions. split; [reflexivity|exact Hv0].
    + split; [lia|]. rewrite Hiff. split.
      * intros (pre & v & post & -> & Hobt).
        exists (v0 :: pre), v, post. split; [reflexivity|]. now rewrite Hworld.
      * intros (pre & v & post & Hsplit & Hobt).
        destruct pre as [|v' pre]; simpl in Hsplit; injection Hsplit as <- ->.
        -- unfold world_after_versions in Hobt. simpl in Hobt. congruence.
        -- exists pre, v, post. split; [reflexivity|]. now rewrite <- Hworld.
Qed.

End AllVersions.

Section AllVersionsEntry.
Import Py FirmwareDownloader.

(** C10 as the specification words it fails: an entry with selector
    ["all"] over two catalog versions, and a device directory that cannot
    be created.  No version is downloaded (nothing is requested but the
    catalog, no file is written), yet the entry is not recorded as failed:
    the exception of the first per-version call leaves [download_firmware],
    the catalog loop and [main], and no outcome is recorded at all. *)
Lemma all_versions_directory_refused_no_outcome :
  resolve_version
    (mkFirmware "cardputer" (Some "Bruce") "pr3y"
       [mkVersion (Some "v1.1") "new.bin"; mkVersion (Some "v1.0") "old.bin"])
    (fc_version bruce_all)
  = Many [mkVersion (Some "v1.1") "new.bin"; mkVersion (Some "v1.0") "old.bin"]
  /\ download_firmware (example_env "firmware/cardputer") example_settings bruce_all
       empty_world
     = (Raised (Exception "PermissionError"),
        mkWorld [] [api_url] [] (Some example_catalog))
  /\ fst (m5_loop (example_env "firmware/cardputer") example_settings [bruce_all] [] []
            empty_world)
     = Raised (Exception "PermissionError")
  /\ fst (main (example_env "firmware/cardputer") (mkArgs false false false)
            example_settings [bruce_all] [] empty_world)
     = Raised (Exception "PermissionError").
Proof. repeat split. Qed.

(** C10, amended: for an entry with selector ["all"] that is found in the
    catalog, when the per-version calls return (the catalog entry has its
    name and the device directory can be created), the one outcome recorded
    for the entry is success exactly when one of its versions is downloaded
    or skipped successfully; when every version fails, the entry is
    recorded as failed. *)
Theorem download_firmware_all_versions
    (env : Env) (settings : Settings) (firmware_config : FirmwareConfig)
    (firmware : Firmware) (name : string) (data : list Firmware) (w w0 : World) :
  fc_version firmware_config = "all" ->
  fetch_firmware_data env w = (Returned data, w0) ->
  find_firmware_by_name data (fc_device firmware_config) (fc_name firmware_config)
  = Some firmware ->
  fw_name firmware = Some name ->
  mkdir_error env (path_join (output_base_dir settings) (fc_device_key firmware_config))
  = None ->
  exists b w',
    download_firmware env settings firmware_config w = (Returned b, w')
    /\ (b = true <->
        exists pre v post,
          fw_versions firmware = pre ++ v :: post
          /\ version_obtained env settings name (fc_device firmware_config)
               (fc_device_key firmware_config) v
               (world_after_versions env firmware settings (fc_device firmware_config)
                  (fc_device_key firmware_config) pre w0) = true)
    /\ ((forall pre v post,
           fw_versions firmware = pre ++ v :: post ->
           version_obtained env settings name (fc_device firmware_config)
             (fc_device_key firmware_config) v
             (world_after_versions env firmware settings (fc_device firmware_config)
                (fc_device_key firmware_config) pre w0) = false) ->
        b = false)
    /\ m5_loop env settings [firmware_config] [] [] w
       = (Returned
            (if b then ([fc_label firmware_config], [])
             else ([], [fc_label firmware_config])),
          w').
Proof.
  intros Hall Hfetch Hfind Hname Hmkdir.
  assert (Hloop : forall b w',
             download_firmware env settings firmware_config w = (Returned b, w') ->
             m5_loop env settings [firmware_config] [] [] w
             = (Returned
                  (if b then ([fc_label firmware_config], [])
                   else ([], [fc_label firmware_config])),
                w')).
  { intros b w' Hrun. cbn [m5_loop]. unfold bind at 1. rewrite Hrun.
    destruct b; reflexivity. }
  assert (Hstep : download_firmware env settings firmware_config w =
                  match resolve_version firmware "all" with
                  | Many version_data =>
                      bind (download_versions env firmware version_data
                              (fc_device firmware_config)
                              (fc_device_key firmware_config) settings 0)
                           (fun success_count => ret (0 <? success_count)%nat) w0
                  | _ =>
                      bind (print ("✗ Version 'all' not found for firmware '"
                                     ++ fc_name firmware_config ++ "'"))
                           (fun _ => ret false) w0
                  end).
  { unfold download_firmware. unfold bind at 1. rewrite Hfetch, Hfind, Hall.
    unfold resolve_version. destruct (fw_versions firmware); reflexivity. }
  assert (Hres : resolve_version firmware "all" =
                 match fw_versions firmware with
                 | [] => NotFound
                 | _ :: _ => Many (fw_versions firmware)
                 end).
  { unfold resolve_version. destruct (fw_versions firmware); reflexivity. }
  rewrite Hres in Hstep.
  destruct (fw_versions firmware) as [|v0 versions] eqn:Hversions;
    cbv beta iota in Hstep.
  - eexists _, _. split; [exact Hstep|].
    split; [|split; [reflexivity|apply (Hloop false); exact Hstep]].
    split; [discriminate|]. intros (pre & v & post & H & _). now destruct pre.
  - destruct (download_versions_count env firmware settings name
                (fc_device firmware_config) (fc_device_key firmware_config)
                Hname Hmkdir (v0 :: versions) 0 w0) as (m & w' & Hrun & _ & Hiff).
    unfold bind in Hstep. rewrite Hrun in Hstep. unfold ret in Hstep.
    exists (0 <? m)%nat, w'. split; [exact Hstep|].
    split; [|split; [|apply Hloop; exact Hstep]].
    + rewrite Nat.ltb_lt. exact Hiff.
    + intros Hnone. apply Nat.ltb_ge.
      destruct (Nat.eq_dec m 0) as [->|Hm]; [lia|].
      assert (Hpos : 0 < m) by lia. apply Hiff in Hpos.
      destruct Hpos as (pre & v & post & Hsplit & Hobt).
      rewrite (Hnone pre v post Hsplit) in Hobt. discriminate.
Qed.

Lemma download_firmware_all_versions_witness :
  exists b w',
    download_firmware (example_env "") example_settings bruce_all empty_world
    = (Returned b, w')
    /\ b = true.
Proof.
  destruct (download_firmware_all_versions (example_env "") example_settings bruce_all
              (mkFirmware "cardputer" (Some "Bruce") "pr3y"
                 [mkVersion (Some "v1.1") "new.bin"; mkVersion (Some "v1.0") "old.bin"])
              "Bruce" example_catalog empty_world
              (mkWorld [] [api_url] [] (Some example_catalog))
              eq_refl eq_refl eq_refl eq_refl eq_refl)
    as (b & w' & Hrun & Hiff & _).
  exists b, w'. split; [exact Hrun|].
  apply Hiff. exists [], (mkVersion (Some "v1.1") "new.bin"),
    [mkVersion (Some "v1.0") "old.bin"].
  split; reflexivity.
Defined.

End AllVersionsEntry.

(* ================================================================= *)
(** ** Repository sync and file mirror *)

Section RepositorySync.
Import Py SyncRepos.
Context {World : Type} {host : Host World}.

(** C8: an enabled entry whose destination exists and is not a valid git
    repository fails the sync with the message of line 213, in the
    sequential loop as well, and the world (the directory with it) is
    left as it was: no collaborator that writes has been called. *)
Theorem process_repo_refuses_non_repository
    (repo_config : RepoConfig) (settings : Settings) (copy_base_dir : option string)
    (op : operation) (t : Tally) (w : World) :
  enabled repo_config = true ->
  includes_sync op = true ->
  path_exists (dest_dir repo_config) w = true ->
  repo_open (dest_dir repo_config) w = InvalidGitRepositoryError ->
  process_repo repo_config settings copy_base_dir op w
  = (Returned (false, msg_not_a_repo (dest_dir repo_config)), w)
  /\ sequential_loop [repo_config] settings copy_base_dir op t w
     = (mkTally (successful t) (S (failed t))
          (results t ++ [(name repo_config, false,
                          msg_not_a_repo (dest_dir repo_config))]), w).
Proof.
  intros Henabled Hsync Hexists Hrepo.
  assert (Hrun : process_repo repo_config settings copy_base_dir op w
                 = (Returned (false, msg_not_a_repo (dest_dir repo_config)), w)).
  { unfold process_repo. rewrite Henabled. cbn [negb].
    unfold bind, git_stage, is_git_repo. rewrite Hsync, Hexists, Hrepo.
    reflexivity. }
  split; [exact Hrun|].
  cbn [sequential_loop]. rewrite Hrun. reflexivity.
Qed.

Lemma validate_sources_spec (repo_path : string) (copy_everything : bool)
    (sources : list string) (w : World) :
  (match snd (validate_sources repo_path copy_everything sources w) with
   | [] => true
   | _ :: _ => false
   end) = forallb (fun f => path_exists (path_join repo_path f) w) sources
  /\ (match fst (validate_sources repo_path copy_everything sources w) with
      | [] => true
      | _ :: _ => false
      end) = forallb (fun f => negb (path_exists (path_join repo_path f) w)) sources.
Proof.
  induction sources as [|f sources [IHm IHv]]; simpl; [split; reflexivity|].
  destruct (validate_sources repo_path copy_everything sources w) as [valid missing].
  simpl in IHm, IHv.
  destruct (path_exists (path_join repo_path f) w); simpl; auto.
Qed.

(** C2, amended: with a destination given and rsync installed, the call
    reports failure without running anything when none of the configured
    sources exists; otherwise, once the destination directory is created,
    it runs one command over the existing sources, and then a clean exit
    gives a success flag that is true exactly when no configured source
    is missing, while a failed external call gives a failure. *)
Theorem rsync_files_flag
    (repo_config : RepoConfig) (settings : Settings) (copy_base_dir : option string)
    (w : World) :
  truthy copy_base_dir = true ->
  check_rsync_available w = true ->
  ((forall f, In f (configured_sources repo_config) ->
              source_exists repo_config w f = false) ->
   rsync_files repo_config settings copy_base_dir w
   = (Returned (false, "No valid source paths found"), w))
  /\ ((exists f, In f (configured_sources repo_config)
                 /\ source_exists repo_config w f = true) ->
      forall w1,
        mkdir_parents (path_join (or_default copy_base_dir "") (name repo_config)) w
        = (None, w1) ->
        existing_sources repo_config w <> []
        /\ match subprocess_run
                   (rsync_cmd repo_config settings copy_base_dir
                      (existing_sources repo_config w)) w1 with
           | (Completed, w2) =>
               rsync_files repo_config settings copy_base_dir w
               = (Returned (forallb (source_exists repo_config w)
                              (configured_sources repo_config),
                            success_msg (existing_sources repo_config w)
                              (missing_sources_of repo_config w)), w2)
           | (CalledProcessError stderr, w2) =>
               rsync_files repo_config settings copy_base_dir w
               = (Returned (false, ("rsync failed: " ++ stderr)%string), w2)
           | (RunException e, w2) =>
               rsync_files repo_config settings copy_base_dir w
               = (Returned (false, ("Unexpected error during rsync: " ++ e)%string), w2)
           end).
Proof.
  intros Hdest Hrsync.
  set (everything := match copy_files repo_config with [] => true | _ :: _ => false end).
  assert (Hsources :
            (if everything then ["./"] else copy_files repo_config)
            = configured_sources repo_config).
  { unfold everything, configured_sources. now destruct (copy_files repo_config). }
  destruct (validate_sources_spec (dest_dir repo_config) everything
              (configured_sources repo_config) w) as [Hmissing Hvalid].
  unfold rsync_files, existing_sources, missing_sources_of.
  rewrite Hdest, Hrsync. cbn [negb]. cbv zeta.
  fold everything. rewrite Hsources.
  destruct (validate_sources (dest_dir repo_config) everything
              (configured_sources repo_config) w) as [valid missing].
  cbn [fst snd] in *.
  split.
  - intros Hnone. destruct valid as [|v valid]; [reflexivity|].
    assert (Hall : forallb (fun f => negb (path_exists (path_join (dest_dir repo_config) f) w))
                     (configured_sources repo_config) = true).
    { apply forallb_forall. intros f Hf. specialize (Hnone f Hf).
      unfold source_exists in Hnone. now rewrite Hnone. }
    congruence.
  - intros (f & Hf & Hexists) w1 Hmkdir.
    destruct valid as [|v valid].
    + symmetry in Hvalid. rewrite forallb_forall in Hvalid.
      specialize (Hvalid f Hf). unfold source_exists in Hexists.
      rewrite Hexists in Hvalid. discriminate.
    + split; [discriminate|].
      rewrite Hmkdir. unfold rsync_cmd.
      match goal with
      | |- context [subprocess_run ?cmd w1] =>
          destruct (subprocess_run cmd w1) as [[|stderr|e] w2]
      end; try reflexivity.
      unfold source_exists. rewrite <- Hmissing. reflexivity.
Qed.

End RepositorySync.

Section RepositorySyncRuns.
Import Py SyncRepos.

Lemma process_repo_refuses_non_repository_witness :
  process_repo (host := toy_host [] []) notes_repo plain_settings None sync ["notes"]
  = (Returned (false, "Directory notes exists but is not a git repository"),
     ["notes"]).
Proof.
  apply (proj1 (process_repo_refuses_non_repository (host := toy_host [] [])
                  notes_repo plain_settings None sync (mkTally 0 0 []) ["notes"]
                  eq_refl eq_refl eq_refl eq_refl)).
Defined.

(** C2 as the specification words it fails: of the two configured
    sources [a] exists and [b] is missing, the rsync call over [a] exits
    cleanly, and the call returns a success flag of [False], which
    [process_repo] passes on as the failure of the entry. *)
Lemma rsync_files_missing_source_reports_failure :
  source_exists (host := toy_host [] []) notes_repo ["notes"; "notes/a"] "a" = true
  /\ source_exists (host := toy_host [] []) notes_repo ["notes"; "notes/a"] "b" = false
  /\ fst (subprocess_run (Host := toy_host [] [])
            ["rsync"; "-av"; "notes/a"; "out/notes"]
            ["out/notes"; "notes"; "notes/a"]) = Completed
  /\ rsync_files (host := toy_host [] []) notes_repo plain_settings (Some "out")
       ["notes"; "notes/a"]
     = (Returned (false, "Successfully copied 1 items (1 items were missing)"),
        ["out/notes"; "notes"; "notes/a"])
  /\ fst (process_repo (host := toy_host [] []) notes_repo plain_settings (Some "out")
            copy ["notes"; "notes/a"])
     = Returned (false, "Successfully copied 1 items (1 items were missing)").
Proof. repeat split. Qed.

Lemma rsync_files_flag_witness :
  rsync_files (host := toy_host [] []) notes_repo plain_settings (Some "out") []
  = (Returned (false, "No valid source paths found"), []).
Proof.
  apply (proj1 (rsync_files_flag (host := toy_host [] []) notes_repo plain_settings
                  (Some "out") [] eq_refl eq_refl)).
  intros f _. reflexivity.
Defined.

End RepositorySyncRuns.

(* ================================================================= *)
(** ** Batch controller of the repository tool *)

Section SyncBatch.
Import Py SyncRepos.
Context {World : Type} {host : Host World}.

Lemma filter_split_length {A : Type} (f : A -> bool) (l : list A) :
  List.length (filter (fun a => negb (f a)) l) + List.length (filter f l)
  = List.length l.
Proof.
  induction l as [|a l IH]; simpl; [reflexivity|].
  destruct (f a); simpl; lia.
Qed.

Lemma record_result_spec (repo : RepoConfig) (r : outcome (bool * string)) (t : Tally) :
  results (record_result repo r t) = results t ++ [entry_result (repo, r)]
  /\ failed (record_result repo r t)
     = failed t + (if entry_failed (repo, r) then 1 else 0)
  /\ successful (record_result repo r t)
     = successful t + (if entry_failed (repo, r) then 0 else 1).
Proof.
  destruct r as [[[|] message]|e]; cbn; repeat split; lia.
Qed.

(** The loop over completed calls gives every call one result, in the
    order of the list, and counts it once. *)
Lemma as_completed_loop_spec (completed : list (RepoConfig * outcome (bool * string)))
    (t : Tally) :
  results (as_completed_loop completed t) = results t ++ map entry_result completed
  /\ failed (as_completed_loop completed t)
     = failed t + List.length (filter entry_failed completed)
  /\ successful (as_completed_loop completed t)
     = successful t + List.length (filter (fun c => negb (entry_failed c)) completed).
Proof.
  revert t. induction completed as [|[repo r] completed IH]; intros t.
  - cbn. rewrite app_nil_r. repeat split; lia.
  - cbn [as_completed_loop].
    destruct (IH (record_result repo r t)) as (Hres & Hfail & Hsucc).
    destruct (record_result_spec repo r t) as (Hres1 & Hfail1 & Hsucc1).
    rewrite Hres, Hfail, Hsucc, Hres1, Hfail1, Hsucc1. cbn [map filter].
    rewrite <- app_assoc. cbn [app].
    destruct (entry_failed (repo, r)); cbn [negb List.length]; repeat split; lia.
Qed.

(** The sequential loop is the loop over completed calls applied to the
    calls made one after the other: a call that raises does not keep the
    later ones from being made. *)
Lemma sequential_loop_run_each (repositories : list RepoConfig) (settings : Settings)
    (copy_base_dir : option string) (op : operation) (t : Tally) (w : World) :
  sequential_loop repositories settings copy_base_dir op t w
  = (as_completed_loop (fst (run_each repositories settings copy_base_dir op w)) t,
     snd (run_each repositories settings copy_base_dir op w)).
Proof.
  revert t w. induction repositories as [|repo rest IH]; intros t w.
  - reflexivity.
  - cbn [sequential_loop run_each].
    destruct (process_repo repo settings copy_base_dir op w) as [r w1].
    rewrite IH.
    destruct (run_each rest settings copy_base_dir op w1) as [rs w2].
    reflexivity.
Qed.

Lemma run_each_entries (repositories : list RepoConfig) (settings : Settings)
    (copy_base_dir : option string) (op : operation) (w : World) :
  map fst (fst (run_each repositories settings copy_base_dir op w)) = repositories.
Proof.
  revert w. induction repositories as [|repo rest IH]; intros w.
  - reflexivity.
  - cbn [run_each].
    destruct (process_repo repo settings copy_base_dir op w) as [r w1].
    specialize (IH w1).
    destruct (run_each rest settings copy_base_dir op w1) as [rs w2].
    cbn in *. now rewrite IH.
Qed.

Lemma firmware_dir_step_runs (settings : Settings) (copy_base_dir : option string)
    (op : operation) (w : World) :
  fst (firmware_dir_step settings copy_base_dir op w) = true ->
  includes_copy op = true /\ truthy (firmware_dir settings) = true
  /\ truthy copy_base_dir = true.
Proof.
  unfold firmware_dir_step.
  destruct (truthy (firmware_dir settings)), (truthy copy_base_dir), (includes_copy op);
    cbn; try discriminate.
  intros _. repeat split.
Qed.

(** What [main] reports: one result per entry, the entries counted as
    successful and failed, and one more failure when the
    firmware-directory step ran and failed. *)
Lemma main_report (settings : Settings) (repositories : list RepoConfig)
    (parallel_jobs : Z) (copy_base_dir : option string) (op : operation) (w : World) :
  exists completed fw_failed,
    Permutation (map fst completed) repositories
    /\ completed
       = (if (1 <? parallel_jobs)%Z then fst (run_pool repositories w)
          else fst (run_each repositories settings copy_base_dir op w))
    /\ (fw_failed = true ->
        includes_copy op = true /\ truthy (firmware_dir settings) = true
        /\ truthy copy_base_dir = true)
    /\ results (fst (main settings repositories parallel_jobs copy_base_dir op w))
       = map entry_result completed
    /\ failed (fst (main settings repositories parallel_jobs copy_base_dir op w))
       = List.length (filter entry_failed completed) + (if fw_failed then 1 else 0)
    /\ successful (fst (main settings repositories parallel_jobs copy_base_dir op w))
       = List.length repositories - List.length (filter entry_failed completed)
    /\ exit_code (fst (main settings repositories parallel_jobs copy_base_dir op w))
       = (if (List.length (filter entry_failed completed) =? 0)%nat && negb fw_failed
          then 0 else 1).
Proof.
  set (completed := if (1 <? parallel_jobs)%Z then fst (run_pool repositories w)
                    else fst (run_each repositories settings copy_base_dir op w)).
  set (w1 := if (1 <? parallel_jobs)%Z then snd (run_pool repositories w)
             else snd (run_each repositories settings copy_base_dir op w)).
  assert (Hperm : Permutation (map fst completed) repositories).
  { unfold completed. destruct (1 <? parallel_jobs)%Z.
    - apply run_pool_complete.
    - rewrite run_each_entries. apply Permutation_refl. }
  assert (Hmain : main settings repositories parallel_jobs copy_base_dir op w
                  = (let t := as_completed_loop completed (mkTally 0 0 []) in
                     mkTally (successful t)
                       (if fst (firmware_dir_step settings copy_base_dir op w1)
                        then S (failed t) else failed t) (results t),
                     snd (firmware_dir_step settings copy_base_dir op w1))).
  { unfold main, completed, w1. destruct (1 <? parallel_jobs)%Z.
    - destruct (run_pool repositories w) as [c w']. cbn [fst snd].
      destruct (firmware_dir_step settings copy_base_dir op w') as [fw w2].
      reflexivity.
    - rewrite sequential_loop_run_each.
      destruct (run_each repositories settings copy_base_dir op w) as [c w']. cbn [fst snd].
      destruct (firmware_dir_step settings copy_base_dir op w') as [fw w2].
      reflexivity. }
  exists completed, (fst (firmware_dir_step settings copy_base_dir op w1)).
  split; [exact Hperm|]. split; [reflexivity|].
  split; [apply firmware_dir_step_runs|].
  rewrite Hmain. cbn [fst]. cbv zeta. cbn [results failed successful].
  destruct (as_completed_loop_spec completed (mkTally 0 0 [])) as (Hres & Hfail & Hsucc).
  cbn [results failed successful] in Hres, Hfail, Hsucc.
  assert (Hlen : List.length completed = List.length repositories).
  { rewrite <- (length_map fst completed). now apply Permutation_length. }
  pose proof (filter_split_length entry_failed completed) as Hsplit.
  split; [exact Hres|]. split; [|split].
  - rewrite Hfail. destruct (fst (firmware_dir_step settings copy_base_dir op w1)); lia.
  - rewrite Hsucc. lia.
  - unfold exit_code. cbn [failed]. rewrite Hfail.
    destruct (fst (firmware_dir_step settings copy_base_dir op w1));
      destruct (List.length (filter entry_failed completed)); reflexivity.
Qed.

Lemma batch_calls_entries (settings : Settings) (repositories : list RepoConfig)
    (parallel_jobs : Z) (copy_base_dir : option string) (op : operation) (w : World) :
  Permutation
    (map fst (fst (batch_calls settings repositories parallel_jobs copy_base_dir op w)))
    repositories.
Proof.
  unfold batch_calls. destruct (1 <? parallel_jobs)%Z.
  - apply run_pool_complete.
  - rewrite run_each_entries. apply Permutation_refl.
Qed.

(** The firmware-directory step counts as a failure exactly when it runs
    (a firmware directory and a destination are configured, the operation
    copies, the directory exists) and creating the destination raises or
    the rsync call does not complete. *)
Lemma firmware_dir_step_failed (settings : Settings) (copy_base_dir : option string)
    (op : operation) (w : World) :
  fst (firmware_dir_step settings copy_base_dir op w) = true
  <-> truthy (firmware_dir settings) = true
      /\ truthy copy_base_dir = true
      /\ includes_copy op = true
      /\ path_exists (or_default (firmware_dir settings) "") w = true
      /\ (fst (mkdir_parents (path_join (or_default copy_base_dir "") "firmware") w)
          <> None
          \/ fst (subprocess_run
                    (["rsync"] ++ or_default (rsync_args settings) ["-av"]
                     ++ [(or_default (firmware_dir settings) "" ++ "/")%string;
                         path_join (or_default copy_base_dir "") "firmware"])
                    (snd (mkdir_parents
                            (path_join (or_default copy_base_dir "") "firmware") w)))
             <> Completed).
Proof.
  unfold firmware_dir_step.
  destruct (truthy (firmware_dir settings)), (truthy copy_base_dir), (includes_copy op);
    cbn [andb]; try (split; [discriminate|intros (H1 & H2 & H3 & _); discriminate]).
  destruct (path_exists (or_default (firmware_dir settings) "") w);
    [|split; [discriminate|intros (_ & _ & _ & H & _); discriminate]].
  cbv zeta.
  destruct (mkdir_parents (path_join (or_default copy_base_dir "") "firmware") w)
    as [[e|] w1]; cbn [fst snd].
  - split; [intros _; repeat split; left; discriminate|reflexivity].
  - destruct (subprocess_run _ w1) as [[| |] w2]; cbn [fst].
    + split; [discriminate|]. intros (_ & _ & _ & _ & [H|H]); now elim H.
    + split; [intros _; repeat split; right; discriminate|reflexivity].
    + split; [intros _; repeat split; right; discriminate|reflexivity].
Qed.

(** What [main] returns, in full: one result per call of the batch, the
    calls that failed counted as failed and the others as successful, one
    more failure when the firmware-directory step failed in the world the
    batch left, and the world that step leaves. *)
Lemma main_exact (settings : Settings) (repositories : list RepoConfig)
    (parallel_jobs : Z) (copy_base_dir : option string) (op : operation) (w : World) :
  main settings repositories parallel_jobs copy_base_dir op w
  = (mkTally
       (List.length repositories
        - List.length
            (filter entry_failed
               (fst (batch_calls settings repositories parallel_jobs copy_base_dir op w))))
       (List.length
          (filter entry_failed
             (fst (batch_calls settings repositories parallel_jobs copy_base_dir op w)))
        + (if fst (firmware_dir_step settings copy_base_dir op
                     (snd (batch_calls settings repositories parallel_jobs
                             copy_base_dir op w)))
           then 1 else 0))
       (map entry_result
          (fst (batch_calls settings repositories parallel_jobs copy_base_dir op w))),
     snd (firmware_dir_step settings copy_base_dir op
            (snd (batch_calls settings repositories parallel_jobs copy_base_dir op w)))).
Proof.
  pose proof (batch_calls_entries settings repositories parallel_jobs copy_base_dir op w)
    as Hperm.
  assert (Hmain : main settings repositories parallel_jobs copy_base_dir op w
                  = (let t := as_completed_loop
                                (fst (batch_calls settings repositories parallel_jobs
                                        copy_base_dir op w)) (mkTally 0 0 []) in
                     mkTally (successful t)
                       (if fst (firmware_dir_step settings copy_base_dir op
                                  (snd (batch_calls settings repositories parallel_jobs
                                          copy_base_dir op w)))
                        then S (failed t) else failed t) (results t),
                     snd (firmware_dir_step settings copy_base_dir op
                            (snd (batch_calls settings repositories parallel_jobs
                                    copy_base_dir op w))))).
  { unfold main, batch_calls. destruct (1 <? parallel_jobs)%Z.
    - destruct (run_pool repositories w) as [c w']. cbn [fst snd].
      destruct (firmware_dir_step settings copy_base_dir op w') as [fw w2].
      reflexivity.
    - rewrite sequential_loop_run_each.
      destruct (run_each repositories settings copy_base_dir op w) as [c w']. cbn [fst snd].
      destruct (firmware_dir_step settings copy_base_dir op w') as [fw w2].
      reflexivity. }
  rewrite Hmain. cbv zeta.
  set (completed := fst (batch_calls settings repositories parallel_jobs
                           copy_base_dir op w)) in *.
  destruct (as_completed_loop_spec completed (mkTally 0 0 [])) as (Hres & Hfail & Hsucc).
  cbn [results failed successful] in Hres, Hfail, Hsucc.
  assert (Hlen : List.length completed = List.length repositories).
  { rewrite <- (length_map fst completed). now apply Permutation_length. }
  pose proof (filter_split_length entry_failed completed) as Hsplit.
  rewrite Hres, Hfail, Hsucc. cbn [app].
  f_equal. f_equal; [lia|].
  destruct (fst (firmware_dir_step _ _ _ _)); lia.
Qed.

Lemma exit_code_counts (s k : nat) (fw_failed : bool)
    (rs : list (string * bool * string)) :
  exit_code (mkTally s (k + (if fw_failed then 1 else 0)) rs)
  = (if (k =? 0)%nat && negb fw_failed then 0 else 1).
Proof.
  unfold exit_code. cbn [failed]. destruct fw_failed, k; reflexivity.
Qed.


End SyncBatch.

(* ================================================================= *)
(** ** Batch controller of the firmware tool *)

Section FirmwareBatch.
Import Py FirmwareDownloader.
Variable env : Env.
Variable settings : Settings.

(** The GitHub loop always returns: the call it makes converts its
    exceptions into [False] itself. *)
Lemma github_loop_outcomes (github_configs : list GithubConfig)
    (successful failed : list string) (w : World) :
  exists outcomes successful' failed' w',
    github_loop env settings github_configs successful failed w
    = (Returned (successful', failed'), w')
    /\ map fst outcomes = github_configs
    /\ Forall (returned_by (download_github_release_assets env settings)) outcomes
    /\ successful' = successful ++ map g_name (succeeded outcomes)
    /\ failed' = failed ++ map g_name (failures outcomes).
Proof.
  revert successful failed w.
  induction github_configs as [|gc rest IH]; intros successful failed w.
  - exists [], successful, failed, w. cbn. rewrite !app_nil_r. repeat split.
    constructor.
  - cbn [github_loop]. unfold bind at 1.
    destruct (download_github_release_assets_returns env settings gc w)
      as (ok & w1 & Hcall).
    rewrite Hcall. destruct ok.
    + destruct (IH (successful ++ [g_name gc]) failed w1)
        as (outcomes & s' & f' & w' & Hrun & Hfst & Hall & Hs & Hf).
      exists ((gc, true) :: outcomes), s', f', w'. unfold succeeded, failures in *.
      split; [exact Hrun|]. cbn. rewrite Hfst, Hs, Hf, <- app_assoc. repeat split.
      constructor; [now exists w, w1|exact Hall].
    + destruct (IH successful (failed ++ [g_name gc]) w1)
        as (outcomes & s' & f' & w' & Hrun & Hfst & Hall & Hs & Hf).
      exists ((gc, false) :: outcomes), s', f', w'. unfold succeeded, failures in *.
      split; [exact Hrun|]. cbn. rewrite Hfst, Hs, Hf, <- app_assoc. repeat split.
      constructor; [now exists w, w1|exact Hall].
Qed.

Lemma first_raised_none_split {A : Type} (outcomes : list (A * outcome bool)) :
  first_raised outcomes = None ->
  List.length (filter returned_false outcomes) + List.length (filter returned_true outcomes)
  = List.length outcomes.
Proof.
  induction outcomes as [|[a [[|]|e]] outcomes IH]; cbn; intros Hnone;
    try discriminate; try reflexivity; specialize (IH Hnone); lia.
Qed.

(** When no call raised, every entry was called, in the order of the list. *)
Lemma calls_in_turn_entries {A : Type} (call : A -> M bool) (entries : list A)
    (w : World) :
  first_raised (fst (calls_in_turn call entries w)) = None ->
  map fst (fst (calls_in_turn call entries w)) = entries.
Proof.
  revert w. induction entries as [|entry rest IH]; intros w; [reflexivity|].
  cbn [calls_in_turn]. destruct (call entry w) as [[ok|e] w1].
  - specialize (IH w1). destruct (calls_in_turn call rest w1) as [later w2].
    cbn in *. intros Hnone. now rewrite (IH Hnone).
  - cbn. discriminate.
Qed.

Lemma listed_without_call {A : Type} (entries : list A) :
  first_raised (map (fun entry => (entry, Returned true)) entries) = None
  /\ map fst (map (fun entry => (entry, Returned true)) entries) = entries
  /\ map fst (filter returned_true (map (fun entry => (entry, Returned true)) entries))
     = entries
  /\ filter returned_false (map (fun entry => (entry, Returned true)) entries) = [].
Proof.
  induction entries as [|entry entries (IH1 & IH2 & IH3 & IH4)]; cbn; [repeat split|].
  rewrite IH2, IH3. repeat split; assumption.
Qed.

(** The catalog loop is its calls made in turn: it raises what the first
    raising call raised, and otherwise lists every entry under successful
    or failed by what its call returned. *)
Lemma m5_loop_calls (firmware_configs : list FirmwareConfig)
    (successful failed : list string) (w : World) :
  m5_loop env settings firmware_configs successful failed w
  = (match first_raised
             (fst (calls_in_turn (download_firmware env settings) firmware_configs w))
     with
     | Some e => Raised e
     | None =>
         Returned
           (successful
            ++ map fc_label
                 (map fst
                    (filter returned_true
                       (fst (calls_in_turn (download_firmware env settings)
                               firmware_configs w)))),
            failed
            ++ map fc_label
                 (map fst
                    (filter returned_false
                       (fst (calls_in_turn (download_firmware env settings)
                               firmware_configs w)))))
     end,
     snd (calls_in_turn (download_firmware env settings) firmware_configs w)).
Proof.
  revert successful failed w.
  induction firmware_configs as [|fc rest IH]; intros successful failed w.
  - cbn. now rewrite !app_nil_r.
  - cbn [m5_loop calls_in_turn]. unfold bind at 1.
    destruct (download_firmware env settings fc w) as [[[|]|e] w1];
      [rewrite IH|rewrite IH|reflexivity];
      destruct (calls_in_turn (download_firmware env settings) rest w1) as [later w2];
      cbn; destruct (first_raised later); try reflexivity;
      now rewrite <- app_assoc.
Qed.

Lemma github_loop_calls (github_configs : list GithubConfig)
    (successful failed : list string) (w : World) :
  first_raised
    (fst (calls_in_turn (download_github_release_assets env settings) github_configs w))
  = None
  /\ github_loop env settings github_configs successful failed w
     = (Returned
          (successful
           ++ map g_name
                (map fst
                   (filter returned_true
                      (fst (calls_in_turn (download_github_release_assets env settings)
                              github_configs w)))),
           failed
           ++ map g_name
                (map fst
                   (filter returned_false
                      (fst (calls_in_turn (download_github_release_assets env settings)
                              github_configs w))))),
        snd (calls_in_turn (download_github_release_assets env settings)
               github_configs w)).
Proof.
  revert successful failed w.
  induction github_configs as [|gc rest IH]; intros successful failed w.
  - cbn. now rewrite !app_nil_r.
  - cbn [github_loop calls_in_turn]. unfold bind at 1.
    destruct (download_github_release_assets_returns env settings gc w)
      as (ok & w1 & Hcall).
    rewrite Hcall.
    destruct ok;
      [destruct (IH (successful ++ [g_name gc]) failed w1) as [Hnone Hrun]
      |destruct (IH successful (failed ++ [g_name gc]) w1) as [Hnone Hrun]];
      rewrite Hrun;
      destruct (calls_in_turn (download_github_release_assets env settings) rest w1)
        as [later w2];
      cbn in *; (split; [exact Hnone|]); now rewrite <- app_assoc.
Qed.

Lemma github_outcomes_return (args : Args) (github_configs : list GithubConfig)
    (w : World) :
  first_raised (fst (github_outcomes env args settings github_configs w)) = None.
Proof.
  unfold github_outcomes. destruct (skip_github args); [reflexivity|].
  destruct (dry_run args); [apply listed_without_call|].
  apply (github_loop_calls github_configs [] [] w).
Qed.

Lemma outcomes_entries (args : Args) (firmware_configs : list FirmwareConfig)
    (github_configs : list GithubConfig) (w w1 : World) :
  (first_raised (fst (catalog_outcomes env args settings firmware_configs w)) = None ->
   map fst (fst (catalog_outcomes env args settings firmware_configs w))
   = (if github_only args then [] else firmware_configs))
  /\ map fst (fst (github_outcomes env args settings github_configs w1))
     = (if skip_github args then [] else github_configs).
Proof.
  split.
  - unfold catalog_outcomes. destruct (github_only args); [reflexivity|].
    destruct (dry_run args); [intros _; apply listed_without_call|].
    apply calls_in_turn_entries.
  - pose proof (github_outcomes_return args github_configs w1) as Hnone.
    revert Hnone. unfold github_outcomes. destruct (skip_github args); [reflexivity|].
    destruct (dry_run args); [intros _; apply listed_without_call|].
    apply calls_in_turn_entries.
Qed.

(** What [main] gives: the exception of the first catalog call that
    raised, in the world that call left, or else the report that lists
    every entry by the outcome of its call in the run. *)
Lemma firmware_main_exact (args : Args) (firmware_configs : list FirmwareConfig)
    (github_configs : list GithubConfig) (w : World) :
  main env args settings firmware_configs github_configs w
  = match first_raised (fst (catalog_outcomes env args settings firmware_configs w)) with
    | Some e => (Raised e, snd (catalog_outcomes env args settings firmware_configs w))
    | None =>
        (Returned
           (mkReport
              (map fc_label
                 (map fst
                    (filter returned_true
                       (fst (catalog_outcomes env args settings firmware_configs w)))))
              (map fc_label
                 (map fst
                    (filter returned_false
                       (fst (catalog_outcomes env args settings firmware_configs w)))))
              (map g_name
                 (map fst
                    (filter returned_true
                       (fst (github_outcomes env args settings github_configs
                               (snd (catalog_outcomes env args settings
                                       firmware_configs w)))))))
              (map g_name
                 (map fst
                    (filter returned_false
                       (fst (github_outcomes env args settings github_configs
                               (snd (catalog_outcomes env args settings
                                       firmware_configs w)))))))),
         snd (github_outcomes env args settings github_configs
                (snd (catalog_outcomes env args settings firmware_configs w))))
    end.
Proof.
  assert (Hgh : forall w1,
             (if negb (skip_github args)
              then if dry_run args then ret (map g_name github_configs, [])
                   else github_loop env settings github_configs [] []
              else ret ([], [])) w1
             = (Returned
                  (map g_name
                     (map fst
                        (filter returned_true
                           (fst (github_outcomes env args settings github_configs w1)))),
                   map g_name
                     (map fst
                        (filter returned_false
                           (fst (github_outcomes env args settings github_configs w1))))),
                snd (github_outcomes env args settings github_configs w1))).
  { intros w1. unfold github_outcomes. destruct (skip_github args); cbn [negb];
      [reflexivity|].
    destruct (dry_run args).
    - destruct (listed_without_call github_configs) as (_ & _ & H3 & H4).
      cbn [fst snd]. now rewrite H3, H4.
    - exact (proj2 (github_loop_calls github_configs [] [] w1)). }
  unfold main. unfold bind at 1. unfold catalog_outcomes.
  destruct (github_only args); cbn [negb].
  - unfold ret at 1. cbn [fst snd first_raised filter map]. unfold bind at 1.
    rewrite Hgh. reflexivity.
  - destruct (dry_run args) eqn:Hdry.
    + unfold ret at 1. cbn [fst snd].
      destruct (listed_without_call firmware_configs) as (H1 & _ & H3 & H4).
      rewrite H1, H3, H4. unfold bind at 1. rewrite Hgh. reflexivity.
    + rewrite m5_loop_calls.
      destruct (first_raised
                  (fst (calls_in_turn (download_firmware env settings)
                          firmware_configs w))); [reflexivity|].
      unfold bind at 1. rewrite Hgh. reflexivity.
Qed.


End FirmwareBatch.

(* ================================================================= *)
(** ** The batch controllers of both tools *)

Section BatchControllers.
Import Py.

(** C1 as the specification words it fails: one entry, which succeeds
    (no entry fails), and a firmware-directory step whose rsync call is
    refused: the report counts one failure and the exit code is 1. *)
Lemma firmware_dir_failure_counted :
  SyncRepos.results
    (fst (SyncRepos.main (host := SyncRepos.toy_host [] ["out/firmware"])
                  (SyncRepos.mkSettings None None (Some "fw")) [SyncRepos.notes_repo]
                  1%Z (Some "out") SyncRepos.copy
                  ["notes"; "notes/a"; "notes/b"; "fw"]))
  = [("notes", true, "Successfully copied 2 items")]
  /\ SyncRepos.successful
       (fst (SyncRepos.main (host := SyncRepos.toy_host [] ["out/firmware"])
               (SyncRepos.mkSettings None None (Some "fw")) [SyncRepos.notes_repo]
               1%Z (Some "out") SyncRepos.copy
               ["notes"; "notes/a"; "notes/b"; "fw"])) = 1
  /\ SyncRepos.failed
       (fst (SyncRepos.main (host := SyncRepos.toy_host [] ["out/firmware"])
               (SyncRepos.mkSettings None None (Some "fw")) [SyncRepos.notes_repo]
               1%Z (Some "out") SyncRepos.copy
               ["notes"; "notes/a"; "notes/b"; "fw"])) = 1
  /\ SyncRepos.exit_code
       (fst (SyncRepos.main (host := SyncRepos.toy_host [] ["out/firmware"])
               (SyncRepos.mkSettings None None (Some "fw")) [SyncRepos.notes_repo]
               1%Z (Some "out") SyncRepos.copy
               ["notes"; "notes/a"; "notes/b"; "fw"])) = 1.
Proof. repeat split. Qed.

(** C1, amended.  Repository tool: [main] gives every entry of the batch
    one result, by what its call returned or raised (the calls are those
    of [process_repo] made one after the other, or the pool's when more
    than one job is asked for); of the [N] entries, the [K] whose call
    returned [False] or raised are counted as failed and the other
    [N - K] as successful; the failed count is one higher exactly when the
    firmware-directory step ran in the world the batch left and failed
    (its destination could not be created or its rsync call did not
    complete); the exit code is 1 exactly when that count is positive.
    Firmware tool: the GitHub calls never raise; when no catalog call
    raises (as when there is none to make: GitHub only, a dry run, no
    catalog entry), [main] returns the report that lists every processed
    entry once, by what its call returned in the run, the [K] that
    returned [False] as failed and the other [N - K] as successful, and
    the exit code is 1 exactly when [K > 0]; when a catalog call raises,
    [main] raises with it and gives no report. *)
Theorem batch_report_counts :
  (forall (World : Type) (host : SyncRepos.Host World)
          (settings : SyncRepos.Settings) (repositories : list SyncRepos.RepoConfig)
          (parallel_jobs : Z) (copy_base_dir : option string)
          (op : SyncRepos.operation) (w : World),
      let completed :=
        fst (SyncRepos.batch_calls settings repositories parallel_jobs copy_base_dir op w) in
      let w1 :=
        snd (SyncRepos.batch_calls settings repositories parallel_jobs copy_base_dir op w) in
      let fw_failed := fst (SyncRepos.firmware_dir_step settings copy_base_dir op w1) in
      let K := List.length (filter SyncRepos.entry_failed completed) in
      Permutation (map fst completed) repositories
      /\ SyncRepos.main settings repositories parallel_jobs copy_base_dir op w
         = (SyncRepos.mkTally (List.length repositories - K)
              (K + (if fw_failed then 1 else 0))
              (map SyncRepos.entry_result completed),
            snd (SyncRepos.firmware_dir_step settings copy_base_dir op w1))
      /\ SyncRepos.exit_code
           (fst (SyncRepos.main settings repositories parallel_jobs copy_base_dir op w))
         = (if (K =? 0)%nat && negb fw_failed then 0 else 1)
      /\ (fw_failed = true
          <-> SyncRepos.truthy (SyncRepos.firmware_dir settings) = true
              /\ SyncRepos.truthy copy_base_dir = true
              /\ SyncRepos.includes_copy op = true
              /\ SyncRepos.path_exists
                   (SyncRepos.or_default (SyncRepos.firmware_dir settings) "") w1 = true
              /\ (fst (SyncRepos.mkdir_parents
                         (SyncRepos.path_join (SyncRepos.or_default copy_base_dir "")
                            "firmware") w1)
                  <> None
                  \/ fst (SyncRepos.subprocess_run
                            (["rsync"]
                             ++ SyncRepos.or_default (SyncRepos.rsync_args settings) ["-av"]
                             ++ [(SyncRepos.or_default (SyncRepos.firmware_dir settings) ""
                                  ++ "/")%string;
                                 SyncRepos.path_join
                                   (SyncRepos.or_default copy_base_dir "") "firmware"])
                            (snd (SyncRepos.mkdir_parents
                                    (SyncRepos.path_join
                                       (SyncRepos.or_default copy_base_dir "") "firmware")
                                    w1)))
                     <> SyncRepos.Completed)))
  /\ (forall (env : FirmwareDownloader.Env) (args : FirmwareDownloader.Args)
             (settings : FirmwareDownloader.Settings)
             (firmware_configs : list FirmwareDownloader.FirmwareConfig)
             (github_configs : list FirmwareDownloader.GithubConfig)
             (w : FirmwareDownloader.World),
         let m5 :=
           fst (FirmwareDownloader.catalog_outcomes env args settings firmware_configs w) in
         let w1 :=
           snd (FirmwareDownloader.catalog_outcomes env args settings firmware_configs w) in
         let gh :=
           fst (FirmwareDownloader.github_outcomes env args settings github_configs w1) in
         let w2 :=
           snd (FirmwareDownloader.github_outcomes env args settings github_configs w1) in
         let K := List.length (filter FirmwareDownloader.returned_false m5)
                  + List.length (filter FirmwareDownloader.returned_false gh) in
         FirmwareDownloader.first_raised gh = None
         /\ (FirmwareDownloader.github_only args = true
             \/ FirmwareDownloader.dry_run args = true
             \/ firmware_configs = [] ->
             FirmwareDownloader.first_raised m5 = None)
         /\ (FirmwareDownloader.dry_run args = true -> K = 0)
         /\ (FirmwareDownloader.first_raised m5 = None ->
             map fst m5
             = (if FirmwareDownloader.github_only args then [] else firmware_configs)
             /\ map fst gh
                = (if FirmwareDownloader.skip_github args then [] else github_configs)
             /\ exists report,
                 FirmwareDownloader.main env args settings firmware_configs
                   github_configs w
                 = (FirmwareDownloader.Returned report, w2)
                 /\ FirmwareDownloader.m5_successful report
                    = map FirmwareDownloader.fc_label
                        (map fst (filter FirmwareDownloader.returned_true m5))
                 /\ FirmwareDownloader.m5_failed report
                    = map FirmwareDownloader.fc_label
                        (map fst (filter FirmwareDownloader.returned_false m5))
                 /\ FirmwareDownloader.github_successful report
                    = map FirmwareDownloader.g_name
                        (map fst (filter FirmwareDownloader.returned_true gh))
                 /\ FirmwareDownloader.github_failed report
                    = map FirmwareDownloader.g_name
                        (map fst (filter FirmwareDownloader.returned_false gh))
                 /\ FirmwareDownloader.total_failed_count report = K
                 /\ FirmwareDownloader.total_successful_count report
                    = List.length m5 + List.length gh - K
                 /\ FirmwareDownloader.exit_code (FirmwareDownloader.Returned report)
                    = (if (K =? 0)%nat then 0 else 1))
         /\ (forall e,
                FirmwareDownloader.first_raised m5 = Some e ->
                FirmwareDownloader.main env args settings firmware_configs github_configs w
                = (FirmwareDownloader.Raised e, w1))).
Proof.
  split.
  - intros World host settings repositories parallel_jobs copy_base_dir op w.
    cbv zeta.
    split; [apply batch_calls_entries|].
    split; [apply main_exact|].
    split; [rewrite main_exact; apply exit_code_counts|].
    apply firmware_dir_step_failed.
  - intros env args settings firmware_configs github_configs w. cbv zeta.
    pose proof (firmware_main_exact env settings args firmware_configs github_configs w)
      as Hmain.
    pose proof (github_outcomes_return env settings args github_configs
                  (snd (FirmwareDownloader.catalog_outcomes env args settings
                          firmware_configs w))) as Hgh.
    split; [exact Hgh|]. split; [|split; [|split]].
    + unfold FirmwareDownloader.catalog_outcomes.
      intros [->|[->| ->]]; [reflexivity| |].
      * destruct (FirmwareDownloader.github_only args); [reflexivity|].
        apply listed_without_call.
      * destruct (FirmwareDownloader.github_only args); [reflexivity|].
        destruct (FirmwareDownloader.dry_run args); reflexivity.
    + intros Hdry.
      unfold FirmwareDownloader.catalog_outcomes, FirmwareDownloader.github_outcomes.
      rewrite Hdry.
      destruct (listed_without_call firmware_configs) as (_ & _ & _ & H5).
      destruct (listed_without_call github_configs) as (_ & _ & _ & Hg).
      destruct (FirmwareDownloader.github_only args),
        (FirmwareDownloader.skip_github args); cbn [fst snd];
        rewrite ?H5, ?Hg; reflexivity.
    + intros Hnone. rewrite Hnone in Hmain.
      destruct (outcomes_entries env settings args firmware_configs github_configs w
                  (snd (FirmwareDownloader.catalog_outcomes env args settings
                          firmware_configs w))) as [H5 Hg].
      split; [exact (H5 Hnone)|]. split; [exact Hg|].
      eexists. split; [exact Hmain|].
      pose proof (first_raised_none_split _ Hnone) as Hlen5.
      pose proof (first_raised_none_split _ Hgh) as Hleng.
      unfold FirmwareDownloader.exit_code, FirmwareDownloader.total_failed_count,
        FirmwareDownloader.total_successful_count.
      cbn [FirmwareDownloader.m5_failed FirmwareDownloader.github_failed
           FirmwareDownloader.m5_successful FirmwareDownloader.github_successful].
      rewrite !length_map.
      repeat split; try lia.
      destruct (List.length (filter FirmwareDownloader.returned_false _)
                + List.length (filter FirmwareDownloader.returned_false _));
        reflexivity.
    + intros e Hraised. rewrite Hraised in Hmain. exact Hmain.
Qed.

Lemma batch_report_counts_witness :
  exists report,
    fst (FirmwareDownloader.main (FirmwareDownloader.example_env "")
           (FirmwareDownloader.mkArgs false false false)
           FirmwareDownloader.example_settings
           [FirmwareDownloader.bruce_latest; FirmwareDownloader.other_latest]
           [FirmwareDownloader.marauder] FirmwareDownloader.empty_world)
    = FirmwareDownloader.Returned report
    /\ FirmwareDownloader.m5_successful report = ["Bruce (cardputer)"]
    /\ FirmwareDownloader.m5_failed report = ["Nemo (stickc)"]
    /\ FirmwareDownloader.github_successful report = []
    /\ FirmwareDownloader.github_failed report = ["marauder"]
    /\ FirmwareDownloader.total_failed_count report = 2
    /\ FirmwareDownloader.total_successful_count report = 1
    /\ FirmwareDownloader.exit_code (FirmwareDownloader.Returned report) = 1.
Proof.
  destruct (proj1 (proj2 (proj2 (proj2
              (proj2 batch_report_counts (FirmwareDownloader.example_env "")
                 (FirmwareDownloader.mkArgs false false false)
                 FirmwareDownloader.example_settings
                 [FirmwareDownloader.bruce_latest; FirmwareDownloader.other_latest]
                 [FirmwareDownloader.marauder] FirmwareDownloader.empty_world))))
              eq_refl)
    as (_ & _ & report & Hmain & H1 & H2 & H3 & H4 & H5 & H6 & H7).
  exists report. rewrite Hmain.
  split; [reflexivity|]. repeat split; assumption.
Defined.

(** C3 as the specification words it fails: the device directory of the
    first catalog entry cannot be created, the exception leaves
    [download_firmware] and [main], and the second entry, whose call
    would have returned, gets no outcome. *)
Lemma catalog_loop_exception_aborts_batch :
  fst (FirmwareDownloader.main (FirmwareDownloader.example_env "firmware/cardputer")
         (FirmwareDownloader.mkArgs false false false)
         FirmwareDownloader.example_settings
         [FirmwareDownloader.bruce_latest; FirmwareDownloader.other_latest] []
         FirmwareDownloader.empty_world)
  = FirmwareDownloader.Raised (FirmwareDownloader.Exception "PermissionError")
  /\ fst (FirmwareDownloader.download_firmware
            (FirmwareDownloader.example_env "firmware/cardputer")
            FirmwareDownloader.example_settings FirmwareDownloader.other_latest
            FirmwareDownloader.empty_world)
     = FirmwareDownloader.Returned false.
Proof. split; reflexivity. Qed.

(** C3, amended.  In both loops of the repository tool every entry gets
    one result, and an entry whose call raised gets the failure built
    from its exception, the other entries being processed all the same.
    In the firmware tool the GitHub release call never raises (its
    handlers turn an exception into [False]), so the GitHub loop gives
    every entry its outcome. *)
Theorem batch_exceptions_contained :
  (forall (World : Type) (host : SyncRepos.Host World)
          (settings : SyncRepos.Settings) (repositories : list SyncRepos.RepoConfig)
          (parallel_jobs : Z) (copy_base_dir : option string)
          (op : SyncRepos.operation) (w : World),
      exists completed,
        Permutation (map fst completed) repositories
        /\ completed
           = (if (1 <? parallel_jobs)%Z then fst (SyncRepos.run_pool repositories w)
              else fst (SyncRepos.run_each repositories settings copy_base_dir op w))
        /\ SyncRepos.results
             (fst (SyncRepos.main settings repositories parallel_jobs copy_base_dir op w))
           = map SyncRepos.entry_result completed
        /\ (forall repo e,
               In (repo, SyncRepos.Raised e) completed ->
               In (SyncRepos.name repo, false,
                   ("Exception processing " ++ SyncRepos.name repo ++ ": " ++ e)%string)
                  (SyncRepos.results
                     (fst (SyncRepos.main settings repositories parallel_jobs
                             copy_base_dir op w)))))
  /\ (forall (env : FirmwareDownloader.Env) (settings : FirmwareDownloader.Settings)
             (github_config : FirmwareDownloader.GithubConfig)
             (w : FirmwareDownloader.World),
         exists b w',
           FirmwareDownloader.download_github_release_assets env settings github_config w
           = (FirmwareDownloader.Returned b, w'))
  /\ (forall (env : FirmwareDownloader.Env) (settings : FirmwareDownloader.Settings)
             (github_configs : list FirmwareDownloader.GithubConfig)
             (w : FirmwareDownloader.World),
         exists outcomes github_successful github_failed w',
           FirmwareDownloader.github_loop env settings github_configs [] [] w
           = (FirmwareDownloader.Returned (github_successful, github_failed), w')
           /\ map fst outcomes = github_configs
           /\ github_successful
              = map FirmwareDownloader.g_name (FirmwareDownloader.succeeded outcomes)
           /\ github_failed
              = map FirmwareDownloader.g_name (FirmwareDownloader.failures outcomes)).
Proof.
  split; [|split].
  - intros World host settings repositories parallel_jobs copy_base_dir op w.
    destruct (main_report settings repositories parallel_jobs copy_base_dir op w)
      as (completed & fw_failed & Hperm & Hcompleted & _ & Hres & _).
    exists completed. repeat split; auto.
    intros repo e Hin. rewrite Hres.
    apply (in_map SyncRepos.entry_result) in Hin. exact Hin.
  - apply download_github_release_assets_returns.
  - intros env settings github_configs w.
    destruct (github_loop_outcomes env settings github_configs [] [] w)
      as (outcomes & s & f & w' & Hrun & Hfst & _ & Hs & Hf).
    exists outcomes, s, f, w'. repeat split; auto.
Qed.

Lemma batch_exceptions_contained_witness :
  exists b w',
    FirmwareDownloader.download_github_release_assets
      (FirmwareDownloader.example_env "") FirmwareDownloader.example_settings
      FirmwareDownloader.marauder FirmwareDownloader.empty_world
    = (FirmwareDownloader.Returned b, w').
Proof.
  apply (proj1 (proj2 batch_exceptions_contained)).
Defined.

End BatchControllers.

(* ================================================================= *)
(** ** Further facts: the catalog resolver *)

Section CatalogLookup.
Import Py FirmwareDownloader.

Lemma str_in_empty (s : string) : str_in "" s = true.
Proof. destruct s; reflexivity. Qed.

Lemma resolve_version_many (firmware : Firmware) (requested_version : string)
    (vs : list Version) :
  resolve_version firmware requested_version = Many vs ->
  requested_version = "all" /\ vs = fw_versions firmware /\ vs <> [].
Proof.
  unfold resolve_version.
  destruct (fw_versions firmware) as [|first rest] eqn:Hvs; [discriminate|].
  destruct (String.eqb requested_version "latest"); [discriminate|].
  destruct (String.eqb requested_version "stable").
  { destruct (find stable_test (first :: rest)); discriminate. }
  destruct (String.eqb requested_version "all") eqn:Hall.
  - apply String.eqb_eq in Hall. intros [= <-]. repeat split; [exact Hall|discriminate].
  - destruct (find _ (first :: rest)); discriminate.
Qed.

Lemma resolve_version_single (firmware : Firmware) (requested_version : string)
    (v : Version) :
  resolve_version firmware requested_version = Single v ->
  In v (fw_versions firmware) /\ requested_version <> "all".
Proof.
  unfold resolve_version.
  destruct (fw_versions firmware) as [|first rest] eqn:Hvs; [discriminate|].
  destruct (String.eqb requested_version "latest") eqn:Hlatest.
  { apply String.eqb_eq in Hlatest. subst. intros [= <-]. split; [now left|discriminate]. }
  destruct (String.eqb requested_version "stable") eqn:Hstable.
  { apply String.eqb_eq in Hstable. subst.
    destruct (find stable_test (first :: rest)) as [u|] eqn:Hfind; intros [= <-].
    - split; [exact (proj1 (find_some _ _ Hfind))|discriminate].
    - split; [now left|discriminate]. }
  destruct (String.eqb requested_version "all") eqn:Hall; [discriminate|].
  apply String.eqb_neq in Hall.
  destruct (find _ (first :: rest)) as [u|] eqn:Hfind; intros [= <-].
  split; [exact (proj1 (find_some _ _ Hfind))|exact Hall].
Qed.

(** X1: whatever the selector, what [resolve_version] returns comes from
    the entry's own version list.  Nothing is found exactly when the list
    is empty or the selector is no keyword and no label contains it; a
    single version returned is one of the list, never for ["all"]; the
    whole list is returned, unchanged, exactly for ["all"] over a
    non-empty list; and ["latest"] returns the first version of a
    non-empty list. *)
Theorem resolve_version_from_catalog (firmware : Firmware) (requested_version : string) :
  (resolve_version firmware requested_version = NotFound
   <-> fw_versions firmware = []
       \/ (requested_version <> "latest" /\ requested_version <> "stable"
           /\ requested_version <> "all"
           /\ forall u, In u (fw_versions firmware) ->
                        str_in requested_version (get_version u "") = false))
  /\ (forall v,
         resolve_version firmware requested_version = Single v ->
         In v (fw_versions firmware) /\ requested_version <> "all")
  /\ (forall vs,
         resolve_version firmware requested_version = Many vs
         <-> requested_version = "all" /\ vs = fw_versions firmware /\ vs <> [])
  /\ (forall first rest,
         fw_versions firmware = first :: rest ->
         resolve_version firmware "latest" = Single first).
Proof.
  split; [|split; [|split]].
  - split.
    + unfold resolve_version.
      destruct (fw_versions firmware) as [|first rest] eqn:Hvs; [now left|right].
      destruct (String.eqb requested_version "latest") eqn:Hlatest; [discriminate|].
      destruct (String.eqb requested_version "stable") eqn:Hstable.
      { destruct (find stable_test (first :: rest)); discriminate. }
      destruct (String.eqb requested_version "all") eqn:Hall; [discriminate|].
      apply String.eqb_neq in Hlatest, Hstable, Hall.
      destruct (find _ (first :: rest)) as [u|] eqn:Hfind; [discriminate|].
      repeat split; auto. intros u Hu. exact (find_none _ _ Hfind u Hu).
    + unfold resolve_version.
      intros [Hempty|(Hlatest & Hstable & Hall & Hnone)]; [now rewrite Hempty|].
      destruct (fw_versions firmware) as [|first rest] eqn:Hvs; [reflexivity|].
      apply String.eqb_neq in Hlatest, Hstable, Hall.
      rewrite Hlatest, Hstable, Hall.
      destruct (find _ (first :: rest)) as [u|] eqn:Hfind; [|reflexivity].
      apply find_some in Hfind. destruct Hfind as [Hin Hu].
      rewrite (Hnone u Hin) in Hu. discriminate.
  - intros v. apply resolve_version_single.
  - intros vs. split; [apply resolve_version_many|].
    intros (-> & -> & Hsome). unfold resolve_version.
    destruct (fw_versions firmware) as [|first rest]; [contradiction|reflexivity].
  - intros first rest Hvs. unfold resolve_version. now rewrite Hvs.
Qed.

(** X2: a selector that is none of the keywords picks the first version,
    in catalog order, whose label contains it as written (no case
    folding, no preference for an exact match), and finds nothing when no
    label contains it; the empty selector picks the first version. *)
Theorem resolve_version_specific_first_match
    (firmware : Firmware) (requested_version : string) :
  requested_version <> "latest" ->
  requested_version <> "stable" ->
  requested_version <> "all" ->
  ((exists pre v post,
       fw_versions firmware = pre ++ v :: post
       /\ (forall u, In u pre -> str_in requested_version (get_version u "") = false)
       /\ str_in requested_version (get_version v "") = true
       /\ resolve_version firmware requested_version = Single v)
   \/ ((forall u, In u (fw_versions firmware) ->
                  str_in requested_version (get_version u "") = false)
       /\ resolve_version firmware requested_version = NotFound))
  /\ (requested_version = "" ->
      forall first rest, fw_versions firmware = first :: rest ->
                         resolve_version firmware requested_version = Single first).
Proof.
  intros Hlatest Hstable Hall.
  apply String.eqb_neq in Hlatest, Hstable, Hall.
  assert (Hres : resolve_version firmware requested_version =
                 match fw_versions firmware with
                 | [] => NotFound
                 | _ :: _ =>
                     match find (fun version =>
                                   str_in requested_version (get_version version ""))
                                (fw_versions firmware) with
                     | Some version => Single version
                     | None => NotFound
                     end
                 end).
  { unfold resolve_version. destruct (fw_versions firmware); [reflexivity|].
    now rewrite Hlatest, Hstable, Hall. }
  split.
  - destruct (fw_versions firmware) as [|first rest] eqn:Hvs.
    + right. split; [intros u []|exact Hres].
    + destruct (find (fun version => str_in requested_version (get_version version ""))
                     (first :: rest)) as [v|] eqn:Hfind.
      * left. destruct (find_first _ _ _ Hfind) as (pre & post & Hsplit & Hpre & Hv).
        exists pre, v, post. repeat split; auto.
      * right. split; [|exact Hres].
        intros u Hu. exact (find_none _ _ Hfind u Hu).
  - intros -> first rest Hvs. rewrite Hres, Hvs. cbn [find].
    now rewrite str_in_empty.
Qed.

Lemma resolve_version_specific_first_match_witness :
  (exists pre v post,
      [mkVersion (Some "1.0.1") "a.bin"; mkVersion (Some "1.0") "b.bin"]
      = pre ++ v :: post
      /\ (forall u, In u pre -> str_in "1.0" (get_version u "") = false)
      /\ str_in "1.0" (get_version v "") = true
      /\ resolve_version
           (mkFirmware "cardputer" (Some "Bruce") "pr3y"
              [mkVersion (Some "1.0.1") "a.bin"; mkVersion (Some "1.0") "b.bin"])
           "1.0" = Single v)
  \/ ((forall u,
          In u [mkVersion (Some "1.0.1") "a.bin"; mkVersion (Some "1.0") "b.bin"] ->
          str_in "1.0" (get_version u "") = false)
      /\ resolve_version
           (mkFirmware "cardputer" (Some "Bruce") "pr3y"
              [mkVersion (Some "1.0.1") "a.bin"; mkVersion (Some "1.0") "b.bin"])
           "1.0" = NotFound).
Proof.
  apply (proj1 (resolve_version_specific_first_match
                  (mkFirmware "cardputer" (Some "Bruce") "pr3y"
                     [mkVersion (Some "1.0.1") "a.bin"; mkVersion (Some "1.0") "b.bin"])
                  "1.0" ltac:(discriminate) ltac:(discriminate) ltac:(discriminate))).
Defined.

Lemma find_filter {A : Type} (f g : A -> bool) (l : list A) :
  find f (filter g l) = find (fun x => g x && f x) l.
Proof.
  induction l as [|a l IH]; simpl; [reflexivity|].
  destruct (g a); simpl; [destruct (f a)|]; auto.
Qed.

(** The two tests of [find_firmware_by_name]: the entry belongs to the
    device, and its name and the requested name overlap. *)
Definition of_device (device : string) (firmware : Firmware) : bool :=
  String.eqb (lower (fw_category firmware)) (lower device).

Definition names_overlap (name : string) (firmware : Firmware) : bool :=
  str_in (lower name) (lower (get_name firmware ""))
  || str_in (lower (get_name firmware "")) (lower name).

Lemma find_firmware_by_name_find (data : list Firmware) (device name : string) :
  find_firmware_by_name data device name
  = find (fun f => of_device device f && names_overlap name f) data.
Proof.
  unfold find_firmware_by_name, get_firmware_for_device. now rewrite find_filter.
Qed.

(** X3: [find_firmware_by_name] returns the first catalog entry of the
    device (category compared without case) whose name contains the
    requested name or is contained in it (without case); it returns
    nothing exactly when no entry of the device overlaps.  An entry
    without a name, and an empty requested name, overlap with
    everything. *)
Theorem find_firmware_by_name_first_overlap
    (data : list Firmware) (device name : string) :
  (forall firmware,
      find_firmware_by_name data device name = Some firmware ->
      exists pre post,
        data = pre ++ firmware :: post
        /\ of_device device firmware = true
        /\ names_overlap name firmware = true
        /\ forall u, In u pre -> of_device device u = true ->
                     names_overlap name u = false)
  /\ (find_firmware_by_name data device name = None <->
      forall u, In u data -> of_device device u = true -> names_overlap name u = false)
  /\ (forall firmware,
         fw_name firmware = None \/ name = "" -> names_overlap name firmware = true).
Proof.
  rewrite find_firmware_by_name_find. split; [|split].
  - intros firmware Hfind.
    destruct (find_first _ _ _ Hfind) as (pre & post & Hsplit & Hpre & Hv).
    apply andb_true_iff in Hv. destruct Hv as [Hdev Hname].
    exists pre, post. repeat split; auto.
    intros u Hu Hdevu. specialize (Hpre u Hu). cbn beta in Hpre.
    now rewrite Hdevu in Hpre.
  - split.
    + intros Hnone u Hu Hdevu. pose proof (find_none _ _ Hnone u Hu) as H.
      cbn beta in H. now rewrite Hdevu in H.
    + intros Hall. destruct (find _ data) as [f|] eqn:Hfind; [|reflexivity].
      destruct (find_some _ _ Hfind) as [Hin Hf].
      apply andb_true_iff in Hf. destruct Hf as [Hdev Hname].
      rewrite (Hall f Hin Hdev) in Hname. discriminate.
  - intros firmware [Hnone| ->]; unfold names_overlap.
    + unfold get_name. rewrite Hnone. cbn [lower].
      rewrite (str_in_empty (lower name)). apply orb_true_r.
    + cbn [lower]. now rewrite str_in_empty.
Qed.

(** X9: on a version label whose only [v] or [V] is a leading one, the
    file name the code builds is the one the specification asks for. *)
Theorem clean_filename_agrees_with_spec (name version device : string) :
  all_chars (fun c => negb (Ascii.eqb c "v")) (strip_leading_v version) = true ->
  all_chars (fun c => negb (Ascii.eqb c "V")) (strip_leading_v version) = true ->
  clean_filename name version device = spec_filename name version device.
Proof.
  intros Hv HV. unfold clean_filename, spec_filename, clean_version.
  do 4 f_equal.
  destruct version as [|c rest]; [reflexivity|].
  cbn [strip_leading_v] in *.
  destruct (Ascii.eqb c "v") eqn:Hcv.
  - cbn [orb] in *. cbn [replace]. rewrite Hcv. cbn [append].
    now rewrite (replace_absent "v"), (replace_absent "V").
  - destruct (Ascii.eqb c "V") eqn:HcV; cbn [orb] in *.
    + cbn [replace]. rewrite Hcv. rewrite (replace_absent "v") by exact Hv.
      cbn [append replace]. rewrite HcV. cbn [append].
      now rewrite (replace_absent "V").
    + now rewrite (replace_absent "v"), (replace_absent "V").
Qed.

Lemma clean_filename_agrees_with_spec_witness :
  clean_filename "Bruce" "V1.0-beta" "cardputer"
  = spec_filename "Bruce" "V1.0-beta" "cardputer".
Proof.
  apply clean_filename_agrees_with_spec; reflexivity.
Defined.

End CatalogLookup.

(* ================================================================= *)
(** ** Further facts: the device list *)

Section DeviceList.
Import Py FirmwareDownloader.

(** Strictly increasing, in the order of [sorted]. *)
Definition before (a b : string) : Prop := String.leb a b = true /\ a <> b.

Lemma before_ltb (a b : string) : before a b -> String.ltb a b = true.
Proof.
  unfold before, String.leb, String.ltb. intros [Hle Hne].
  destruct (String.compare a b) eqn:Hc; try reflexivity; try discriminate.
  apply String.compare_eq_iff in Hc. contradiction.
Qed.

Lemma insert_sorted_in (x d : string) (l : list string) :
  In d (insert_sorted x l) <-> d = x \/ In d l.
Proof.
  induction l as [|y l IH]; simpl.
  - intuition.
  - destruct (String.leb x y); simpl; [intuition|]. rewrite IH. intuition.
Qed.

Lemma sorted_in (d : string) (l : list string) : In d (sorted l) <-> In d l.
Proof.
  induction l as [|x l IH]; simpl; [reflexivity|].
  rewrite insert_sorted_in, IH. intuition.
Qed.

Lemma insert_sorted_before (x : string) (l : list string) :
  ~ In x l -> Sorted before l -> Sorted before (insert_sorted x l).
Proof.
  induction l as [|y l IH]; intros Hx Hs; simpl.
  - repeat constructor.
  - destruct (String.leb x y) eqn:Hxy.
    + constructor; [exact Hs|]. constructor. split; [exact Hxy|].
      intros ->. apply Hx. now left.
    + inversion Hs as [|? ? Hs' Hd]; subst.
      assert (Hyx : before y x).
      { split.
        - destruct (String.leb_total x y) as [H|H]; [congruence|exact H].
        - intros ->. apply Hx. now left. }
      constructor.
      * apply IH; [|exact Hs']. intros H. apply Hx. now right.
      * destruct l as [|z l]; simpl; [now constructor|].
        destruct (String.leb x z); constructor; [exact Hyx|].
        now inversion Hd.
Qed.

Lemma insert_sorted_nodup (x : string) (l : list string) :
  ~ In x l -> NoDup l -> NoDup (insert_sorted x l).
Proof.
  induction l as [|y l IH]; intros Hx Hn; simpl.
  - repeat constructor. intros [].
  - destruct (String.leb x y); [now constructor|].
    inversion Hn as [|? ? Hy Hn']; subst. constructor.
    + rewrite insert_sorted_in. intros [->|H]; [apply Hx; now left|contradiction].
    + apply IH; [|exact Hn']. intros H. apply Hx. now right.
Qed.

Lemma sorted_before (l : list string) :
  NoDup l -> Sorted before (sorted l) /\ NoDup (sorted l).
Proof.
  induction l as [|x l IH]; intros Hn; simpl; [split; constructor|].
  inversion Hn as [|? ? Hx Hn']; subst. destruct (IH Hn') as [Hs Hd].
  split.
  - apply insert_sorted_before; [now rewrite sorted_in|exact Hs].
  - apply insert_sorted_nodup; [now rewrite sorted_in|exact Hd].
Qed.

Lemma set_add_spec (x : string) (devices : list string) :
  NoDup devices ->
  NoDup (set_add x devices) /\ forall d, In d (set_add x devices) <-> d = x \/ In d devices.
Proof.
  intros Hn. unfold set_add.
  destruct (existsb (String.eqb x) devices) eqn:Hex.
  - split; [exact Hn|]. intros d. split; [auto|]. intros [->|H]; [|exact H].
    apply existsb_exists in Hex. destruct Hex as (y & Hy & Heq).
    apply String.eqb_eq in Heq. now subst.
  - split.
    + apply NoDup_app; [exact Hn|repeat constructor; intros []|].
      intros y Hy [Hxy|[]]. subst y.
      assert (existsb (String.eqb x) devices = true) as H; [|congruence].
      apply existsb_exists. exists x. split; [exact Hy|apply String.eqb_refl].
    + intros d. rewrite in_app_iff. simpl. intuition.
Qed.

Lemma collect_devices_spec (data : list Firmware) (acc : list string) :
  NoDup acc ->
  NoDup (fold_left
           (fun devices firmware =>
              if String.eqb (fw_category firmware) "" then devices
              else set_add (lower (fw_category firmware)) devices) data acc)
  /\ forall d,
       In d (fold_left
               (fun devices firmware =>
                  if String.eqb (fw_category firmware) "" then devices
                  else set_add (lower (fw_category firmware)) devices) data acc)
       <-> In d acc
           \/ exists firmware,
                In firmware data /\ fw_category firmware <> ""
                /\ lower (fw_category firmware) = d.
Proof.
  revert acc. induction data as [|f data IH]; intros acc Hn; cbn [fold_left].
  - split; [exact Hn|]. intros d. split; [auto|]. intros [H|(f & [] & _)]. exact H.
  - destruct (String.eqb (fw_category f) "") eqn:Hcat.
    + destruct (IH acc Hn) as [Hnd Hin]. split; [exact Hnd|].
      intros d. rewrite Hin. apply String.eqb_eq in Hcat. split.
      * intros [H|(g & Hg & Hne & Hd)]; [now left|right].
        exists g. split; [now right|auto].
      * intros [H|(g & [<-|Hg] & Hne & Hd)]; [now left|contradiction|right].
        now exists g.
    + apply String.eqb_neq in Hcat.
      destruct (set_add_spec (lower (fw_category f)) acc Hn) as [Hn1 Hin1].
      destruct (IH _ Hn1) as [Hnd Hin]. split; [exact Hnd|].
      intros d. rewrite Hin, Hin1. split.
      * intros [[->|H]|(g & Hg & Hne & Hd)].
        -- right. exists f. split; [now left|auto].
        -- now left.
        -- right. exists g. split; [now right|auto].
      * intros [H|(g & [<-|Hg] & Hne & Hd)].
        -- left. now right.
        -- left. now left.
        -- right. now exists g.
Qed.

(** X10: the device list is strictly increasing (so it names no device
    twice), and it holds exactly the lower-cased categories of the catalog
    entries that have a non-empty category. *)
Theorem get_available_devices_sorted_exact (data : list Firmware) :
  Sorted (fun a b => String.ltb a b = true) (get_available_devices data)
  /\ NoDup (get_available_devices data)
  /\ forall d,
       In d (get_available_devices data)
       <-> exists firmware,
             In firmware data /\ fw_category firmware <> ""
             /\ lower (fw_category firmware) = d.
Proof.
  unfold get_available_devices.
  destruct (collect_devices_spec data [] (NoDup_nil _)) as [Hn Hin].
  destruct (sorted_before _ Hn) as [Hs Hd].
  split; [|split; [exact Hd|]].
  - clear Hd. induction Hs as [|a l Hs IH Hhd]; constructor; [exact IH|].
    destruct Hhd; constructor. now apply before_ltb.
  - intros d. rewrite sorted_in, Hin. split; [|auto].
    intros [[]|H]. exact H.
Qed.

End DeviceList.

(* ================================================================= *)
(** ** Further facts: the asset fetcher *)

Section AssetFetcher.
Import Py FirmwareDownloader.
Variable env : Env.

(** Where [download_single_version] puts a version, and where it gets it
    from. *)
Definition target_of (settings : Settings) (name device device_key : string)
    (version_data : Version) : string :=
  path_join (path_join (output_base_dir settings) device_key)
    (clean_filename name (get_version version_data "unknown") device).

Definition url_of (version_data : Version) : string :=
  (firmware_base_url ++ v_file version_data)%string.

Lemma existsb_removed (p : string) (l : list string) :
  existsb (String.eqb p) (filter (fun q => negb (String.eqb p q)) l) = false.
Proof.
  induction l as [|q l IH]; simpl; [reflexivity|].
  destruct (String.eqb p q) eqn:Hpq; simpl; [exact IH|]. now rewrite Hpq.
Qed.

Lemma existsb_other_removed (p target : string) (l : list string) :
  p <> target ->
  existsb (String.eqb p) (filter (fun q => negb (String.eqb target q)) l)
  = existsb (String.eqb p) l.
Proof.
  intros Hne. induction l as [|q l IH]; simpl; [reflexivity|].
  destruct (String.eqb target q) eqn:Htq; simpl.
  - apply String.eqb_eq in Htq. subst q.
    apply String.eqb_neq in Hne. now rewrite Hne.
  - now rewrite IH.
Qed.

Lemma filter_absent (p : string) (l : list string) :
  existsb (String.eqb p) l = false ->
  filter (fun q => negb (String.eqb p q)) l = l.
Proof.
  induction l as [|q l IH]; simpl; [reflexivity|].
  destruct (String.eqb p q); simpl; [discriminate|]. intros H. now rewrite IH.
Qed.

(** Every path through [download_single_version] for an entry that has
    its name: no file to fetch, a directory that cannot be made, a target
    that is kept, a stream that completes, a stream that fails. *)
Lemma download_single_version_cases (firmware : Firmware) (name : string)
    (version_data : Version) (device device_key : string) (settings : Settings)
    (w : World) :
  fw_name firmware = Some name ->
  download_single_version env firmware version_data device device_key settings w =
  if String.eqb (v_file version_data) "" then (Returned false, w)
  else
    match mkdir_error env (path_join (output_base_dir settings) device_key) with
    | Some text => (Raised (Exception text), w)
    | None =>
        if skipped settings (target_of settings name device device_key version_data) w
        then (Returned true, w)
        else if streams env (url_of version_data) w
             then (Returned true,
                   mkWorld (target_of settings name device device_key version_data
                              :: files w)
                           (requests w ++ [url_of version_data]) (stdout w)
                           (firmware_data w))
             else (Returned false,
                   mkWorld (filter (fun q =>
                                      negb (String.eqb
                                              (target_of settings name device device_key
                                                 version_data) q))
                                   (files w))
                           (requests w ++ [url_of version_data]) (stdout w)
                           (firmware_data w))
    end.
Proof.
  intros Hname.
  cbv beta iota zeta delta
    [download_single_version skipped streams bind path_exists stream_to
     clock log_request ret raise write_file unlink mkdir target_of url_of].
  rewrite Hname.
  destruct (String.eqb (v_file version_data) ""); [reflexivity|].
  destruct (mkdir_error env (path_join (output_base_dir settings) device_key));
    [reflexivity|].
  set (target := path_join (path_join (output_base_dir settings) device_key)
                   (clean_filename name (get_version version_data "unknown") device)).
  destruct (existsb (String.eqb target) (files w)) eqn:Hpresent;
    destruct (overwrite_existing settings); cbn [andb negb]; try reflexivity;
    destruct (stream_response env (List.length (requests w))
                (firmware_base_url ++ v_file version_data)) as [|e opened|e opened];
    cbn [fst snd files requests stdout firmware_data]; try reflexivity;
    destruct opened;
    repeat first
      [ progress cbn [fst snd files requests stdout firmware_data existsb orb filter
                      negb andb]
      | rewrite String.eqb_refl
      | rewrite Hpresent
      | rewrite (filter_absent _ _ Hpresent) ];
    reflexivity.
Qed.

(** X5: a version that has been fetched is not fetched again.  When a
    call returned [True] and existing files are not to be overwritten,
    the same call made in the world it left returns [True] again and
    changes nothing: no request, no write. *)
Theorem download_single_version_rerun_skips (firmware : Firmware)
    (version_data : Version) (device device_key : string) (settings : Settings)
    (w w1 : World) :
  overwrite_existing settings = false ->
  download_single_version env firmware version_data device device_key settings w
  = (Returned true, w1) ->
  download_single_version env firmware version_data device device_key settings w1
  = (Returned true, w1).
Proof.
  intros Hkeep Hfirst.
  destruct (fw_name firmware) as [name|] eqn:Hname.
  2:{ unfold download_single_version in Hfirst. rewrite Hname in Hfirst. discriminate. }
  rewrite (download_single_version_cases _ _ _ _ _ _ _ Hname) in Hfirst.
  rewrite (download_single_version_cases _ _ _ _ _ _ _ Hname).
  destruct (String.eqb (v_file version_data) ""); [discriminate|].
  destruct (mkdir_error env (path_join (output_base_dir settings) device_key));
    [discriminate|].
  destruct (skipped settings (target_of settings name device device_key version_data) w)
    eqn:Hskip.
  - injection Hfirst as <-. now rewrite Hskip.
  - destruct (streams env (url_of version_data) w); [|discriminate].
    injection Hfirst as <-. unfold skipped. cbn [files existsb].
    now rewrite String.eqb_refl, Hkeep.
Qed.

(** X6: a download that fails leaves no file at its target, be it a
    partial file or the file that was there before (when files are
    overwritten), and it has made exactly one request: there is no
    retry. *)
Theorem download_single_version_failure_leaves_no_file (firmware : Firmware)
    (version_data : Version) (device device_key : string) (settings : Settings)
    (w w1 : World) :
  v_file version_data <> "" ->
  download_single_version env firmware version_data device device_key settings w
  = (Returned false, w1) ->
  exists name,
    fw_name firmware = Some name
    /\ existsb (String.eqb (target_of settings name device device_key version_data))
         (files w1) = false
    /\ requests w1 = requests w ++ [url_of version_data].
Proof.
  intros Hfile Hrun.
  destruct (fw_name firmware) as [name|] eqn:Hname.
  2:{ unfold download_single_version in Hrun. rewrite Hname in Hrun. discriminate. }
  exists name. split; [reflexivity|].
  rewrite (download_single_version_cases _ _ _ _ _ _ _ Hname) in Hrun.
  apply String.eqb_neq in Hfile. rewrite Hfile in Hrun.
  destruct (mkdir_error env (path_join (output_base_dir settings) device_key));
    [discriminate|].
  destruct (skipped settings (target_of settings name device device_key version_data) w);
    [discriminate|].
  destruct (streams env (url_of version_data) w); [discriminate|].
  injection Hrun as <-. cbn [files requests]. split; [apply existsb_removed|reflexivity].
Qed.

(** X7: whatever a call of [download_single_version] does, it leaves
    the cached catalog alone and leaves every path other than its target
    as it was. *)
Theorem download_single_version_touches_only_target (firmware : Firmware)
    (name : string) (version_data : Version) (device device_key : string)
    (settings : Settings) (w : World) :
  fw_name firmware = Some name ->
  firmware_data (snd (download_single_version env firmware version_data device
                        device_key settings w)) = firmware_data w
  /\ forall p,
       p <> target_of settings name device device_key version_data ->
       existsb (String.eqb p)
         (files (snd (download_single_version env firmware version_data device
                        device_key settings w)))
       = existsb (String.eqb p) (files w).
Proof.
  intros Hname. rewrite (download_single_version_cases _ _ _ _ _ _ _ Hname).
  destruct (String.eqb (v_file version_data) ""); [repeat split|].
  destruct (mkdir_error env (path_join (output_base_dir settings) device_key));
    [repeat split|].
  destruct (skipped settings (target_of settings name device device_key version_data) w);
    [repeat split|].
  destruct (streams env (url_of version_data) w);
    cbn [snd firmware_data files]; repeat split.
  - intros p Hp. cbn [existsb]. apply String.eqb_neq in Hp. now rewrite Hp.
  - intros p Hp. now apply existsb_other_removed.
Qed.

(** X8: the catalog is fetched once.  After a fetch that returned, every
    later fetch returns the same catalog and leaves the world as it is (no
    request); the first fetch itself makes at most the one request of the
    catalog URL.  A fetch that does not return ends the process with
    status 1. *)
Theorem fetch_firmware_data_once (w : World) :
  (forall data w1,
      fetch_firmware_data env w = (Returned data, w1) ->
      fetch_firmware_data env w1 = (Returned data, w1)
      /\ (requests w1 = requests w \/ requests w1 = requests w ++ [api_url])
      /\ files w1 = files w)
  /\ (forall e w1,
         fetch_firmware_data env w = (Raised e, w1) ->
         e = SystemExit 1 /\ firmware_data w1 = None
         /\ requests w1 = requests w ++ [api_url]).
Proof.
  cbv beta iota zeta delta
    [fetch_firmware_data bind get_firmware_data clock log_request ret raise
     set_firmware_data print].
  destruct (firmware_data w) as [cached|] eqn:Hcache.
  - split.
    + intros data w1 [= <- <-]. rewrite Hcache. repeat split. now left.
    + intros e w1 H. discriminate.
  - destruct (catalog_response env (List.length (requests w))) as [data0|e0|e0];
      cbn [fst snd files requests stdout firmware_data]; split.
    + intros data w1 [= <- <-]. cbn [firmware_data requests files].
      repeat split. now right.
    + intros e w1 H. discriminate.
    + intros data w1 H. discriminate.
    + intros e w1 [= <- <-]. cbn [firmware_data requests]. now rewrite Hcache.
    + intros data w1 H. discriminate.
    + intros e w1 [= <- <-]. cbn [firmware_data requests]. now rewrite Hcache.
Qed.

(** X4: a catalog entry without a name is a match for every requested
    name of its device, and once matched it makes the download raise
    [KeyError] instead of returning [False]: with the catalog at hand, an
    entry of the device that comes first, has no name and has a version
    the selector resolves to. *)
Theorem download_firmware_nameless_entry_raises (settings : Settings)
    (firmware_config : FirmwareConfig) (data : list Firmware)
    (firmware : Firmware) (others : list Firmware) (w : World) :
  firmware_data w = Some data ->
  get_firmware_for_device data (fc_device firmware_config) = firmware :: others ->
  fw_name firmware = None ->
  resolve_version firmware (fc_version firmware_config) <> NotFound ->
  find_firmware_by_name data (fc_device firmware_config) (fc_name firmware_config)
  = Some firmware
  /\ download_firmware env settings firmware_config w
     = (Raised (Exception "KeyError: 'name'"), w).
Proof.
  intros Hcache Hdevice Hname Hres.
  assert (Hfind : find_firmware_by_name data (fc_device firmware_config)
                    (fc_name firmware_config) = Some firmware).
  { unfold find_firmware_by_name. rewrite Hdevice. cbn [find].
    unfold get_name. rewrite Hname. cbn [lower].
    rewrite (str_in_empty (lower (fc_name firmware_config))), orb_true_r.
    reflexivity. }
  split; [exact Hfind|].
  unfold download_firmware. unfold bind at 1.
  assert (Hfetch : fetch_firmware_data env w = (Returned data, w)).
  { cbv beta iota zeta delta [fetch_firmware_data bind get_firmware_data ret].
    now rewrite Hcache. }
  rewrite Hfetch, Hfind.
  destruct (resolve_version firmware (fc_version firmware_config)) as [|v|vs] eqn:Hr.
  - contradiction.
  - unfold download_single_version. now rewrite Hname.
  - destruct (resolve_version_many _ _ _ Hr) as (Hall & -> & Hne).
    rewrite Hall. cbn [String.eqb Ascii.eqb Bool.eqb].
    destruct (fw_versions firmware) as [|v0 rest]; [contradiction|].
    cbn [download_versions]. unfold bind.
    unfold download_single_version. now rewrite Hname.
Qed.

End AssetFetcher.

Section AssetFetcherRuns.
Import Py FirmwareDownloader.

Lemma download_single_version_rerun_skips_witness :
  download_single_version (example_env "")
    (mkFirmware "cardputer" (Some "Bruce") "pr3y" [])
    (mkVersion (Some "v1.1") "new.bin") "cardputer" "cardputer" example_settings
    (mkWorld ["firmware/cardputer/cardputer_Bruce_1.1.bin"]
       ["https://m5burner-cdn.m5stack.com/firmware/new.bin"] [] None)
  = (Returned true,
     mkWorld ["firmware/cardputer/cardputer_Bruce_1.1.bin"]
       ["https://m5burner-cdn.m5stack.com/firmware/new.bin"] [] None).
Proof.
  apply (download_single_version_rerun_skips (example_env "")
           (mkFirmware "cardputer" (Some "Bruce") "pr3y" [])
           (mkVersion (Some "v1.1") "new.bin") "cardputer" "cardputer" example_settings
           empty_world _ eq_refl eq_refl).
Defined.

Lemma download_single_version_failure_leaves_no_file_witness :
  exists name,
    Some "Bruce" = Some name
    /\ existsb (String.eqb (target_of example_settings name "cardputer" "cardputer"
                              (mkVersion (Some "v1.0") "old.bin")))
         [] = false
    /\ ["https://m5burner-cdn.m5stack.com/firmware/old.bin"]
       = [] ++ [url_of (mkVersion (Some "v1.0") "old.bin")].
Proof.
  apply (download_single_version_failure_leaves_no_file (example_env "")
           (mkFirmware "cardputer" (Some "Bruce") "pr3y" [])
           (mkVersion (Some "v1.0") "old.bin") "cardputer" "cardputer" example_settings
           empty_world
           (mkWorld [] ["https://m5burner-cdn.m5stack.com/firmware/old.bin"] [] None)
           ltac:(discriminate) eq_refl).
Defined.

Lemma download_single_version_touches_only_target_witness :
  existsb (String.eqb "firmware/cardputer/other.bin")
    (files (snd (download_single_version (example_env "")
                   (mkFirmware "cardputer" (Some "Bruce") "pr3y" [])
                   (mkVersion (Some "v1.1") "new.bin") "cardputer" "cardputer"
                   example_settings empty_world)))
  = existsb (String.eqb "firmware/cardputer/other.bin") (files empty_world).
Proof.
  apply (proj2 (download_single_version_touches_only_target (example_env "")
                  (mkFirmware "cardputer" (Some "Bruce") "pr3y" []) "Bruce"
                  (mkVersion (Some "v1.1") "new.bin") "cardputer" "cardputer"
                  example_settings empty_world eq_refl)).
  discriminate.
Defined.

Lemma download_firmware_nameless_entry_raises_witness :
  download_firmware (example_env "") example_settings bruce_latest
    (mkWorld [] [] []
       (Some [mkFirmware "Cardputer" None "anon" [mkVersion (Some "1.0") "f.bin"]]))
  = (Raised (Exception "KeyError: 'name'"),
     mkWorld [] [] []
       (Some [mkFirmware "Cardputer" None "anon" [mkVersion (Some "1.0") "f.bin"]])).
Proof.
  apply (proj2 (download_firmware_nameless_entry_raises (example_env "")
                  example_settings bruce_latest
                  [mkFirmware "Cardputer" None "anon" [mkVersion (Some "1.0") "f.bin"]]
                  (mkFirmware "Cardputer" None "anon" [mkVersion (Some "1.0") "f.bin"])
                  []
                  (mkWorld [] [] []
                     (Some [mkFirmware "Cardputer" None "anon"
                              [mkVersion (Some "1.0") "f.bin"]]))
                  eq_refl eq_refl eq_refl ltac:(discriminate))).
Defined.

End AssetFetcherRuns.

(* ================================================================= *)
(** ** Further facts: what the release matcher requests and writes *)

Section ReleaseMatcherReach.
Import Py FirmwareDownloader.
Variable env : Env.

Lemma in_removed (p target : string) (l : list string) :
  In p (filter (fun q => negb (String.eqb target q)) l) -> In p l.
Proof. intros H. apply filter_In in H. tauto. Qed.

(** One iteration of the asset loop requests at most the asset's URL,
    which is then not empty, and writes at most the asset's target. *)
Lemma download_asset_reach (settings : Settings) (target_dir : string)
    (asset : Asset) (n : nat) (w : World) :
  (forall url,
      In url (requests (snd (download_asset env settings target_dir asset n w))) ->
      In url (requests w)
      \/ (url = browser_download_url asset /\ url <> ""))
  /\ (forall p,
         In p (files (snd (download_asset env settings target_dir asset n w))) ->
         In p (files w) \/ p = path_join target_dir (a_name asset)).
Proof.
  cbv beta iota zeta delta
    [download_asset bind path_exists stream_to clock log_request ret write_file unlink].
  destruct (String.eqb (browser_download_url asset) "") eqn:Hurl;
    [split; intros ? H; now left|].
  apply String.eqb_neq in Hurl.
  destruct (existsb (String.eqb (path_join target_dir (a_name asset))) (files w)
            && negb (overwrite_existing settings));
    [split; intros ? H; now left|].
  assert (Hreq : forall url,
             In url (requests w ++ [browser_download_url asset]) ->
             In url (requests w) \/ (url = browser_download_url asset /\ url <> "")).
  { intros url H. apply in_app_iff in H. destruct H as [H|[<-|[]]]; auto. }
  destruct (stream_response env (List.length (requests w)) (browser_download_url asset))
    as [|e opened|e opened]; cbn [fst snd files requests].
  - split; [exact Hreq|]. intros p [<-|H]; auto.
  - destruct opened; cbn [fst snd files requests existsb];
      rewrite ?String.eqb_refl; cbn [orb fst snd files requests].
    + split; [exact Hreq|]. intros p H. apply in_removed in H.
      destruct H as [<-|H]; auto.
    + destruct (existsb (String.eqb (path_join target_dir (a_name asset))) (files w));
        cbn [fst snd files requests]; (split; [exact Hreq|]); intros p H;
        [apply in_removed in H|]; auto.
  - destruct opened; cbn [fst snd files requests existsb];
      rewrite ?String.eqb_refl; cbn [orb fst snd files requests].
    + split; [exact Hreq|]. intros p H. apply in_removed in H.
      destruct H as [<-|H]; auto.
    + destruct (existsb (String.eqb (path_join target_dir (a_name asset))) (files w));
        cbn [fst snd files requests]; (split; [exact Hreq|]); intros p H;
        [apply in_removed in H|]; auto.
Qed.

Lemma download_assets_reach (settings : Settings) (target_dir : string)
    (assets : list Asset) (n : nat) (w : World) :
  (forall url,
      In url (requests (snd (download_assets env settings target_dir assets n w))) ->
      In url (requests w)
      \/ exists asset, In asset assets /\ url = browser_download_url asset /\ url <> "")
  /\ (forall p,
         In p (files (snd (download_assets env settings target_dir assets n w))) ->
         In p (files w)
         \/ exists asset, In asset assets /\ p = path_join target_dir (a_name asset)).
Proof.
  revert n w. induction assets as [|a assets IH]; intros n w.
  - split; intros ? H; now left.
  - assert (Hstep :
              download_assets env settings target_dir (a :: assets) n w
              = download_assets env settings target_dir assets
                  (if asset_obtained env settings target_dir a w then S n else n)
                  (snd (download_asset env settings target_dir a 0 w))).
    { cbn [download_assets]. unfold bind at 1.
      now rewrite (download_asset_spec env settings target_dir a n w). }
    rewrite Hstep.
    destruct (download_asset_reach settings target_dir a 0 w) as [Hreq Hfiles].
    destruct (IH (if asset_obtained env settings target_dir a w then S n else n)
                (snd (download_asset env settings target_dir a 0 w))) as [IHreq IHfiles].
    split.
    + intros url H. destruct (IHreq url H) as [H1|(b & Hb & Hu)].
      * destruct (Hreq url H1) as [H2|[H2 H3]]; [now left|right].
        exists a. split; [now left|auto].
      * right. exists b. split; [now right|auto].
    + intros p H. destruct (IHfiles p H) as [H1|(b & Hb & Hp)].
      * destruct (Hfiles p H1) as [H2|H2]; [now left|right].
        exists a. split; [now left|auto].
      * right. exists b. split; [now right|auto].
Qed.

(** X11: a call of [download_github_release_assets] requests nothing but
    the API endpoint of the releases page and the (non-empty) download
    URLs of assets whose names match the pattern, and it creates no file
    but the targets of such assets in the directory of the entry. *)
Theorem download_github_release_assets_reach (settings : Settings)
    (github_config : GithubConfig) (w : World) :
  (forall url,
      In url (requests (snd (download_github_release_assets env settings
                               github_config w))) ->
      In url (requests w)
      \/ parse_github_releases_url (g_releases_url github_config) = Some url
      \/ exists api release asset,
           parse_github_releases_url (g_releases_url github_config) = Some api
           /\ release_response env (List.length (requests w)) api = JsonBody release
           /\ In asset (r_assets release)
           /\ fnmatch env (a_name asset) (file_pattern_of github_config) = true
           /\ url = browser_download_url asset /\ url <> "")
  /\ (forall p,
         In p (files (snd (download_github_release_assets env settings
                             github_config w))) ->
         In p (files w)
         \/ exists api release asset,
              parse_github_releases_url (g_releases_url github_config) = Some api
              /\ release_response env (List.length (requests w)) api = JsonBody release
              /\ In asset (r_assets release)
              /\ fnmatch env (a_name asset) (file_pattern_of github_config) = true
              /\ p = path_join (path_join (output_base_dir settings)
                                  (g_name github_config)) (a_name asset)).
Proof.
  unfold download_github_release_assets.
  destruct (parse_github_releases_url (g_releases_url github_config)) as [api|] eqn:Hparse.
  2:{ split; intros ? H; now left. }
  cbv beta iota zeta delta [try_except bind clock log_request].
  fold (requested api w).
  assert (Hapi : forall url, In url (requests (requested api w)) ->
                             In url (requests w) \/ Some api = Some url).
  { intros url H. cbn [requested requests] in H. apply in_app_iff in H.
    destruct H as [H|[<-|[]]]; auto. }
  destruct (release_response env (List.length (requests w)) api)
    as [release|e|e] eqn:Hresp.
  2,3: (split; intros x H; cbn [print ret fst snd requests files] in H;
        [destruct (Hapi x H); auto | now left]).
  destruct (r_assets release) as [|a0 assets] eqn:Hassets.
  { split; intros x H; cbn [print ret fst snd requests files] in H;
      [destruct (Hapi x H); auto | now left]. }
  destruct (matching_assets_of env (file_pattern_of github_config) (a0 :: assets))
    as [|m0 matching] eqn:Hmatch.
  { split; intros x H; cbn [print ret fst snd requests files] in H;
      [destruct (Hapi x H); auto | now left]. }
  unfold mkdir.
  destruct (mkdir_error env (path_join (output_base_dir settings) (g_name github_config))).
  { split; intros x H; cbn [raise print ret fst snd requests files] in H;
      [destruct (Hapi x H); auto | now left]. }
  cbv beta iota zeta delta [ret].
  assert (Hmatching : forall asset,
             In asset (m0 :: matching) ->
             In asset (r_assets release)
             /\ fnmatch env (a_name asset) (file_pattern_of github_config) = true).
  { intros asset Hin. rewrite <- Hmatch in Hin. unfold matching_assets_of in Hin.
    apply filter_In in Hin. now rewrite Hassets. }
  destruct (download_assets_reach settings
              (path_join (output_base_dir settings) (g_name github_config))
              (m0 :: matching) 0 (requested api w)) as [Hreq Hfiles].
  destruct (download_assets env settings
              (path_join (output_base_dir settings) (g_name github_config))
              (m0 :: matching) 0 (requested api w)) as [[count|[text|code]] w'];
    cbn [fst snd print requests files stdout] in *.
  - split.
    + intros url H. destruct (Hreq url H) as [H1|(asset & Hin & Hu & Hne)].
      * destruct (Hapi url H1); auto.
      * right. right. destruct (Hmatching asset Hin) as [Hr Hm].
        exists api, release, asset. repeat split; auto.
    + intros p H. destruct (Hfiles p H) as [H1|(asset & Hin & Hp)]; [now left|].
      right. destruct (Hmatching asset Hin) as [Hr Hm].
      exists api, release, asset. repeat split; auto.
  - split.
    + intros url H. destruct (Hreq url H) as [H1|(asset & Hin & Hu & Hne)].
      * destruct (Hapi url H1); auto.
      * right. right. destruct (Hmatching asset Hin) as [Hr Hm].
        exists api, release, asset. repeat split; auto.
    + intros p H. destruct (Hfiles p H) as [H1|(asset & Hin & Hp)]; [now left|].
      right. destruct (Hmatching asset Hin) as [Hr Hm].
      exists api, release, asset. repeat split; auto.
  - split.
    + intros url H. destruct (Hreq url H) as [H1|(asset & Hin & Hu & Hne)].
      * destruct (Hapi url H1); auto.
      * right. right. destruct (Hmatching asset Hin) as [Hr Hm].
        exists api, release, asset. repeat split; auto.
    + intros p H. destruct (Hfiles p H) as [H1|(asset & Hin & Hp)]; [now left|].
      right. destruct (Hmatching asset Hin) as [Hr Hm].
      exists api, release, asset. repeat split; auto.
Qed.

End ReleaseMatcherReach.

(* ================================================================= *)
(** ** Further facts: selecting repositories *)

Section RepositorySelection.
Import Py SyncRepos.

Lemma dict_get_set {V : Type} (d : list (string * V)) (k k' : string) (v : V) :
  dict_get (dict_set d k v) k'
  = if String.eqb k k' then Some v else dict_get d k'.
Proof.
  induction d as [|[k0 v0] d IH]; cbn [dict_set dict_get]; [reflexivity|].
  destruct (String.eqb k0 k) eqn:Hk0; cbn [dict_get].
  - apply String.eqb_eq in Hk0. subst k0. now destruct (String.eqb k k').
  - rewrite IH. destruct (String.eqb k0 k') eqn:Hk0', (String.eqb k k') eqn:Hk;
      try reflexivity.
    apply String.eqb_eq in Hk0', Hk. subst. now rewrite String.eqb_refl in Hk0.
Qed.

Lemma find_app {A : Type} (f : A -> bool) (l1 l2 : list A) :
  find f (l1 ++ l2) = match find f l1 with Some x => Some x | None => find f l2 end.
Proof.
  induction l1 as [|a l1 IH]; simpl; [reflexivity|]. now destruct (f a).
Qed.

(** Looking a name up in the dictionary built from the list gives the
    last repository of the list that has the name. *)
Lemma repo_map_get (repositories : list RepoConfig) (n : string) :
  dict_get (repo_map repositories) n
  = find (fun repo => String.eqb (name repo) n) (rev repositories).
Proof.
  unfold repo_map.
  assert (H : forall d,
             dict_get (fold_left (fun d repo => dict_set d (name repo) repo)
                         repositories d) n
             = match find (fun repo => String.eqb (name repo) n) (rev repositories) with
               | Some repo => Some repo
               | None => dict_get d n
               end).
  { induction repositories as [|repo rest IH]; intros d; cbn [fold_left rev].
    - reflexivity.
    - rewrite IH, find_app, dict_get_set. cbn [find].
      destruct (find _ (rev rest)); [reflexivity|].
      now destruct (String.eqb (name repo) n). }
  rewrite H. now destruct (find _ (rev repositories)).
Qed.

Lemma find_name_none (repositories : list RepoConfig) (n : string) :
  find (fun repo => String.eqb (name repo) n) (rev repositories) = None
  <-> ~ In n (map name repositories).
Proof.
  split.
  - intros Hnone Hin. apply in_map_iff in Hin. destruct Hin as (repo & <- & Hin).
    apply in_rev in Hin. pose proof (find_none _ _ Hnone repo Hin) as H.
    cbn beta in H. now rewrite String.eqb_refl in H.
  - intros Hnot. destruct (find _ (rev repositories)) as [repo|] eqn:Hfind;
      [|reflexivity].
    destruct (find_some _ _ Hfind) as [Hin Hname].
    apply String.eqb_eq in Hname. exfalso. apply Hnot. apply in_map_iff.
    exists repo. split; [exact Hname|]. now apply in_rev.
Qed.

Lemma select_requested_known (m : list (string * RepoConfig))
    (requested_names : list string) :
  (forall n, In n requested_names -> dict_get m n <> None) ->
  exists selected,
    select_requested m requested_names = (selected, [])
    /\ Forall2 (fun n repo => dict_get m n = Some repo) requested_names selected.
Proof.
  induction requested_names as [|n rest IH]; intros Hknown.
  - exists []. split; [reflexivity|constructor].
  - destruct IH as (selected & Hsel & Hall); [intros k Hk; apply Hknown; now right|].
    cbn [select_requested]. rewrite Hsel.
    destruct (dict_get m n) as [repo|] eqn:Hget.
    + exists (repo :: selected). split; [reflexivity|now constructor].
    + exfalso. apply (Hknown n); [now left|exact Hget].
Qed.

Lemma select_requested_unknown (m : list (string * RepoConfig))
    (requested_names : list string) (n : string) :
  In n requested_names -> dict_get m n = None ->
  snd (select_requested m requested_names) <> [].
Proof.
  induction requested_names as [|k rest IH]; intros Hin Hnone; [contradiction|].
  cbn [select_requested].
  destruct (select_requested m rest) as [selected missing] eqn:Hrest.
  destruct Hin as [->|Hin].
  - rewrite Hnone. discriminate.
  - specialize (IH Hin Hnone). cbn [snd] in IH.
    destruct (dict_get m k); cbn [snd]; [exact IH|discriminate].
Qed.

Lemma filter_repositories_unknown (repositories : list RepoConfig)
    (requested_names : list string) :
  (exists n, In n requested_names /\ ~ In n (map name repositories)) ->
  filter_repositories repositories requested_names = Exit 1.
Proof.
  intros (n & Hin & Hnot).
  assert (Hmissing : snd (select_requested (repo_map repositories) requested_names)
                     <> []).
  { apply (select_requested_unknown _ _ n Hin).
    rewrite repo_map_get. now apply find_name_none. }
  unfold filter_repositories.
  destruct requested_names as [|k rest]; [contradiction|].
  destruct (select_requested (repo_map repositories) (k :: rest))
    as [selected [|m0 missing]]; [now contradiction Hmissing|reflexivity].
Qed.

(** X12: without requested names every configured repository is kept.
    With requested names, if each of them is configured the result follows
    the requested names in their order (a name requested twice is
    selected twice), taking for each name the last repository configured
    under it; if one of them is not configured the process ends with
    status 1 and selects nothing. *)
Theorem filter_repositories_by_name (repositories : list RepoConfig)
    (requested_names : list string) :
  filter_repositories repositories [] = Continue repositories
  /\ (requested_names <> [] ->
      (forall n, In n requested_names -> In n (map name repositories)) ->
      exists selected,
        filter_repositories repositories requested_names = Continue selected
        /\ map name selected = requested_names
        /\ (forall repo, In repo selected -> In repo repositories)
        /\ Forall2 (fun n repo =>
                      find (fun r => String.eqb (name r) n) (rev repositories)
                      = Some repo)
                   requested_names selected)
  /\ ((exists n, In n requested_names /\ ~ In n (map name repositories)) ->
      filter_repositories repositories requested_names = Exit 1).
Proof.
  split; [reflexivity|]. split.
  - intros Hne Hknown.
    destruct (select_requested_known (repo_map repositories) requested_names)
      as (selected & Hsel & Hall).
    { intros n Hn. rewrite repo_map_get. intros Hnone.
      apply find_name_none in Hnone. apply Hnone. now apply Hknown. }
    exists selected. unfold filter_repositories. rewrite Hsel.
    destruct requested_names as [|n rest]; [contradiction|].
    split; [reflexivity|].
    assert (Hfind : Forall2 (fun n repo =>
                               find (fun r => String.eqb (name r) n) (rev repositories)
                               = Some repo) (n :: rest) selected).
    { clear Hsel Hne Hknown. induction Hall as [|k repo ks sel Hk Hall IH];
        constructor; [now rewrite <- repo_map_get|exact IH]. }
    split; [|split; [|exact Hfind]].
    + clear Hsel Hne Hknown Hall. induction Hfind as [|k repo ks sel Hk Hall IH];
        [reflexivity|].
      cbn [map]. rewrite IH. f_equal.
      apply find_some in Hk. now apply String.eqb_eq.
    + intros repo Hin. clear Hsel Hne Hknown Hall.
      induction Hfind as [|k r ks sel Hk Hall IH]; [contradiction|].
      destruct Hin as [<-|Hin]; [|now apply IH].
      apply find_some in Hk. apply in_rev. tauto.
  - apply filter_repositories_unknown.
Qed.

Lemma filter_repositories_by_name_witness :
  filter_repositories [notes_repo] ["notes"; "tools"] = Exit 1.
Proof.
  apply (proj2 (proj2 (filter_repositories_by_name [notes_repo] ["notes"; "tools"]))).
  exists "tools". split; [simpl; auto|].
  simpl. intros [H|[]]. discriminate.
Defined.

End RepositorySelection.

(* ================================================================= *)
(** ** Further facts: sync, mirror and the start of [main] *)

Section SyncSteps.
Import Py SyncRepos.
Context {World : Type} {host : Host World}.

(** X13: the validation loop of [rsync_files] sorts every configured
    source, in the configured order, into the sources passed to rsync
    (those that exist, with a trailing slash when the whole tree is
    copied) and the sources reported missing; none is dropped and none is
    passed twice. *)
Theorem validate_sources_partition (repo_path : string) (copy_everything : bool)
    (sources : list string) (w : World) :
  fst (validate_sources repo_path copy_everything sources w)
  = map (fun f => if copy_everything then (path_join repo_path f ++ "/")%string
                  else path_join repo_path f)
        (filter (fun f => path_exists (path_join repo_path f) w) sources)
  /\ snd (validate_sources repo_path copy_everything sources w)
     = map (path_join repo_path)
           (filter (fun f => negb (path_exists (path_join repo_path f) w)) sources)
  /\ List.length (fst (validate_sources repo_path copy_everything sources w))
     + List.length (snd (validate_sources repo_path copy_everything sources w))
     = List.length sources.
Proof.
  induction sources as [|f sources (IHv & IHm & IHlen)]; cbn [validate_sources].
  - repeat split.
  - destruct (validate_sources repo_path copy_everything sources w) as [valid missing].
    cbn [fst snd] in *. cbn [filter].
    destruct (path_exists (path_join repo_path f) w); cbn [negb map fst snd List.length].
    + rewrite IHv, IHm in *. repeat split. lia.
    + rewrite IHv, IHm in *. repeat split. lia.
Qed.

(** X14: [sync_repo] reports success only when every step succeeded: the
    repository opens, the fetch succeeds, the active branch can be read,
    the checkout (made only when another branch is active) succeeds, and
    the pull succeeds; the world it leaves is the one after the pull. *)
Theorem sync_repo_success_steps (dest_dir branch : string) (message : string)
    (w w' : World) :
  sync_repo dest_dir branch w = ((true, message), w') ->
  repo_open dest_dir w = RepoOpened
  /\ message = ("Successfully synced " ++ dest_dir)%string
  /\ exists w1 current w2,
       fetch dest_dir w = (GitOk tt, w1)
       /\ active_branch dest_dir w1 = GitOk current
       /\ (if String.eqb current branch then w2 = w1
           else checkout dest_dir branch w1 = (GitOk tt, w2))
       /\ pull dest_dir w2 = (GitOk tt, w').
Proof.
  unfold sync_repo.
  destruct (repo_open dest_dir w); [|discriminate|discriminate].
  destruct (fetch dest_dir w) as [[[]|e|e] w1] eqn:Hfetch; try discriminate.
  destruct (active_branch dest_dir w1) as [current|e|e] eqn:Hbranch; try discriminate.
  destruct (String.eqb current branch) eqn:Hsame; cbn [negb].
  - destruct (pull dest_dir w1) as [[[]|e|e] w3] eqn:Hpull; try discriminate.
    intros [= <- <-]. split; [reflexivity|]. split; [reflexivity|].
    exists w1, current, w1. rewrite Hsame. auto.
  - destruct (checkout dest_dir branch w1) as [[[]|e|e] w2] eqn:Hcheckout;
      try discriminate.
    destruct (pull dest_dir w2) as [[[]|e|e] w3] eqn:Hpull; try discriminate.
    intros [= <- <-]. split; [reflexivity|]. split; [reflexivity|].
    exists w1, current, w2. rewrite Hsame. auto.
Qed.

(** X15: in copy mode an enabled entry is handled by the file mirror
    alone, with no git call: when the repository directory is missing,
    the entry fails and nothing is touched; otherwise the outcome of
    [process_repo], the world included, is the outcome of
    [rsync_files]. *)
Theorem process_repo_copy_is_mirror (repo_config : RepoConfig) (settings : Settings)
    (copy_base_dir : option string) (w : World) :
  enabled repo_config = true ->
  (path_exists (dest_dir repo_config) w = false ->
   process_repo repo_config settings copy_base_dir copy w
   = (Returned (false,
                ("Repository directory " ++ dest_dir repo_config
                 ++ " does not exist (cannot copy without sync first)")%string), w))
  /\ (path_exists (dest_dir repo_config) w = true ->
      process_repo repo_config settings copy_base_dir copy w
      = rsync_files repo_config settings copy_base_dir w).
Proof.
  intros Henabled. unfold process_repo. rewrite Henabled. cbn [negb].
  unfold bind at 1. unfold git_stage. cbn [includes_sync]. unfold bind.
  cbn [includes_copy is_copy andb]. split; intros Hexists; rewrite Hexists; cbn [negb].
  - reflexivity.
  - destruct (rsync_files repo_config settings copy_base_dir w)
      as [[[[|] message]|e] w']; reflexivity.
Qed.

(** X16: [main] ends before any repository is touched, leaving the world
    as it was, with status 0 when nothing is configured, when the list is
    asked for, or when none of the selected repositories is enabled, and
    with status 1 when a requested name is not configured, when a copy is
    asked for without a destination, or when rsync is missing. *)
Theorem main_from_args_early_ends (args : Args) (config : Config) (w : World) :
  (cfg_repositories config = [] \/ arg_list args = true ->
   main_from_args args config w = (0, w))
  /\ (cfg_repositories config <> [] -> arg_list args = false ->
      (exists n, In n (arg_repositories args)
                 /\ ~ In n (map name (cfg_repositories config))) ->
      main_from_args args config w = (1, w))
  /\ (cfg_repositories config <> [] -> arg_list args = false ->
      forall selected,
        filter_repositories (cfg_repositories config) (arg_repositories args)
        = Continue selected ->
        (includes_copy (arg_operation args) = true ->
         truthy (arg_copy_to args) = false \/ check_rsync_available w = false ->
         main_from_args args config w = (1, w))
        /\ (filter enabled selected = [] ->
            includes_copy (arg_operation args) = false
            \/ (truthy (arg_copy_to args) = true /\ check_rsync_available w = true) ->
            main_from_args args config w = (0, w))).
Proof.
  unfold main_from_args. split; [|split].
  - intros [Hnone|Hlist]; [now rewrite Hnone|].
    destruct (cfg_repositories config); [reflexivity|now rewrite Hlist].
  - intros Hrepos Hlist Hunknown.
    destruct (cfg_repositories config) as [|r rs] eqn:Hcfg; [contradiction|].
    rewrite Hlist.
    now rewrite (filter_repositories_unknown (r :: rs) (arg_repositories args)
                   Hunknown).
  - intros Hrepos Hlist selected Hsel.
    destruct (cfg_repositories config) as [|r rs] eqn:Hcfg; [contradiction|].
    rewrite Hlist, Hsel. split.
    + intros Hcopy [Hdest|Hrsync]; rewrite Hcopy; cbn [andb].
      * now rewrite Hdest.
      * destruct (truthy (arg_copy_to args)); cbn [negb]; [|reflexivity].
        now rewrite Hrsync.
    + intros Hnone [Hsync|[Hdest Hrsync]]; rewrite Hnone.
      * now rewrite Hsync.
      * rewrite Hdest, Hrsync. cbn [negb]. now rewrite !andb_false_r.
Qed.

(** X17: past its checks, [main] hands the batch exactly the selected
    repositories that are enabled: the calls of the batch are made for
    them, each of them has one result, no disabled repository is
    processed, and the process ends with status 1 exactly when one of
    these calls failed or the firmware-directory step, run in the world
    the batch left, failed, in the world that step leaves. *)
Theorem main_from_args_processes_enabled (args : Args) (config : Config)
    (selected : list RepoConfig) (w : World) :
  cfg_repositories config <> [] ->
  arg_list args = false ->
  filter_repositories (cfg_repositories config) (arg_repositories args)
  = Continue selected ->
  (includes_copy (arg_operation args) = true ->
   truthy (arg_copy_to args) = true /\ check_rsync_available w = true) ->
  filter enabled selected <> [] ->
  let jobs := match arg_jobs args with
              | Some jobs => jobs
              | None => or_default (cfg_parallel_jobs config) 1%Z
              end in
  let calls := batch_calls (cfg_settings config) (filter enabled selected) jobs
                 (arg_copy_to args) (arg_operation args) w in
  let fw_step := firmware_dir_step (cfg_settings config) (arg_copy_to args)
                   (arg_operation args) (snd calls) in
  Permutation (map fst (fst calls)) (filter enabled selected)
  /\ Forall (fun c => enabled (fst c) = true) (fst calls)
  /\ main_from_args args config w
     = (if (List.length (filter entry_failed (fst calls)) =? 0)%nat && negb (fst fw_step)
        then 0 else 1,
        snd fw_step)
  /\ results
       (fst (main (cfg_settings config) (filter enabled selected) jobs
               (arg_copy_to args) (arg_operation args) w))
     = map entry_result (fst calls).
Proof.
  intros Hrepos Hlist Hsel Hcopy Hsome jobs calls fw_step.
  pose proof (batch_calls_entries (cfg_settings config) (filter enabled selected) jobs
                (arg_copy_to args) (arg_operation args) w) as Hperm.
  fold calls in Hperm.
  pose proof (main_exact (cfg_settings config) (filter enabled selected) jobs
                (arg_copy_to args) (arg_operation args) w) as Hmain.
  fold calls in Hmain. fold fw_step in Hmain.
  split; [exact Hperm|]. split; [|split; [|now rewrite Hmain]].
  - apply Forall_forall. intros c Hc.
    assert (Hin : In (fst c) (filter enabled selected)).
    { apply (Permutation_in _ Hperm). now apply in_map. }
    apply filter_In in Hin. tauto.
  - unfold main_from_args.
    destruct (cfg_repositories config) as [|r rs] eqn:Hcfg; [contradiction|].
    rewrite Hlist, Hsel. fold jobs.
    assert (Hchecks :
              includes_copy (arg_operation args) && negb (truthy (arg_copy_to args))
              = false
              /\ includes_copy (arg_operation args) && negb (check_rsync_available w)
                 = false).
    { destruct (includes_copy (arg_operation args)); [|split; reflexivity].
      destruct (Hcopy eq_refl) as [-> ->]. split; reflexivity. }
    destruct Hchecks as [-> ->].
    destruct (filter enabled selected) as [|e es] eqn:Hen; [contradiction|].
    rewrite Hmain. now rewrite exit_code_counts.
Qed.

End SyncSteps.

Section SyncStepsRuns.
Import Py SyncRepos.

Lemma sync_repo_success_steps_witness :
  repo_open (Host := toy_host ["notes"] []) "notes" ["notes"] = RepoOpened.
Proof.
  apply (proj1 (sync_repo_success_steps (host := toy_host ["notes"] [])
                  "notes" "main" "Successfully synced notes" ["notes"] ["notes"]
                  eq_refl)).
Defined.

Lemma process_repo_copy_is_mirror_witness :
  process_repo (host := toy_host [] []) notes_repo plain_settings (Some "out") copy []
  = (Returned (false,
               "Repository directory notes does not exist (cannot copy without sync first)"),
     []).
Proof.
  apply (proj1 (process_repo_copy_is_mirror (host := toy_host [] [])
                  notes_repo plain_settings (Some "out") [] eq_refl)).
  reflexivity.
Defined.

Lemma main_from_args_early_ends_witness :
  main_from_args (host := toy_host [] [])
    (mkArgs ["tools"] false None None sync) (mkConfig plain_settings None [notes_repo])
    ["notes"]
  = (1, ["notes"]).
Proof.
  apply (proj1 (proj2 (main_from_args_early_ends (host := toy_host [] [])
                         (mkArgs ["tools"] false None None sync)
                         (mkConfig plain_settings None [notes_repo]) ["notes"])));
    [discriminate|reflexivity|].
  exists "tools". split; [simpl; auto|].
  simpl. intros [H|[]]. discriminate.
Defined.

Lemma main_from_args_processes_enabled_witness :
  main_from_args (host := toy_host [] ["out/firmware"])
    (mkArgs [] false None (Some "out") copy)
    (mkConfig (mkSettings None None (Some "fw")) None [notes_repo])
    ["notes"; "notes/a"; "notes/b"; "fw"]
  = (1, ["out/firmware"; "out/notes"; "notes"; "notes/a"; "notes/b"; "fw"]).
Proof.
  apply (proj1 (proj2 (proj2
           (main_from_args_processes_enabled (host := toy_host [] ["out/firmware"])
              (mkArgs [] false None (Some "out") copy)
              (mkConfig (mkSettings None None (Some "fw")) None [notes_repo])
              [notes_repo] ["notes"; "notes/a"; "notes/b"; "fw"]
              ltac:(discriminate) eq_refl eq_refl
              (fun _ => conj eq_refl eq_refl) ltac:(discriminate))))).
Defined.

End SyncStepsRuns.

(* ================================================================= *)
(** ** Further facts: configured entries and entries that are not found *)

Section ConfiguredEntries.
Import Py FirmwareDownloader.

(** The name a device is listed under: its [device_name], or its key. *)
Definition display_name (entry : string * DeviceConfig) : string :=
  match dc_device_name (snd entry) with
  | Some n => n
  | None => fst entry
  end.

(** A filter whose test gives the same answer on every image of a map
    keeps the whole image or nothing of it. *)
Lemma filter_map_constant {A B : Type} (test : B -> bool) (h : A -> B) (answer : bool)
    (l : list A) :
  (forall a, test (h a) = answer) ->
  filter test (map h l) = if answer then map h l else [].
Proof.
  intros Hconstant. induction l as [|a l IH]; cbn [map filter].
  - now destruct answer.
  - rewrite Hconstant, IH. now destruct answer.
Qed.

(** X18: [get_firmware_configs] yields one entry per configured firmware,
    device by device in the order of the table, each under the key of its
    device, with the version ["latest"] when none is given; and the
    [--device] filter keeps or drops the entries of a device as a whole,
    by the name the device is listed under (its key only when it has no
    [device_name]). *)
Theorem get_firmware_configs_by_device (devices : list (string * DeviceConfig))
    (device : string) :
  List.length (get_firmware_configs devices)
  = list_sum (map (fun entry => List.length (dc_firmware (snd entry))) devices)
  /\ (forall cfg,
         In cfg (get_firmware_configs devices) ->
         exists entry firmware,
           In entry devices /\ In firmware (dc_firmware (snd entry))
           /\ fc_device_key cfg = fst entry
           /\ fc_device cfg = display_name entry
           /\ fc_name cfg = fe_name firmware
           /\ fc_version cfg = match fe_version firmware with
                               | Some v => v
                               | None => "latest"
                               end)
  /\ filter_device device (get_firmware_configs devices)
     = get_firmware_configs
         (filter (fun entry => String.eqb (display_name entry) device) devices).
Proof.
  unfold get_firmware_configs. split; [|split].
  - induction devices as [|entry devices IH]; cbn [flat_map map list_sum];
      [reflexivity|].
    now rewrite length_app, length_map, IH.
  - intros cfg Hin. apply in_flat_map in Hin. destruct Hin as (entry & Hentry & Hcfg).
    apply in_map_iff in Hcfg. destruct Hcfg as (firmware & <- & Hfw).
    exists entry, firmware. repeat split; auto.
  - unfold filter_device.
    induction devices as [|entry devices IH]; cbn [flat_map filter]; [reflexivity|].
    rewrite filter_app, IH. fold (display_name entry).
    rewrite (filter_map_constant _ _ (String.eqb (display_name entry) device))
      by reflexivity.
    destruct (String.eqb (display_name entry) device); cbn [flat_map];
      [fold (display_name entry)|]; reflexivity.
Qed.

(** X19: when the catalog has no entry for the request, or the entry has
    no version for the selector, [download_firmware] returns [False],
    prints the one line that says which of the two it was, and attempts
    no download: beyond the catalog fetch it makes no request and touches
    no file. *)
Theorem download_firmware_not_found (env : Env) (settings : Settings)
    (firmware_config : FirmwareConfig) (data : list Firmware) (w w0 : World) :
  fetch_firmware_data env w = (Returned data, w0) ->
  (find_firmware_by_name data (fc_device firmware_config) (fc_name firmware_config)
   = None ->
   download_firmware env settings firmware_config w
   = (Returned false,
      mkWorld (files w0) (requests w0)
        (stdout w0 ++ [("✗ Firmware '" ++ fc_name firmware_config
                          ++ "' not found for device '" ++ fc_device firmware_config
                          ++ "'")%string])
        (firmware_data w0)))
  /\ (forall firmware,
         find_firmware_by_name data (fc_device firmware_config) (fc_name firmware_config)
         = Some firmware ->
         resolve_version firmware (fc_version firmware_config) = NotFound ->
         download_firmware env settings firmware_config w
         = (Returned false,
            mkWorld (files w0) (requests w0)
              (stdout w0 ++ [("✗ Version '" ++ fc_version firmware_config
                                ++ "' not found for firmware '"
                                ++ fc_name firmware_config ++ "'")%string])
              (firmware_data w0))).
Proof.
  intros Hfetch. split.
  - intros Hfind. unfold download_firmware. cbv zeta. unfold bind at 1.
    rewrite Hfetch. cbv beta. rewrite Hfind. reflexivity.
  - intros firmware Hfind Hres. unfold download_firmware. cbv zeta.
    unfold bind at 1. rewrite Hfetch. cbv beta. rewrite Hfind. cbv beta iota.
    rewrite Hres. reflexivity.
Qed.

Lemma download_firmware_not_found_witness :
  download_firmware (example_env "") example_settings other_latest empty_world
  = (Returned false,
     mkWorld [] [api_url] ["✗ Firmware 'Nemo' not found for device 'stickc'"]
       (Some example_catalog)).
Proof.
  apply (proj1 (download_firmware_not_found (example_env "") example_settings
                  other_latest example_catalog empty_world
                  (mkWorld [] [api_url] [] (Some example_catalog)) eq_refl)).
  reflexivity.
Defined.

End ConfiguredEntries.
